(** * Discount engine of the storefront backend

    A shallow embedding of the discount model (the Mongoose schema with its
    pre-save hook) and of the discount controller (create, update, usage
    recording, code validation, bulk status update), followed by the
    properties of the discount engine.

    Conventions of the embedding.
    - A JavaScript number is [num]: [NaN], the two infinities, or a finite
      value held as an exact rational.  Rounding, overflow and the sign of
      zero of IEEE doubles are not represented; every operation returns its
      finite results in lowest terms.
    - A [Date] is its time value in milliseconds ([Z]); an invalid date is
      [None] where one can occur.  Each reading of the clock is an argument
      of the function that reads it.
    - An [ObjectId] is its hexadecimal text; the identifiers of a request
      (the user, [:id]) are well formed.
    - Strings are byte strings; case mapping and white space are the ASCII
      ones.
    - The collection is the list of its documents in insertion order.
    - The fields [categories], [products] and [image] (reference arrays and
      the uploaded file name) and the time stamps take no part in any
      decision of the discount engine and are left out of the document.

    What is taken from the document store (Mongoose over MongoDB).
    - A Number path casts text with [Number], refuses [NaN], and reads the
      empty text as [null]; validators other than [required] skip [null].
    - [Model.create] and [doc.save()] validate, run the pre-save hook and
      then write; [save] on a loaded document validates and writes the
      paths that were modified.
    - [findByIdAndUpdate] and [updateMany] cast (and, with [runValidators],
      validate) the update and write it directly: they are query
      operations, and document middleware such as [pre("save")] is not run
      for them.
    - A path declared [unique: true] has a unique index over the whole
      collection. *)

From Stdlib Require Import ZArith QArith Qreduction Qround String Ascii List Bool
  Lia Lqa.
Import ListNotations.

(* ================================================================== *)
(** ** JavaScript numbers *)
(* ================================================================== *)

Module JS.

Inductive num : Type :=
| NaN
| PInf
| NInf
| Fin (q : Q).

Definition fin (q : Q) : num := Fin (Qred q).

Definition zero : num := Fin 0.
Definition one : num := Fin 1.
Definition hundred : num := Fin 100.

Definition isNaN (a : num) : bool :=
  match a with NaN => true | _ => false end.

(** Sign of a finite value, as a comparison with zero. *)
Definition sgn (q : Q) : comparison := (q ?= 0)%Q.

Definition neg (a : num) : num :=
  match a with
  | NaN => NaN
  | PInf => NInf
  | NInf => PInf
  | Fin q => fin (- q)
  end.

(** [a + b] *)
Definition add (a b : num) : num :=
  match a, b with
  | NaN, _ | _, NaN => NaN
  | PInf, NInf | NInf, PInf => NaN
  | PInf, _ | _, PInf => PInf
  | NInf, _ | _, NInf => NInf
  | Fin x, Fin y => fin (x + y)
  end.

(** [a - b] *)
Definition sub (a b : num) : num :=
  match a, b with
  | NaN, _ | _, NaN => NaN
  | PInf, PInf | NInf, NInf => NaN
  | PInf, _ | _, NInf => PInf
  | NInf, _ | _, PInf => NInf
  | Fin x, Fin y => fin (x - y)
  end.

Definition inf_of_sign (c : comparison) : num :=
  match c with Gt => PInf | Lt => NInf | Eq => NaN end.

(** [a * b] *)
Definition mul (a b : num) : num :=
  match a, b with
  | NaN, _ | _, NaN => NaN
  | PInf, PInf | NInf, NInf => PInf
  | PInf, NInf | NInf, PInf => NInf
  | PInf, Fin y | Fin y, PInf => inf_of_sign (sgn y)
  | NInf, Fin y | Fin y, NInf => inf_of_sign (CompOpp (sgn y))
  | Fin x, Fin y => fin (x * y)
  end.

(** [a / b]; a zero divisor is taken as [+0]. *)
Definition div (a b : num) : num :=
  match a, b with
  | NaN, _ | _, NaN => NaN
  | (PInf | NInf), (PInf | NInf) => NaN
  | PInf, Fin y => match sgn y with Lt => NInf | _ => PInf end
  | NInf, Fin y => match sgn y with Lt => PInf | _ => NInf end
  | Fin _, (PInf | NInf) => zero
  | Fin x, Fin y =>
      match sgn y with
      | Eq => inf_of_sign (sgn x)
      | _ => fin (x / y)
      end
  end.

(** Order of two numbers; [None] when one of them is [NaN]. *)
Definition cmp (a b : num) : option comparison :=
  match a, b with
  | NaN, _ | _, NaN => None
  | PInf, PInf | NInf, NInf => Some Eq
  | PInf, _ | _, NInf => Some Gt
  | NInf, _ | _, PInf => Some Lt
  | Fin x, Fin y => Some (x ?= y)%Q
  end.

(** [a < b], [a > b], [a <= b], [a >= b]: all false on [NaN]. *)
Definition lt (a b : num) : bool :=
  match cmp a b with Some Lt => true | _ => false end.
Definition gt (a b : num) : bool := lt b a.
Definition le (a b : num) : bool :=
  match cmp a b with Some Lt | Some Eq => true | _ => false end.
Definition ge (a b : num) : bool := le b a.

(** [Math.max(a, b)] *)
Definition max (a b : num) : num :=
  match cmp a b with
  | None => NaN
  | Some Lt => b
  | Some _ => a
  end.

(** [Math.min(a, b)] *)
Definition min (a b : num) : num :=
  match cmp a b with
  | None => NaN
  | Some Gt => b
  | Some _ => a
  end.

(** ToBoolean of a number: [0] and [NaN] are falsy. *)
Definition truthy (a : num) : bool :=
  match a with
  | NaN => false
  | Fin q => negb (Qeq_bool q 0)
  | _ => true
  end.

(** A number field of a document may hold [null]; arithmetic and comparison
    read [null] as [0]. *)
Definition of_nullable (a : option num) : num :=
  match a with Some n => n | None => zero end.

(** ToBoolean of a nullable number. *)
Definition truthy_nullable (a : option num) : bool :=
  match a with Some n => truthy n | None => false end.

(** [x || 0] on a number. *)
Definition or_zero (a : num) : num := if truthy a then a else zero.

(** An integer as a number. *)
Definition of_Z (z : Z) : num := Fin (inject_Z z).

End JS.

(* ================================================================== *)
(** ** Strings and the runtime's text-to-number conversions *)
(* ================================================================== *)

Module Text.

Import JS.
Local Open Scope Z_scope.

Definition chars (s : string) : list ascii := list_ascii_of_string s.

Definition is_space (c : ascii) : bool :=
  let n := nat_of_ascii c in
  ((9 <=? n) && (n <=? 13) || (n =? 32))%nat.

Definition upper_char (c : ascii) : ascii :=
  let n := nat_of_ascii c in
  if ((97 <=? n) && (n <=? 122))%nat then ascii_of_nat (n - 32) else c.

Definition lower_char (c : ascii) : ascii :=
  let n := nat_of_ascii c in
  if ((65 <=? n) && (n <=? 90))%nat then ascii_of_nat (n + 32) else c.

(** [s.toUpperCase()] *)
Definition toUpperCase (s : string) : string :=
  string_of_list_ascii (map upper_char (chars s)).

Definition toLowerCase (s : string) : string :=
  string_of_list_ascii (map lower_char (chars s)).

Fixpoint trim_start (l : list ascii) : list ascii :=
  match l with
  | c :: r => if is_space c then trim_start r else l
  | [] => []
  end.

Definition trim_chars (l : list ascii) : list ascii :=
  rev (trim_start (rev (trim_start l))).

(** [s.trim()] *)
Definition trim (s : string) : string :=
  string_of_list_ascii (trim_chars (chars s)).

(** ToBoolean of a string: only the empty string is falsy. *)
Definition truthy (s : string) : bool :=
  match s with EmptyString => false | _ => true end.

(** ToBoolean of a possibly absent string ([undefined] is falsy). *)
Definition truthy_opt (s : option string) : bool :=
  match s with Some s => truthy s | None => false end.

(** Value of a digit in a radix up to 16. *)
Definition digit_val (radix : Z) (c : ascii) : option Z :=
  let n := Z.of_nat (nat_of_ascii c) in
  let v :=
    (if (48 <=? n) && (n <=? 57) then n - 48
     else if (97 <=? n) && (n <=? 102) then n - 87
     else if (65 <=? n) && (n <=? 70) then n - 55
     else 16)%Z in
  if (v <? radix)%Z then Some v else None.

(** Longest prefix of digits: its value, its length, and the rest. *)
Fixpoint span_digits (radix : Z) (l : list ascii) (acc : Z) (cnt : nat)
  : Z * nat * list ascii :=
  match l with
  | c :: r =>
      match digit_val radix c with
      | Some d => span_digits radix r (radix * acc + d)%Z (S cnt)
      | None => (acc, cnt, l)
      end
  | [] => (acc, cnt, [])
  end.

Fixpoint strip_prefix (p l : list ascii) : option (list ascii) :=
  match p, l with
  | [], _ => Some l
  | a :: p', b :: l' => if Ascii.eqb a b then strip_prefix p' l' else None
  | _ :: _, [] => None
  end.

(** An optional sign: [true] for a leading minus. *)
Definition take_sign (l : list ascii) : bool * list ascii :=
  match l with
  | "-"%char :: r => (true, r)
  | "+"%char :: r => (false, r)
  | _ => (false, l)
  end.

Definition signed (minus : bool) (a : num) : num :=
  if minus then neg a else a.

(** [m * 10^e] *)
Definition scale10 (m e : Z) : num := fin (inject_Z m * (10 # 1) ^ e)%Q.

(** An exponent part [e[+-]digits]; none when no digit follows. *)
Definition take_exponent (l : list ascii) : Z * list ascii :=
  match l with
  | c :: r =>
      if Ascii.eqb c "e" || Ascii.eqb c "E" then
        let '(minus, r1) := take_sign r in
        let '(e, n, r2) := span_digits 10 r1 0%Z 0%nat in
        match n with
        | O => (0%Z, l)
        | _ => ((if minus then - e else e)%Z, r2)
        end
      else (0%Z, l)
  | [] => (0%Z, l)
  end.

(** The longest unsigned decimal literal at the head of [l]
    ([Infinity], [d.d e], [.d e], [d e]) and the rest; [None] when there is
    none. *)
Definition take_unsigned_decimal (l : list ascii) : option (num * list ascii) :=
  match strip_prefix (chars "Infinity") l with
  | Some r => Some (PInf, r)
  | None =>
      let '(ip, n1, r1) := span_digits 10 l 0%Z 0%nat in
      let '(fp, n2, r2) :=
        match r1 with
        | "."%char :: r => span_digits 10 r ip 0%nat
        | _ => (ip, O, r1)
        end in
      match n1, n2, r1 with
      | O, O, _ => None
      | _, O, "."%char :: r =>
          let '(e, r3) := take_exponent r in Some (scale10 ip e, r3)
      | _, _, _ =>
          let '(e, r3) := take_exponent r2 in
          Some (scale10 fp (e - Z.of_nat n2)%Z, r3)
      end
  end.

Definition take_decimal (l : list ascii) : option (num * list ascii) :=
  let '(minus, r) := take_sign l in
  match take_unsigned_decimal r with
  | Some (v, rest) => Some (signed minus v, rest)
  | None => None
  end.

(** [parseFloat(s)]: the value of the longest decimal literal after leading
    white space, [NaN] when there is none. *)
Definition parseFloat (s : string) : num :=
  match take_decimal (trim_start (chars s)) with
  | Some (v, _) => v
  | None => NaN
  end.

(** [parseInt(s)] with no radix: sign, an optional [0x] prefix, then the
    longest run of digits; [NaN] when there is none. *)
Definition parseInt (s : string) : num :=
  let '(minus, r) := take_sign (trim_start (chars s)) in
  let '(radix, r1) :=
    match r with
    | "0"%char :: c :: r' =>
        if Ascii.eqb c "x" || Ascii.eqb c "X" then (16%Z, r') else (10%Z, r)
    | _ => (10%Z, r)
    end in
  let '(v, n, _) := span_digits radix r1 0%Z 0%nat in
  match n with
  | O => NaN
  | _ => signed minus (of_Z v)
  end.

(** [Number(s)]: the whole trimmed text must be a numeric literal; the empty
    text is [0]. *)
Definition toNumber (s : string) : num :=
  let l := trim_chars (chars s) in
  let nondecimal (radix : Z) (r : list ascii) :=
    match span_digits radix r 0%Z 0%nat with
    | (v, S _, []) => of_Z v
    | _ => NaN
    end in
  match l with
  | [] => zero
  | "0"%char :: c :: r =>
      if Ascii.eqb c "x" || Ascii.eqb c "X" then nondecimal 16 r
      else if Ascii.eqb c "o" || Ascii.eqb c "O" then nondecimal 8 r
      else if Ascii.eqb c "b" || Ascii.eqb c "B" then nondecimal 2 r
      else match take_decimal l with Some (v, []) => v | _ => NaN end
  | _ => match take_decimal l with Some (v, []) => v | _ => NaN end
  end.

(** [parseFloat(x)] of a request parameter that may be absent: [undefined]
    reads as the text ["undefined"], which holds no number. *)
Definition parseFloat_opt (x : option string) : num :=
  match x with Some s => parseFloat s | None => NaN end.

End Text.

(* ================================================================== *)
(** ** The Discount document and its schema *)
(* ================================================================== *)

Module Model.

Import JS.
Local Open Scope Z_scope.

Definition ObjectId := string.
Definition Date := Z.

Inductive DiscountType : Type := percentage | fixed.
Inductive Status : Type := active | upcoming | expired | paused.
Inductive CustomerType : Type := cust_all | cust_new | cust_returning | cust_vip.
Inductive AppliesTo : Type :=
  all_products | selected_categories | selected_products.

(** A stored document.  Number paths that are not required may hold [null]
    ([None]); [minOrder] and [maxDiscount] are always written as numbers by
    the controller. *)
Record Discount : Type := mkDiscount {
  _id : ObjectId;
  name : string;
  code : string;
  description : string;
  type : DiscountType;
  value : num;
  minOrder : num;
  maxDiscount : num;
  startDate : Date;
  endDate : Date;
  usageLimit : option num;
  usedCount : option num;
  remainingUses : option num;
  customerType : CustomerType;
  appliesTo : AppliesTo;
  oneTimeUse : bool;
  combineWithOther : bool;
  excludeSaleItems : bool;
  status : Status;
  revenueGenerated : option num;
  ordersUsed : option num;
  createdBy : ObjectId
}.

Definition status_eqb (a b : Status) : bool :=
  match a, b with
  | active, active | upcoming, upcoming
  | expired, expired | paused, paused => true
  | _, _ => false
  end.

(** Field writes. *)
Definition set_derived (d : Discount) (r : option num) (s : Status) : Discount :=
  mkDiscount (_id d) (name d) (code d) (description d) (type d) (value d)
    (minOrder d) (maxDiscount d) (startDate d) (endDate d) (usageLimit d)
    (usedCount d) r (customerType d) (appliesTo d) (oneTimeUse d)
    (combineWithOther d) (excludeSaleItems d) s (revenueGenerated d)
    (ordersUsed d) (createdBy d).

Definition set_counters (d : Discount) (used revenue orders : option num)
  : Discount :=
  mkDiscount (_id d) (name d) (code d) (description d) (type d) (value d)
    (minOrder d) (maxDiscount d) (startDate d) (endDate d) (usageLimit d)
    used (remainingUses d) (customerType d) (appliesTo d) (oneTimeUse d)
    (combineWithOther d) (excludeSaleItems d) (status d) revenue
    orders (createdBy d).

Definition set_status (d : Discount) (s : Status) : Discount :=
  set_derived d (remainingUses d) s.

(** *** The pre-save hook ([discountSchema.pre("save")]) *)

Definition preSave_remaining (d : Discount) : option num :=
  match usageLimit d with
  | Some limit =>
      let usageLimit := limit in
      let usedCount := or_zero (of_nullable (usedCount d)) in
      if negb (isNaN usageLimit) && negb (isNaN usedCount)
      then Some (max zero (sub usageLimit usedCount))
      else None
  | None => None
  end.

Definition preSave_status (now : Date) (d : Discount) : Status :=
  if negb (status_eqb (status d) paused) then
    let start := startDate d in
    let end_ := endDate d in
    if now <? start then upcoming
    else if now >? end_ then expired
    else active
  else status d.

Definition preSave (now : Date) (d : Discount) : Discount :=
  set_derived d (preSave_remaining d) (preSave_status now d).

(** *** Virtuals *)

(** [isActive] *)
Definition isActive (now : Date) (d : Discount) : bool :=
  (startDate d <=? now) && (now <=? endDate d) && status_eqb (status d) active.

(** [daysRemaining]: [Math.ceil((end - now) / 86400000)]. *)
Definition daysRemaining (now : Date) (d : Discount) : Z :=
  - ((now - endDate d) / 86400000).

(** *** Schema validators *)

Definition num_eqb (a b : num) : bool :=
  match cmp a b with Some Eq => true | _ => false end.

Definition opt_num_eqb (a b : option num) : bool :=
  match a, b with
  | Some x, Some y => num_eqb x y
  | None, None => true
  | _, _ => false
  end.

(** A [min] validator on a nullable number path: a [NaN] does not cast, and
    [null] is not checked. *)
Definition min_ok (lo : num) (x : option num) : bool :=
  match x with
  | Some n => negb (isNaN n) && ge n lo
  | None => true
  end.

Definition name_ok (s : string) : bool :=
  Text.truthy s && (Nat.leb (String.length s) 100).
Definition code_ok (s : string) : bool :=
  Text.truthy s && (Nat.leb (String.length s) 20).
Definition description_ok (s : string) : bool :=
  Nat.leb (String.length s) 500.

(** Every validator of the schema on a whole document. *)
Definition schema_ok (d : Discount) : bool :=
  name_ok (name d) && code_ok (code d) && description_ok (description d)
  && min_ok zero (Some (value d))
  && min_ok zero (Some (minOrder d))
  && min_ok zero (Some (maxDiscount d))
  && min_ok one (usageLimit d)
  && min_ok zero (usedCount d)
  && min_ok zero (revenueGenerated d)
  && min_ok zero (ordersUsed d).

End Model.

(* ================================================================== *)
(** ** The collection and the document-store operations *)
(* ================================================================== *)

Module Store.

Import JS Model.
Local Open Scope Z_scope.

Definition Store := list Discount.

Definition id_eqb (a b : ObjectId) : bool := String.eqb a b.

(** [Discount.findById(id)] *)
Definition findById (st : Store) (id : ObjectId) : option Discount :=
  find (fun d => id_eqb (_id d) id) st.

(** [Discount.findOne({ code, createdBy })] *)
Definition findOne (st : Store) (c : string) (owner : ObjectId)
  : option Discount :=
  find (fun d => String.eqb (code d) c && id_eqb (createdBy d) owner) st.

(** Rewrite the document whose [_id] is [id]. *)
Fixpoint modify (id : ObjectId) (f : Discount -> Discount) (st : Store)
  : Store :=
  match st with
  | [] => []
  | d :: rest =>
      if id_eqb (_id d) id then f d :: rest else d :: modify id f rest
  end.

(** Why a store operation fails. *)
Inductive Error : Type :=
| CastError
| ValidationError
| DuplicateKey
| DocumentNotFound
| TypeError.

(** Insertion under the collection's unique indexes: [_id], and [code]
    (the schema declares [code] with [unique: true], an index over the whole
    collection). *)
Definition insert (st : Store) (d : Discount) : Store + Error :=
  if existsb (fun x => id_eqb (_id x) (_id d) || String.eqb (code x) (code d)) st
  then inr DuplicateKey
  else inl (st ++ [d]).

(** What [doc.save()] sends for a loaded document: the paths whose value in
    memory differs from the value that was loaded. *)
Definition write_modified (loaded mem stored : Discount) : Discount :=
  let pick (f : Discount -> option num) :=
    if opt_num_eqb (f loaded) (f mem) then f stored else f mem in
  set_derived
    (set_counters stored (pick usedCount) (pick revenueGenerated)
       (pick ordersUsed))
    (pick remainingUses)
    (if status_eqb (status loaded) (status mem) then status stored
     else status mem).

(** Validation on save of a loaded document covers its modified paths. *)
Definition modified_ok (loaded mem : Discount) : bool :=
  let check (f : Discount -> option num) :=
    opt_num_eqb (f loaded) (f mem) || min_ok zero (f mem) in
  check usedCount && check revenueGenerated && check ordersUsed.

(** [doc.save()] for a document loaded as [loaded] and changed in memory to
    [mem]: validation, then the pre-save hook, then the write.  Returns the
    store and the document as it is in memory afterwards. *)
Definition save (st : Store) (now : Date) (loaded mem : Discount)
  : Store * (Discount + Error) :=
  if modified_ok loaded mem then
    let mem' := preSave now mem in
    match findById st (_id mem') with
    | Some _ => (modify (_id mem') (write_modified loaded mem') st, inl mem')
    | None => (st, inr DocumentNotFound)
    end
  else (st, inr ValidationError).

(** [Discount.updateMany({ _id: { $in: ids } }, { $set: { status } })]:
    the store and the number of documents changed. *)
Fixpoint updateMany_status (ids : list ObjectId) (s : Status) (st : Store)
  : Store * nat :=
  match st with
  | [] => ([], O)
  | d :: rest =>
      let '(rest', n) := updateMany_status ids s rest in
      if existsb (id_eqb (_id d)) ids then
        (set_status d s :: rest',
         if status_eqb (status d) s then n else S n)
      else (d :: rest', n)
  end.

End Store.

(* ================================================================== *)
(** ** The discount controller *)
(* ================================================================== *)

Module Controller.

Import JS Model Store.
Local Open Scope string_scope.
Local Open Scope Z_scope.

(** A scalar of a parsed JSON body. *)
Inductive jsval : Type :=
| JUndefined
| JNull
| JBool (b : bool)
| JNumber (n : num)
| JString (s : string).

Definition truthy_val (v : jsval) : bool :=
  match v with
  | JUndefined | JNull => false
  | JBool b => b
  | JNumber n => truthy n
  | JString s => Text.truthy s
  end.

(** [parseFloat(v)]: the text of [v] is parsed; a number prints and parses
    back to itself, the other non-text scalars print as words. *)
Definition parseFloat_val (v : jsval) : num :=
  match v with
  | JString s => Text.parseFloat s
  | JNumber n => n
  | _ => NaN
  end.

(** The message of a response. *)
Inductive Message : Type :=
| Msg (s : string)
| MsgMinimumOrder (minOrder : num)
| MsgBulkUpdated (modifiedCount : nat) (s : Status).

(** The [data] (or [error]) member of a response. *)
Inductive Payload : Type :=
| NoData
| StartDateData (startDate : Date)
| EndDateData (endDate : Date)
| MinOrderData (minOrder : num)
| ValidData (discount : Discount) (discountAmount finalAmount : num)
| UsageData (id : ObjectId) (code : string)
    (usedCount remainingUses revenueGenerated : option num)
| DocumentData (discount : Discount)
| NotOwnedData (ids : list ObjectId)
| ModifiedData (modifiedCount : nat)
| ErrorData (e : Error).

Record Response : Type := mkResponse {
  http : nat;
  success : bool;
  message : Message;
  data : Payload
}.

Definition reject (st : nat) (m : string) (p : Payload) : Response :=
  mkResponse st false (Msg m) p.
Definition accept (st : nat) (m : Message) (p : Payload) : Response :=
  mkResponse st true m p.

(** [compareIds] *)
Definition compareIds (id1 id2 : ObjectId) : bool :=
  if negb (Text.truthy id1) || negb (Text.truthy id2) then false
  else String.eqb id1 id2.

(** *** validateDiscountCode  (GET /discounts/validate/:code) *)

Record ValidateRequest : Type := mkValidateRequest {
  v_user : ObjectId;               (* req.user.id *)
  v_code : string;                 (* req.params.code *)
  v_orderAmount : option string    (* req.query.orderAmount *)
}.

(** The discount amount (the [if]/[else] on [discount.type] of the
    handler). *)
Definition computeDiscountAmount (discount : Discount) (orderAmount : option string)
  : num :=
  match type discount with
  | percentage =>
      let discountAmount :=
        div (mul (Text.parseFloat_opt orderAmount) (value discount)) hundred in
      if gt (maxDiscount discount) zero
         && gt discountAmount (maxDiscount discount)
      then maxDiscount discount
      else discountAmount
  | fixed => value discount
  end.

Definition validateDiscountCode (st : Store) (now : Date) (req : ValidateRequest)
  : Store * Response :=
  let code := v_code req in
  let orderAmount := v_orderAmount req in
  if negb (Text.truthy code) then
    (st, reject 400 "Discount code is required" NoData)
  else
    match findOne st (Text.toUpperCase code) (v_user req) with
    | None => (st, reject 404 "Discount code not found" NoData)
    | Some discount =>
        let start := startDate discount in
        let end_ := endDate discount in
        if now <? start then
          (st, reject 400 "Discount is not active yet"
                 (StartDateData (startDate discount)))
        else if now >? end_ then
          (st, reject 400 "Discount has expired"
                 (EndDateData (endDate discount)))
        else if negb (status_eqb (status discount) active) then
          (st, reject 400 "Discount is not active" NoData)
        else if truthy_nullable (usageLimit discount)
                && ge (of_nullable (usedCount discount))
                      (of_nullable (usageLimit discount)) then
          (st, reject 400 "Discount usage limit reached" NoData)
        else if (Text.truthy_opt orderAmount && gt (minOrder discount) zero)
                && lt (Text.parseFloat_opt orderAmount) (minOrder discount) then
          (st, mkResponse 400 false (MsgMinimumOrder (minOrder discount))
                 (MinOrderData (minOrder discount)))
        else
          let discountAmount := computeDiscountAmount discount orderAmount in
          let finalAmount :=
            max zero (sub (Text.parseFloat_opt orderAmount) discountAmount) in
          (st, accept 200 (Msg "Discount code is valid")
                 (ValidData discount discountAmount finalAmount))
    end.

(** *** updateDiscountUsage  (PATCH /discounts/:id/use)

    The handler suspends twice: at [await Discount.findById] and at
    [await discount.save()].  [usage_load] is the part up to the read of the
    store, [usage_commit] the part from the loaded document to the write. *)

Record UsageRequest : Type := mkUsageRequest {
  u_id : ObjectId;        (* req.params.id *)
  u_orderId : jsval;      (* req.body.orderId *)
  u_orderAmount : jsval   (* req.body.orderAmount *)
}.

Inductive UsageTask : Type :=
| Loaded (req : UsageRequest) (discount : Discount)
| Replied (r : Response).

Definition usage_load (st : Store) (req : UsageRequest) : UsageTask :=
  if negb (truthy_val (u_orderId req)) || negb (truthy_val (u_orderAmount req))
  then Replied (reject 400 "Order ID and amount are required" NoData)
  else
    match findById st (u_id req) with
    | None => Replied (reject 404 "Discount not found" NoData)
    | Some discount => Loaded req discount
    end.

Definition usage_commit (st : Store) (now now_save : Date)
  (req : UsageRequest) (discount : Discount) : Store * Response :=
  let start := startDate discount in
  let end_ := endDate discount in
  if (now <? start) || (now >? end_)
     || negb (status_eqb (status discount) active) then
    (st, reject 400 "Discount is not active" NoData)
  else if truthy_nullable (usageLimit discount)
          && ge (of_nullable (usedCount discount))
                (of_nullable (usageLimit discount)) then
    (st, reject 400 "Discount usage limit reached" NoData)
  else
    let discount' :=
      set_counters discount
        (Some (add (of_nullable (usedCount discount)) one))
        (Some (add (of_nullable (revenueGenerated discount))
                   (parseFloat_val (u_orderAmount req))))
        (Some (add (of_nullable (ordersUsed discount)) one)) in
    match save st now_save discount discount' with
    | (st', inl saved) =>
        (st', accept 200 (Msg "Discount usage updated")
                (UsageData (_id saved) (code saved) (usedCount saved)
                   (remainingUses saved) (revenueGenerated saved)))
    | (st', inr e) =>
        (st', reject 500 "Error updating discount usage" (ErrorData e))
    end.

Definition updateDiscountUsage (st : Store) (now now_save : Date)
  (req : UsageRequest) : Store * Response :=
  match usage_load st req with
  | Replied r => (st, r)
  | Loaded req' discount => usage_commit st now now_save req' discount
  end.

(** *** bulkUpdateStatus  (PATCH /discounts/bulk/status) *)

Record BulkRequest : Type := mkBulkRequest {
  k_user : ObjectId;
  k_discountIds : option (list ObjectId);  (* [None]: absent or not an array *)
  k_status : string
}.

Definition bulk_status (s : string) : option Status :=
  if String.eqb s "active" then Some active
  else if String.eqb s "paused" then Some paused
  else if String.eqb s "expired" then Some expired
  else None.

Definition bulkUpdateStatus (st : Store) (req : BulkRequest)
  : Store * Response :=
  match k_discountIds req with
  | None | Some [] => (st, reject 400 "Discount IDs array is required" NoData)
  | Some discountIds =>
      match bulk_status (k_status req) with
      | None => (st, reject 400 "Invalid status value" NoData)
      | Some s =>
          let discounts :=
            filter (fun d => existsb (id_eqb (_id d)) discountIds) st in
          let notOwned :=
            filter (fun d => negb (compareIds (createdBy d) (k_user req)))
              discounts in
          match notOwned with
          | _ :: _ =>
              (st, reject 403 "You do not own some of these discounts"
                     (NotOwnedData (map _id notOwned)))
          | [] =>
              let '(st', modifiedCount) := updateMany_status discountIds s st in
              (st', accept 200 (MsgBulkUpdated modifiedCount s)
                      (ModifiedData modifiedCount))
          end
      end
  end.

(** *** Casting and validation of written values *)

(** A small error monad for the store's casts and validators. *)
Definition bind {A B : Type} (m : A + Error) (k : A -> B + Error) : B + Error :=
  match m with
  | inl a => k a
  | inr e => inr e
  end.

Notation "x <- m ;; k" := (bind m (fun x => k))
  (at level 61, m at next level, right associativity).

Definition check (b : bool) (e : Error) : unit + Error :=
  if b then inl tt else inr e.

Definition parse_type (s : string) : option DiscountType :=
  if String.eqb s "percentage" then Some percentage
  else if String.eqb s "fixed" then Some fixed
  else None.

Definition parse_status (s : string) : option Status :=
  if String.eqb s "active" then Some active
  else if String.eqb s "upcoming" then Some upcoming
  else if String.eqb s "expired" then Some expired
  else if String.eqb s "paused" then Some paused
  else None.

Definition parse_customerType (s : string) : option CustomerType :=
  if String.eqb s "all" then Some cust_all
  else if String.eqb s "new" then Some cust_new
  else if String.eqb s "returning" then Some cust_returning
  else if String.eqb s "vip" then Some cust_vip
  else None.

Definition parse_appliesTo (s : string) : option AppliesTo :=
  if String.eqb s "all_products" then Some all_products
  else if String.eqb s "selected_categories" then Some selected_categories
  else if String.eqb s "selected_products" then Some selected_products
  else None.

(** An [enum] validator. *)
Definition cast_enum {A : Type} (parse : string -> option A) (s : string)
  : A + Error :=
  match parse s with
  | Some a => inl a
  | None => inr ValidationError
  end.

(** A String path with [trim] (and [uppercase] for the code), then its
    validators. *)
Definition cast_name (s : string) : string + Error :=
  let s := Text.trim s in
  _ <- check (name_ok s) ValidationError ;; inl s.

Definition cast_code (s : string) : string + Error :=
  let s := Text.trim (Text.toUpperCase s) in
  _ <- check (code_ok s) ValidationError ;; inl s.

Definition cast_description (s : string) : string + Error :=
  let s := Text.trim s in
  _ <- check (description_ok s) ValidationError ;; inl s.

(** A required Number path with a [min] validator. *)
Definition cast_number (lo : num) (n : num) : num + Error :=
  _ <- check (negb (isNaN n)) CastError ;;
  _ <- check (ge n lo) ValidationError ;;
  inl n.

(** A nullable Number path with a [min] validator. *)
Definition cast_nullable (lo : num) (x : option num) : option num + Error :=
  match x with
  | None => inl None
  | Some n => n' <- cast_number lo n ;; inl (Some n')
  end.

(** A Number path given as text: the empty text casts to [null]. *)
Definition cast_number_text (s : string) : option num + Error :=
  match s with
  | EmptyString => inl None
  | _ =>
      let n := Text.toNumber s in
      _ <- check (negb (isNaN n)) CastError ;; inl (Some n)
  end.

Definition cast_counter_text (s : string) : option num + Error :=
  x <- cast_number_text s ;;
  _ <- check (min_ok zero x) ValidationError ;;
  inl x.

(** A required Date path. *)
Definition cast_date (t : option Date) : Date + Error :=
  match t with
  | Some t => inl t
  | None => inr CastError
  end.

Definition is_hex (c : ascii) : bool :=
  match Text.digit_val 16 c with Some _ => true | None => false end.

(** An ObjectId path given as text: twenty-four hexadecimal digits. *)
Definition cast_objectId (s : string) : ObjectId + Error :=
  if (Nat.eqb (String.length s) 24) && forallb is_hex (Text.chars s)
  then inl (Text.toLowerCase s)
  else inr CastError.

(** *** Dates of a request *)

(** [validateDates]; an invalid date compares false with everything. *)
Definition validateDates (start end_ : option Date) (now : Date)
  : option string :=
  match start, end_ with
  | Some s, Some e =>
      if s >? e then Some "End date must be after start date"
      else if e <? now then Some "End date must be in the future"
      else None
  | _, Some e =>
      if e <? now then Some "End date must be in the future" else None
  | _, None => None
  end.

(** *** generateDiscountCode

    [draws] holds, for each turn of the loop, the eight values of
    [Math.floor(Math.random() * chars.length)].  [None] stands for a loop
    that has not found a free code within the given turns. *)

Definition code_chars : string := "ABCDEFGHIJKLMNOPQRSTUVWXYZ0123456789".

(** [chars.charAt(i)]: empty outside the text. *)
Definition charAt (s : string) (i : nat) : string :=
  match String.get i s with
  | Some c => String c EmptyString
  | None => EmptyString
  end.

Definition draw_code (turn : list nat) : string :=
  fold_left (fun code i => code ++ charAt code_chars i)%string
    (firstn 8 turn) EmptyString.

Fixpoint generateDiscountCode (st : Store) (shopOwnerId : ObjectId)
  (draws : list (list nat)) : option string :=
  match draws with
  | [] => None
  | turn :: rest =>
      let code := draw_code turn in
      match findOne st code shopOwnerId with
      | None => Some code
      | Some _ => generateDiscountCode st shopOwnerId rest
      end
  end.

(** *** The text fields of a create or update request

    Both routes take a multipart form, whose fields arrive as text; [None]
    is an absent field.  The first fifteen are the ones [createDiscount]
    reads; [updateDiscount] copies the whole body.  The body is a flat
    object of field values: keys that are update operators or nested paths
    are not represented. *)
Record Body : Type := mkBody {
  b_name : option string;
  b_code : option string;
  b_description : option string;
  b_type : option string;
  b_value : option string;
  b_minOrder : option string;
  b_maxDiscount : option string;
  b_startDate : option string;
  b_endDate : option string;
  b_usageLimit : option string;
  b_customerType : option string;
  b_appliesTo : option string;
  b_oneTimeUse : option string;
  b_combineWithOther : option string;
  b_excludeSaleItems : option string;
  b_usedCount : option string;
  b_remainingUses : option string;
  b_status : option string;
  b_revenueGenerated : option string;
  b_ordersUsed : option string;
  b_createdBy : option string
}.

Definition empty_body : Body :=
  mkBody None None None None None None None None None None None None None
    None None None None None None None None.

(** [x || dflt] on an optional text. *)
Definition or_text (x : option string) (dflt : string) : string :=
  match x with
  | Some s => if Text.truthy s then s else dflt
  | None => dflt
  end.

Section Handlers.

(** [new Date(text)]: the time value, or [None] for an invalid date.  The
    accepted formats are the runtime's. *)
Variable parseDate : string -> option Date.

(** *** createDiscount  (POST /discounts) *)

(** The object handed to [Discount.create]. *)
Record DiscountData : Type := mkDiscountData {
  dd_name : string;
  dd_code : string;
  dd_description : string;
  dd_type : string;
  dd_value : num;
  dd_minOrder : num;
  dd_maxDiscount : num;
  dd_startDate : option Date;
  dd_endDate : option Date;
  dd_usageLimit : option num;
  dd_customerType : string;
  dd_appliesTo : string;
  dd_oneTimeUse : bool;
  dd_combineWithOther : bool;
  dd_excludeSaleItems : bool;
  dd_createdBy : ObjectId
}.

(** Casting and validation of a new document, with the schema defaults. *)
Definition cast_new (fresh : ObjectId) (x : DiscountData) : Discount + Error :=
  name' <- cast_name (dd_name x) ;;
  code' <- cast_code (dd_code x) ;;
  description' <- cast_description (dd_description x) ;;
  type' <- cast_enum parse_type (dd_type x) ;;
  value' <- cast_number zero (dd_value x) ;;
  minOrder' <- cast_number zero (dd_minOrder x) ;;
  maxDiscount' <- cast_number zero (dd_maxDiscount x) ;;
  startDate' <- cast_date (dd_startDate x) ;;
  endDate' <- cast_date (dd_endDate x) ;;
  usageLimit' <- cast_nullable one (dd_usageLimit x) ;;
  customerType' <- cast_enum parse_customerType (dd_customerType x) ;;
  appliesTo' <- cast_enum parse_appliesTo (dd_appliesTo x) ;;
  inl (mkDiscount fresh name' code' description' type' value' minOrder'
         maxDiscount' startDate' endDate' usageLimit' (Some zero) None
         customerType' appliesTo' (dd_oneTimeUse x) (dd_combineWithOther x)
         (dd_excludeSaleItems x) active (Some zero) (Some zero)
         (dd_createdBy x)).

(** [Discount.create(data)]: cast and validate, run the pre-save hook,
    insert. *)
Definition create (st : Store) (now_save : Date) (fresh : ObjectId)
  (x : DiscountData) : Store * (Discount + Error) :=
  match cast_new fresh x with
  | inr e => (st, inr e)
  | inl d =>
      let d' := preSave now_save d in
      match insert st d' with
      | inl st' => (st', inl d')
      | inr e => (st, inr e)
      end
  end.

Definition text_is (x : option string) (s : string) : bool :=
  match x with Some v => String.eqb v s | None => false end.

Definition createDiscount (st : Store) (now now_save : Date) (fresh : ObjectId)
  (draws : list (list nat)) (user : ObjectId) (body : Body)
  : option (Store * Response) :=
  if negb (Text.truthy_opt (b_name body)) || negb (Text.truthy_opt (b_type body))
     || negb (Text.truthy_opt (b_value body))
     || negb (Text.truthy_opt (b_startDate body))
     || negb (Text.truthy_opt (b_endDate body))
  then
    Some (st, reject 400
                "Name, type, value, start date, and end date are required"
                NoData)
  else
    let startDate := parseDate (or_text (b_startDate body) "") in
    let endDate := parseDate (or_text (b_endDate body) "") in
    match validateDates startDate endDate now with
    | Some dateError => Some (st, reject 400 dateError NoData)
    | None =>
        let chosen : option (string + Response) :=
          if negb (Text.truthy_opt (b_code body)) then
            match generateDiscountCode st user draws with
            | Some c => Some (inl c)
            | None => None
            end
          else
            let discountCode := or_text (b_code body) "" in
            match findOne st (Text.toUpperCase discountCode) user with
            | Some _ =>
                Some (inr (reject 400
                             "Discount code already exists for your shop"
                             NoData))
            | None => Some (inl discountCode)
            end in
        match chosen with
        | None => None
        | Some (inr r) => Some (st, r)
        | Some (inl discountCode) =>
            let number_or_zero (x : option string) :=
              if Text.truthy_opt x then Text.parseFloat (or_text x "")
              else zero in
            let discountData :=
              mkDiscountData
                (or_text (b_name body) "")
                (Text.toUpperCase discountCode)
                (or_text (b_description body) "")
                (or_text (b_type body) "")
                (Text.parseFloat (or_text (b_value body) ""))
                (number_or_zero (b_minOrder body))
                (number_or_zero (b_maxDiscount body))
                startDate
                endDate
                (if Text.truthy_opt (b_usageLimit body)
                 then Some (Text.parseInt (or_text (b_usageLimit body) ""))
                 else None)
                (or_text (b_customerType body) "all")
                (or_text (b_appliesTo body) "all_products")
                (text_is (b_oneTimeUse body) "true")
                (negb (text_is (b_combineWithOther body) "false"))
                (text_is (b_excludeSaleItems body) "true")
                user in
            match create st now_save fresh discountData with
            | (st', inl discount) =>
                Some (st', accept 201 (Msg "Discount created successfully")
                             (DocumentData discount))
            | (st', inr e) =>
                Some (st', reject 500 "Error creating discount" (ErrorData e))
            end
        end
    end.

(** *** updateDiscount  (PUT /discounts/:id) *)

(** A date of the update object: a [Date] built from a non-empty text, or
    the empty text left as it came. *)
Inductive DateInput : Type :=
| DateObject (t : option Date)
| EmptyText.

(** [updateData] after the conversions of the handler. *)
Record UpdateData : Type := mkUpdateData {
  up_name : option string;
  up_code : option string;
  up_description : option string;
  up_type : option string;
  up_value : option num;
  up_minOrder : option num;
  up_maxDiscount : option num;
  up_startDate : option DateInput;
  up_endDate : option DateInput;
  up_usageLimit : option (option num);
  up_customerType : option string;
  up_appliesTo : option string;
  up_oneTimeUse : option bool;
  up_combineWithOther : option bool;
  up_excludeSaleItems : option bool;
  up_usedCount : option string;
  up_remainingUses : option string;
  up_status : option string;
  up_revenueGenerated : option string;
  up_ordersUsed : option string;
  up_createdBy : option string
}.

Definition convert_date (x : option string) : option DateInput :=
  match x with
  | Some s => if Text.truthy s then Some (DateObject (parseDate s))
              else Some EmptyText
  | None => None
  end.

Definition convert (body : Body) : UpdateData :=
  mkUpdateData
    (b_name body) (b_code body) (b_description body) (b_type body)
    (option_map Text.parseFloat (b_value body))
    (option_map Text.parseFloat (b_minOrder body))
    (option_map Text.parseFloat (b_maxDiscount body))
    (convert_date (b_startDate body))
    (convert_date (b_endDate body))
    (option_map (fun s => if Text.truthy s then Some (Text.parseInt s) else None)
       (b_usageLimit body))
    (b_customerType body) (b_appliesTo body)
    (option_map (fun s => String.eqb s "true") (b_oneTimeUse body))
    (option_map (fun s => negb (String.eqb s "false")) (b_combineWithOther body))
    (option_map (fun s => String.eqb s "true") (b_excludeSaleItems body))
    (b_usedCount body) (b_remainingUses body) (b_status body)
    (b_revenueGenerated body) (b_ordersUsed body) (b_createdBy body).

(** The date the handler validates: the converted one when it is truthy,
    else the stored one. *)
Definition date_or (x : option DateInput) (stored : Date) : option Date :=
  match x with
  | Some (DateObject t) => t
  | _ => Some stored
  end.

Definition date_given (x : option DateInput) : bool :=
  match x with Some (DateObject _) => true | _ => false end.

(** One path of a [$set]: absent keeps the stored value. *)
Definition set_path {A B : Type} (x : option A) (stored : B)
  (cast : A -> B + Error) : B + Error :=
  match x with
  | Some v => cast v
  | None => inl stored
  end.

Definition cast_date_input (x : DateInput) : Date + Error :=
  match x with
  | DateObject t => cast_date t
  | EmptyText => inr ValidationError
  end.

(** Casting and update validators of [{ $set: updateData }] on a stored
    document ([runValidators: true]). *)
Definition cast_update (u : UpdateData) (d : Discount) : Discount + Error :=
  name' <- set_path (up_name u) (name d) cast_name ;;
  code' <- set_path (up_code u) (code d) cast_code ;;
  description' <- set_path (up_description u) (description d) cast_description ;;
  type' <- set_path (up_type u) (type d) (cast_enum parse_type) ;;
  value' <- set_path (up_value u) (value d) (cast_number zero) ;;
  minOrder' <- set_path (up_minOrder u) (minOrder d) (cast_number zero) ;;
  maxDiscount' <- set_path (up_maxDiscount u) (maxDiscount d) (cast_number zero) ;;
  startDate' <- set_path (up_startDate u) (startDate d) cast_date_input ;;
  endDate' <- set_path (up_endDate u) (endDate d) cast_date_input ;;
  usageLimit' <- set_path (up_usageLimit u) (usageLimit d) (cast_nullable one) ;;
  usedCount' <- set_path (up_usedCount u) (usedCount d) cast_counter_text ;;
  remainingUses' <- set_path (up_remainingUses u) (remainingUses d)
                      cast_number_text ;;
  customerType' <- set_path (up_customerType u) (customerType d)
                     (cast_enum parse_customerType) ;;
  appliesTo' <- set_path (up_appliesTo u) (appliesTo d)
                  (cast_enum parse_appliesTo) ;;
  status' <- set_path (up_status u) (status d) (cast_enum parse_status) ;;
  revenueGenerated' <- set_path (up_revenueGenerated u) (revenueGenerated d)
                         cast_counter_text ;;
  ordersUsed' <- set_path (up_ordersUsed u) (ordersUsed d) cast_counter_text ;;
  createdBy' <- set_path (up_createdBy u) (createdBy d) cast_objectId ;;
  inl (mkDiscount (_id d) name' code' description' type' value' minOrder'
         maxDiscount' startDate' endDate' usageLimit' usedCount'
         remainingUses' customerType' appliesTo'
         (match up_oneTimeUse u with Some b => b | None => oneTimeUse d end)
         (match up_combineWithOther u with
          | Some b => b | None => combineWithOther d end)
         (match up_excludeSaleItems u with
          | Some b => b | None => excludeSaleItems d end)
         status' revenueGenerated' ordersUsed' createdBy').

(** [Discount.findByIdAndUpdate(id, updateData, { new: true,
    runValidators: true })]: the update is cast, validated and written to
    the stored document directly; document middleware such as the pre-save
    hook is not part of this operation.  [None] when no document has the
    id. *)
Definition findByIdAndUpdate (st : Store) (id : ObjectId) (u : UpdateData)
  : Store * (option Discount + Error) :=
  match findById st id with
  | None => (st, inl None)
  | Some d =>
      match cast_update u d with
      | inr e => (st, inr e)
      | inl d' =>
          if existsb (fun x => negb (id_eqb (_id x) id)
                               && String.eqb (code x) (code d')) st
          then (st, inr DuplicateKey)
          else (modify id (fun _ => d') st, inl (Some d'))
      end
  end.

Record UpdateRequest : Type := mkUpdateRequest {
  p_user : ObjectId;   (* req.user.id *)
  p_id : ObjectId;     (* req.params.id *)
  p_body : Body        (* req.body *)
}.

Definition updateDiscount (st : Store) (now : Date) (req : UpdateRequest)
  : Store * Response :=
  match findById st (p_id req) with
  | None => (st, reject 404 "Discount not found" NoData)
  | Some discount =>
      if negb (compareIds (createdBy discount) (p_user req)) then
        (st, reject 403 "You do not own this discount" NoData)
      else
        let updateData := convert (p_body req) in
        let dateError :=
          if date_given (up_startDate updateData)
             || date_given (up_endDate updateData)
          then
            validateDates
              (date_or (up_startDate updateData) (startDate discount))
              (date_or (up_endDate updateData) (endDate discount)) now
          else None in
        match dateError with
        | Some e => (st, reject 400 e NoData)
        | None =>
            match findByIdAndUpdate st (p_id req) updateData with
            | (st', inl (Some updatedDiscount)) =>
                (st', accept 200 (Msg "Discount updated successfully")
                        (DocumentData updatedDiscount))
            | (st', inl None) =>
                (st', reject 500 "Error updating discount"
                        (ErrorData TypeError))
            | (st', inr e) =>
                (st', reject 500 "Error updating discount" (ErrorData e))
            end
        end
  end.

End Handlers.

End Controller.

(* ================================================================== *)
(** ** Interleaved usage requests *)
(* ================================================================== *)

(** Requests are served on one thread and interleave where a handler
    awaits.  [updateDiscountUsage] awaits the read of the document and the
    save; between the two it runs on the document it has read.  A request
    therefore takes two steps against the store: the load, and later the
    commit. *)
Module Interleaving.

Import JS Model Store Controller.
Local Open Scope Z_scope.

Inductive Task : Type :=
| Pending (req : UsageRequest)
| Started (t : UsageTask).

(** The task that moves, with the clock readings of its handler and of the
    pre-save hook. *)
Record Event : Type := mkEvent {
  e_task : nat;
  e_now : Date;
  e_now_save : Date
}.

Definition step_task (st : Store) (t : Task) (now now_save : Date)
  : Store * Task :=
  match t with
  | Pending req => (st, Started (usage_load st req))
  | Started (Loaded req discount) =>
      let '(st', r) := usage_commit st now now_save req discount in
      (st', Started (Replied r))
  | Started (Replied _) => (st, t)
  end.

Fixpoint set_nth {A : Type} (n : nat) (x : A) (l : list A) : list A :=
  match l, n with
  | [], _ => []
  | _ :: rest, O => x :: rest
  | y :: rest, S k => y :: set_nth k x rest
  end.

Definition Config : Type := Store * list Task.

Definition step (c : Config) (e : Event) : Config :=
  match nth_error (snd c) (e_task e) with
  | None => c
  | Some t =>
      let '(st', t') := step_task (fst c) t (e_now e) (e_now_save e) in
      (st', set_nth (e_task e) t' (snd c))
  end.

Definition run (c : Config) (schedule : list Event) : Config :=
  fold_left step schedule c.

Definition start (st : Store) (reqs : list UsageRequest) : Config :=
  (st, map Pending reqs).

(** The answers given so far. *)
Definition replies (c : Config) : list Response :=
  flat_map (fun t => match t with Started (Replied r) => [r] | _ => [] end)
    (snd c).

(** Calls served one after the other, each at its own clock readings. *)
Fixpoint run_in_turn (st : Store) (calls : list (Date * Date * UsageRequest))
  : Store * list Response :=
  match calls with
  | [] => (st, [])
  | (now, now_save, req) :: rest =>
      let '(st', r) := updateDiscountUsage st now now_save req in
      let '(st'', rs) := run_in_turn st' rest in
      (st'', r :: rs)
  end.

End Interleaving.

(* ================================================================== *)
(** ** The specification's side: its functions and vocabulary *)
(* ================================================================== *)

Module Spec.

Import JS Model Store Controller.
Local Open Scope string_scope.
Local Open Scope Z_scope.

(** The evaluator as the specification words it: a function of
    [(now, startDate, endDate, usageLimit, usedCount, currentStatus)]. *)
Definition evaluate_spec (now startDate endDate : Date)
  (usageLimit : option num) (usedCount : num) (currentStatus : Status)
  : Status * option num :=
  (match currentStatus with
   | paused => paused
   | _ =>
       if now <? startDate then upcoming
       else if now >? endDate then expired
       else active
   end,
   match usageLimit with
   | None => None
   | Some limit => Some (max zero (sub limit usedCount))
   end).

(** Number paths hold no [NaN]: the store refuses to cast one. *)
Definition counts_cast (d : Discount) : Prop :=
  isNaN (of_nullable (usageLimit d)) = false
  /\ isNaN (of_nullable (usedCount d)) = false.

(** A sequence of edits, each followed by a save. *)
Fixpoint saves (steps : list ((Discount -> Discount) * Date)) (d : Discount)
  : Discount :=
  match steps with
  | [] => d
  | (edit, now) :: rest => saves rest (preSave now (edit d))
  end.

(** An edit of fields other than the status. *)
Definition keeps_status (edit : Discount -> Discount) : Prop :=
  forall d, status (edit d) = status d.

(** The typed rejections of the eligibility validator and of the usage
    ledger. *)
Inductive Rejection : Type :=
| NotFound
| NotYetActive (startDate : Date)
| Expired (endDate : Date)
| Inactive
| LimitReached
| BelowMinimum (minOrder : num).

(** Step 5 of validation: a usage limit is set and used up. *)
Definition limit_reached (d : Discount) : bool :=
  match usageLimit d with
  | Some limit => ge (of_nullable (usedCount d)) limit
  | None => false
  end.

(** Steps 1 to 6 of the eligibility validator as the specification lists
    them, in order, the first failure deciding; [orderAmount] is the order
    amount as a number. *)
Definition eligibility_spec (st : Store) (now : Date) (code : string)
  (ownerId : ObjectId) (orderAmount : num) : Rejection + Discount :=
  match findOne st (Text.toUpperCase code) ownerId with
  | None => inl NotFound
  | Some d =>
      if now <? startDate d then inl (NotYetActive (startDate d))
      else if now >? endDate d then inl (Expired (endDate d))
      else if negb (status_eqb (status d) active) then inl Inactive
      else if limit_reached d then inl LimitReached
      else if gt (minOrder d) zero && lt orderAmount (minOrder d)
           then inl (BelowMinimum (minOrder d))
      else inr d
  end.

(** Steps 2 to 5 alone, on a loaded document. *)
Definition recheck_spec (now : Date) (d : Discount) : option Rejection :=
  if now <? startDate d then Some (NotYetActive (startDate d))
  else if now >? endDate d then Some (Expired (endDate d))
  else if negb (status_eqb (status d) active) then Some Inactive
  else if limit_reached d then Some LimitReached
  else None.

(** Steps 7 and 8: the discount amount and the final amount. *)
Definition discount_amount_spec (d : Discount) (orderAmount : num) : num :=
  match type d with
  | percentage =>
      let amount := div (mul orderAmount (value d)) hundred in
      if gt (maxDiscount d) zero then min amount (maxDiscount d) else amount
  | fixed => value d
  end.

Definition final_amount_spec (orderAmount discountAmount : num) : num :=
  max zero (sub orderAmount discountAmount).

(** The typed rejection a response carries: its kind is read from the
    status code and the message, its boundary value from the data. *)
Definition rejection_of (r : Response) : option Rejection :=
  if success r then None
  else
    match message r, data r with
    | Msg m, NoData =>
        if Nat.eqb (http r) 404 && String.eqb m "Discount code not found"
        then Some NotFound
        else if Nat.eqb (http r) 400 && String.eqb m "Discount is not active"
        then Some Inactive
        else if Nat.eqb (http r) 400
                && String.eqb m "Discount usage limit reached"
        then Some LimitReached
        else None
    | Msg m, StartDateData t =>
        if Nat.eqb (http r) 400 && String.eqb m "Discount is not active yet"
        then Some (NotYetActive t) else None
    | Msg m, EndDateData t =>
        if Nat.eqb (http r) 400 && String.eqb m "Discount has expired"
        then Some (Expired t) else None
    | MsgMinimumOrder _, MinOrderData m =>
        if Nat.eqb (http r) 400 then Some (BelowMinimum m) else None
    | _, _ => None
    end.

(** Every stored document satisfies the validators of the schema. *)
Definition store_valid (st : Store) : Prop :=
  Forall (fun d => schema_ok d = true) st.

(** The usage counters of a document. *)
Definition counters (d : Discount) : option num * option num * option num :=
  (usedCount d, ordersUsed d, revenueGenerated d).


(** Two nullable numbers with the same value. *)
Definition same_number (a b : option num) : Prop := opt_num_eqb a b = true.

(** What a successful usage recording leaves of document [d]: both counts
    one higher, the revenue higher by the order amount. *)
Definition recorded (d d' : Discount) (orderAmount : num) : Prop :=
  usedCount d' = Some (add (of_nullable (usedCount d)) one)
  /\ ordersUsed d' = Some (add (of_nullable (ordersUsed d)) one)
  /\ same_number (revenueGenerated d')
       (Some (add (of_nullable (revenueGenerated d)) orderAmount)).

(** The document the handler saves after a successful recheck. *)
Definition incremented (d : Discount) (x : num) : Discount :=
  set_counters d
    (Some (add (of_nullable (usedCount d)) one))
    (Some (add (of_nullable (revenueGenerated d)) x))
    (Some (add (of_nullable (ordersUsed d)) one)).

(** The revenue of [d] raised by [x] passes the validation of a save. *)
Definition revenue_ok (d : Discount) (x : num) : bool :=
  let r := Some (add (of_nullable (revenueGenerated d)) x) in
  opt_num_eqb (revenueGenerated d) r || min_ok zero r.

(** The stored usage count does not exceed the usage limit. *)
Definition within_limit (d : Discount) : Prop :=
  match usageLimit d with
  | Some limit => le (of_nullable (usedCount d)) limit = true
  | None => True
  end.

(** A limited discount whose limit and count are whole numbers, the count
    within the limit. *)
Definition whole_counts (d : Discount) : Prop :=
  match usageLimit d with
  | Some limit =>
      exists L u : Z,
        limit = of_Z L /\ of_nullable (usedCount d) = of_Z u
        /\ 1 <= L /\ 0 <= u <= L
  | None => True
  end.

(** A usage request with both body fields given and an amount that is a
    number and not negative. *)
Definition well_formed_use (req : UsageRequest) : Prop :=
  truthy_val (u_orderId req) = true
  /\ truthy_val (u_orderAmount req) = true
  /\ isNaN (parseFloat_val (u_orderAmount req)) = false
  /\ ge (parseFloat_val (u_orderAmount req)) zero = true.



(** A document is as the evaluator would leave it at time [now]. *)
Definition evaluated (now : Date) (d : Discount) : Prop :=
  preSave now d = d.

(** A task that has loaded a document holds whole counts, and the stored
    document of that identifier still has the limit the task has read. *)
Definition task_ok (st : Store) (t : Interleaving.Task) : Prop :=
  match t with
  | Interleaving.Started (Loaded _ loaded) =>
      whole_counts loaded
      /\ forall d, findById st (_id loaded) = Some d ->
                   usageLimit d = usageLimit loaded
  | _ => True
  end.

(** The invariant of interleaved usage requests. *)
Definition invariant (c : Interleaving.Config) : Prop :=
  Forall whole_counts (fst c) /\ Forall (task_ok (fst c)) (snd c).

(** A call in turn on discount [id], inside the window of [d]. *)
Definition call_ok (id : ObjectId) (d : Discount)
  (call : Date * Date * UsageRequest) : Prop :=
  let '(now, now_save, req) := call in
  u_id req = id /\ well_formed_use req
  /\ startDate d <= now <= endDate d
  /\ startDate d <= now_save <= endDate d.

(** The answer of the ledger on a used-up discount. *)
Definition limit_reached_reply : Response :=
  reject 400 "Discount usage limit reached" NoData.

End Spec.

(* ================================================================== *)
(** ** Sample data *)
(* ================================================================== *)

Module Samples.

Import JS Model Store Controller Interleaving.
Local Open Scope string_scope.
Local Open Scope Z_scope.

Definition alice : ObjectId := "64b000000000000000000001".
Definition bob : ObjectId := "64b000000000000000000002".
Definition id1 : ObjectId := "65a000000000000000000001".
Definition id2 : ObjectId := "65a000000000000000000002".

(** Times, in milliseconds: 2030-01-01, 2030-06-01 and 2030-12-31 (UTC). *)
Definition jan1 : Date := 1893456000000.
Definition jun1 : Date := 1906502400000.
Definition dec31 : Date := 1924905600000.

(** The date texts used below, with their time values. *)
Definition sample_dates (s : string) : option Date :=
  if String.eqb s "2030-01-01" then Some jan1
  else if String.eqb s "2030-06-01" then Some jun1
  else if String.eqb s "2030-12-31" then Some dec31
  else None.

(** Alice's SAVE10: ten percent, capped at 5, minimum order 50, for the
    year 2030, with [limit] uses of which [used] are taken. *)
Definition save10 (limit : option Z) (used : Z) (s : Status) : Discount :=
  mkDiscount id1 "Ten percent off" "SAVE10" "" percentage
    (of_Z 10) (of_Z 50) (of_Z 5) jan1 dec31
    (option_map of_Z limit) (Some (of_Z used))
    (option_map (fun l => of_Z (l - used)) limit)
    cust_all all_products false true false s
    (Some zero) (Some (of_Z used)) alice.

(** A fixed discount of 20 with no cap, no minimum and no limit. *)
Definition flat20 : Discount :=
  mkDiscount id2 "Twenty off" "FLAT20" "" fixed
    (of_Z 20) zero zero jan1 dec31 None (Some zero) None
    cust_all all_products false true false active
    (Some zero) (Some zero) alice.

Definition use_of (id : ObjectId) (amount : Z) : UsageRequest :=
  mkUsageRequest id (JString "order-1") (JNumber (of_Z amount)).

(** Alice asks to validate her code. *)
Definition ask (amount : option string) : ValidateRequest :=
  mkValidateRequest alice "save10" amount.



(** A create body for the code SAVE10. *)
Definition new_save10 : Body :=
  mkBody (Some "Ten again") (Some "save10") None (Some "percentage")
    (Some "10") None None (Some "2030-01-01") (Some "2030-12-31") None None
    None None None None None None None None None None.

(** Two requests, each loading before the other commits. *)
Definition overlap : list Event :=
  [mkEvent 0 jun1 jun1; mkEvent 1 jun1 jun1;
   mkEvent 0 jun1 jun1; mkEvent 1 jun1 jun1].

End Samples.

(* ================================================================== *)
(** ** More of the model: a virtual and a static *)
(* ================================================================== *)

Module Statics.

Import JS Model Store.
Local Open Scope Z_scope.

(** [Math.round(x)]: the nearest whole number, halves going up. *)
Definition Math_round (x : num) : num :=
  match x with
  | Fin q => of_Z (Qfloor (q + (1 # 2)))
  | _ => x
  end.

(** The virtual [usagePercentage]. *)
Definition usagePercentage (d : Discount) : num :=
  if negb (truthy_nullable (usageLimit d)) then zero
  else
    Math_round
      (mul (div (of_nullable (usedCount d)) (of_nullable (usageLimit d)))
         hundred).

(** The static [Discount.isValidCode(code, shopOwnerId)]. *)
Definition isValidCode (st : Store) (now : Date) (code : string)
  (shopOwnerId : ObjectId) : option Discount :=
  match findOne st (Text.toUpperCase code) shopOwnerId with
  | None => None
  | Some discount =>
      let start := startDate discount in
      let end_ := endDate discount in
      if (now <? start) || (now >? end_)
         || negb (status_eqb (status discount) active)
      then None
      else if truthy_nullable (usageLimit discount)
              && ge (of_nullable (usedCount discount))
                    (of_nullable (usageLimit discount))
      then None
      else Some discount
  end.

End Statics.

(* ================================================================== *)
(** ** More of the controller: delete and statistics *)
(* ================================================================== *)

Module Maintenance.

Import JS Model Store Controller Statics.
Local Open Scope string_scope.
Local Open Scope Z_scope.

(** [req.user] as the authentication middleware builds it: the four
    members [id], [name], [email] and [role]. *)
Record User : Type := mkUser {
  id : ObjectId;
  name : string;
  email : string;
  role : string
}.

(** [doc.deleteOne()]: the document of that [_id] leaves the collection. *)
Fixpoint remove_id (id : ObjectId) (st : Store) : Store :=
  match st with
  | [] => []
  | d :: rest => if id_eqb (_id d) id then rest else d :: remove_id id rest
  end.

(** *** deleteDiscount  (DELETE /discounts/:id) *)

Record DeleteRequest : Type := mkDeleteRequest {
  x_user : ObjectId;   (* req.user.id *)
  x_id : ObjectId      (* req.params.id *)
}.

Definition deleteDiscount (st : Store) (req : DeleteRequest)
  : Store * Response :=
  match findById st (x_id req) with
  | None => (st, reject 404 "Discount not found" NoData)
  | Some discount =>
      if negb (compareIds (createdBy discount) (x_user req)) then
        (st, reject 403 "You do not own this discount" NoData)
      else
        (remove_id (_id discount) st,
         accept 200 (Msg "Discount deleted successfully") NoData)
  end.

(** *** getDiscountStats  (GET /discounts/stats/summary) *)

(** The one group of the aggregation, with the derived rate. *)
Record Stats : Type := mkStats {
  totalDiscounts : nat;
  activeDiscounts : nat;
  upcomingDiscounts : nat;
  expiredDiscounts : nat;
  totalUsage : num;
  totalRevenue : num;
  totalOrders : num;
  avgUsageRate : num
}.

(** [{ $match: { createdBy: key } }]; an undefined key is sent as [null]
    and matches the documents without an owner, of which there are none
    ([createdBy] is required). *)
Definition matches (key : option ObjectId) (d : Discount) : bool :=
  match key with
  | Some k => id_eqb (createdBy d) k
  | None => false
  end.

Definition count_if (f : Discount -> bool) (l : list Discount) : nat :=
  List.length (filter f l).

(** [{ $sum: "$path" }] over a group: [null] adds nothing. *)
Definition sum_of (f : Discount -> option num) (l : list Discount) : num :=
  fold_left (fun acc d => add acc (of_nullable (f d))) l zero.

(** The rate the handler derives from the two counts. *)
Definition rate (active total : nat) : num :=
  if Nat.ltb 0 total then
    Math_round
      (mul (div (of_Z (Z.of_nat active)) (of_Z (Z.of_nat total))) hundred)
  else zero.

(** The pipeline [$match], [$group] and the rate, for a given match key and
    the two readings of the clock in the [$cond]. *)
Definition aggregate_stats (st : Store) (key : option ObjectId)
  (now now' : Date) : Stats :=
  let matched := filter (matches key) st in
  let total := List.length matched in
  let active_now (d : Discount) :=
    (startDate d <=? now) && (endDate d >=? now')
    && status_eqb (status d) active in
  let active := count_if active_now matched in
  mkStats total active
    (count_if (fun d => status_eqb (status d) upcoming) matched)
    (count_if (fun d => status_eqb (status d) expired) matched)
    (sum_of usedCount matched)
    (sum_of revenueGenerated matched)
    (sum_of ordersUsed matched)
    (rate active total).

(** The handler matches on [req.user._id], a member [req.user] does not
    have. *)
Definition getDiscountStats (st : Store) (user : User) (now now' : Date)
  : Stats :=
  let user__id : option ObjectId := None in
  aggregate_stats st user__id now now'.

End Maintenance.

(* ================================================================== *)
(** ** The routes of the discount API *)
(* ================================================================== *)

Module Routes.

Import Model Maintenance.
Local Open Scope string_scope.

Inductive Method : Type := GET | POST | PUT | DELETE | PATCH.

Definition method_eqb (a b : Method) : bool :=
  match a, b with
  | GET, GET | POST, POST | PUT, PUT | DELETE, DELETE | PATCH, PATCH => true
  | _, _ => false
  end.

(** The handler a request reaches, with its route parameter. *)
Inductive Endpoint : Type :=
| to_validateDiscountCode (code : string)
| to_createDiscount
| to_getDiscounts
| to_getDiscountStats
| to_getDiscountById (id : string)
| to_updateDiscount (id : string)
| to_deleteDiscount (id : string)
| to_updateDiscountUsage (id : string)
| to_bulkUpdateStatus.

(** A segment of a route path: a literal or a parameter. *)
Inductive Segment : Type :=
| Lit (s : string)
| Param.

Inductive Middleware : Type :=
| protect
| authorizeRoles (roles : list string).

(** A layer of the router, in the order of declaration. *)
Inductive Layer : Type :=
| Use (m : Middleware)
| Route (m : Method) (pattern : list Segment)
    (target : list string -> Endpoint).

(** A request: its method, the segments of its path below the mount point,
    and what [protect] finds for its token: the user, or the code of the
    401 answer. *)
Record Request : Type := mkRequest {
  method : Method;
  path : list string;
  token : User + string
}.

Inductive Outcome : Type :=
| Reached (e : Endpoint) (user : option User)
| Denied (status : nat) (code : string)
| Unmatched.

(** A path against a pattern: literals compare without case, a parameter
    takes any non-empty segment.  The result is the list of parameters. *)
Fixpoint match_path (pattern : list Segment) (p : list string)
  : option (list string) :=
  match pattern, p with
  | [], [] => Some []
  | Lit s :: pattern', x :: p' =>
      if String.eqb (Text.toLowerCase s) (Text.toLowerCase x)
      then match_path pattern' p' else None
  | Param :: pattern', x :: p' =>
      if Text.truthy x then
        match match_path pattern' p' with
        | Some params => Some (x :: params)
        | None => None
        end
      else None
  | _, _ => None
  end.

Fixpoint dispatch (stack : list Layer) (req : Request) (user : option User)
  : Outcome :=
  match stack with
  | [] => Unmatched
  | Use protect :: rest =>
      match token req with
      | inl u => dispatch rest req (Some u)
      | inr code => Denied 401 code
      end
  | Use (authorizeRoles roles) :: rest =>
      match user with
      | None => Denied 401 "NO_USER"
      | Some u =>
          if existsb (String.eqb (role u)) roles
          then dispatch rest req user
          else Denied 403 "ROLE_DENIED"
      end
  | Route m pattern target :: rest =>
      match method_eqb m (method req), match_path pattern (path req) with
      | true, Some params => Reached (target params) user
      | _, _ => dispatch rest req user
      end
  end.

Definition first_param (k : string -> Endpoint) (params : list string)
  : Endpoint :=
  k (hd EmptyString params).

(** The router of [discountRoutes.js]. *)
Definition discountRoutes : list Layer :=
  [ Use protect;
    Route GET [Lit "validate"; Param] (first_param to_validateDiscountCode);
    Use (authorizeRoles ["shopOwner"]);
    Route POST [] (fun _ => to_createDiscount);
    Route GET [] (fun _ => to_getDiscounts);
    Route GET [Lit "stats"; Lit "summary"] (fun _ => to_getDiscountStats);
    Route GET [Param] (first_param to_getDiscountById);
    Route PUT [Param] (first_param to_updateDiscount);
    Route DELETE [Param] (first_param to_deleteDiscount);
    Route PATCH [Param; Lit "use"] (first_param to_updateDiscountUsage);
    Route PATCH [Lit "bulk"; Lit "status"] (fun _ => to_bulkUpdateStatus) ].

Definition serve (req : Request) : Outcome :=
  dispatch discountRoutes req None.

End Routes.

(* ================================================================== *)
(** ** Vocabulary of the further properties *)
(* ================================================================== *)

Module Terms.

Import JS Model Store Controller Interleaving Spec Statics Maintenance.
Local Open Scope string_scope.
Local Open Scope Z_scope.

(** No two documents share an identifier or a code. *)
Definition store_unique (st : Store) : Prop :=
  NoDup (map _id st) /\ NoDup (map code st).

(** Every window starts no later than it ends. *)
Definition dates_ordered (st : Store) : Prop :=
  Forall (fun d => startDate d <= endDate d) st.

(** The discount a successful validation returns. *)
Definition validated (r : Response) : option Discount :=
  if success r then
    match data r with
    | ValidData d _ _ => Some d
    | _ => None
    end
  else None.

(** The document a create or update answers with. *)
Definition answered (r : Response) : option Discount :=
  if success r then
    match data r with
    | DocumentData d => Some d
    | _ => None
    end
  else None.

(** The eight draws of a turn all fall inside the alphabet. *)
Definition turn_ok (turn : list nat) : Prop :=
  List.length turn = 8%nat /\ Forall (fun i => (i < 36)%nat) turn.

Definition is_code_char (c : ascii) : bool :=
  let n := nat_of_ascii c in
  ((65 <=? n) && (n <=? 90) || (48 <=? n) && (n <=? 57))%nat.

(** The successes and failures of [n] calls in turn on a discount with
    [room] uses left: the first [room] succeed. *)
Definition expected_successes (room : Z) (n : nat) : list bool :=
  map (fun i => Z.of_nat i <? room) (seq 0 n).

(** A call in turn on discount [id] whose amount is a valid number, at
    clock readings inside the window [start, end_]. *)
Definition call_in_window (id : ObjectId) (start end_ : Date)
  (call : Date * Date * UsageRequest) : Prop :=
  let '(now, now_save, req) := call in
  u_id req = id /\ well_formed_use req
  /\ start <= now <= end_ /\ start <= now_save <= end_.

(** A body cut down to the fields [createDiscount] reads. *)
Definition create_fields (body : Body) : Body :=
  mkBody (b_name body) (b_code body) (b_description body) (b_type body)
    (b_value body) (b_minOrder body) (b_maxDiscount body)
    (b_startDate body) (b_endDate body) (b_usageLimit body)
    (b_customerType body) (b_appliesTo body) (b_oneTimeUse body)
    (b_combineWithOther body) (b_excludeSaleItems body)
    None None None None None None.

(** What a bulk status update does to a document. *)
Definition bulk_applied (ids : list ObjectId) (s : Status) (d : Discount)
  : Discount :=
  if existsb (id_eqb (_id d)) ids then set_status d s else d.

(** [Number.MAX_SAFE_INTEGER], 2^53 - 1: up to it every whole number and
    its successor are numbers of the program, so that counting by one is
    exact. *)
Definition MAX_SAFE_INTEGER : Z := 9007199254740991.


(** The three properties every handler keeps: the documents pass the
    validators of the schema, every window is ordered, and no identifier
    and no code is stored twice. *)
Definition store_sound (st : Store) : Prop :=
  store_valid st /\ dates_ordered st /\ store_unique st.

(** A request to one of the handlers that touch the collection.  The body
    of a create or an update is a [Body]: a flat form whose values are
    texts.  A body with a number, a list or an object for a value, or with
    an update operator or a nested path for a key, is not among these
    calls. *)
Inductive Call : Type :=
| call_createDiscount (now now_save : Date) (fresh : ObjectId)
    (draws : list (list nat)) (user : ObjectId) (body : Body)
| call_updateDiscount (now : Date) (req : UpdateRequest)
| call_deleteDiscount (req : DeleteRequest)
| call_updateDiscountUsage (now now_save : Date) (req : UsageRequest)
| call_bulkUpdateStatus (req : BulkRequest)
| call_validateDiscountCode (now : Date) (req : ValidateRequest).

(** The store a call leaves; a create whose code generator has not
    returned leaves it as it was. *)
Definition serve_call (parseDate : string -> option Date) (st : Store)
  (c : Call) : Store :=
  match c with
  | call_createDiscount now now_save fresh draws user body =>
      match createDiscount parseDate st now now_save fresh draws user body with
      | Some (st', _) => st'
      | None => st
      end
  | call_updateDiscount now req => fst (updateDiscount parseDate st now req)
  | call_deleteDiscount req => fst (deleteDiscount st req)
  | call_updateDiscountUsage now now_save req =>
      fst (updateDiscountUsage st now now_save req)
  | call_bulkUpdateStatus req => fst (bulkUpdateStatus st req)
  | call_validateDiscountCode now req => fst (validateDiscountCode st now req)
  end.

(** Calls served one after the other. *)
Definition run_calls (parseDate : string -> option Date) (st : Store)
  (calls : list Call) : Store :=
  fold_left (serve_call parseDate) calls st.

End Terms.

(* ================================================================== *)
(** ** More sample data *)
(* ================================================================== *)

Module Fixtures.

Import JS Model Store Controller Interleaving Spec Samples Statics
  Maintenance Routes Terms.
Local Open Scope string_scope.
Local Open Scope Z_scope.

(** A signed-in customer and a signed-in shop owner. *)
Definition shopper : User :=
  mkUser bob "Bob" "bob@example.com" "customer".

Definition keeper : User :=
  mkUser alice "Alice" "alice@example.com" "shopOwner".

(** Alice creates SAVE10 on 2030-06-01 in an empty collection. *)
Definition created : option (Store * Response) :=
  createDiscount sample_dates [] jun1 jun1 id1 [] alice new_save10.

Definition created_store : Store :=
  match created with Some (st, _) => st | None => [] end.

Definition created_reply : Response :=
  match created with
  | Some (_, r) => r
  | None => reject 500 "" NoData
  end.

Definition created_doc : Discount :=
  match answered created_reply with Some d => d | None => flat20 end.


(** Three uses of discount [id1], one after the other, on 2030-06-01. *)
Definition three_calls : list (Date * Date * UsageRequest) :=
  [(jun1, jun1, use_of id1 100); (jun1, jun1, use_of id1 100);
   (jun1, jun1, use_of id1 100)].

(** Alice's discount whose code is the first draw below. *)
Definition first_draw_taken : Discount :=
  mkDiscount id2 "Taken" "AAAAAAAA" "" fixed
    (of_Z 20) zero zero jan1 dec31 None (Some zero) None
    cust_all all_products false true false active
    (Some zero) (Some zero) alice.

Definition two_turns : list (list nat) :=
  [[0; 0; 0; 0; 0; 0; 0; 0]; [1; 1; 1; 1; 1; 1; 1; 1]]%nat.

End Fixtures.

(* ================================================================== *)
(** ** Facts about numbers *)
(* ================================================================== *)

Module NumFacts.

Import JS Model.

Lemma status_eqb_eq (a b : Status) : status_eqb a b = true <-> a = b.
Proof. destruct a, b; simpl; split; congruence. Qed.

Lemma status_eqb_refl (a : Status) : status_eqb a a = true.
Proof. now destruct a. Qed.


Lemma cmp_refl_fin (q : Q) : cmp (Fin q) (Fin q) = Some Eq.
Proof. simpl. f_equal. apply Qeq_alt. reflexivity. Qed.

Lemma Qcompare_swap (x y : Q) : (y ?= x)%Q = CompOpp (x ?= y)%Q.
Proof. symmetry. apply Qcompare_antisym. Qed.

(** Swapping the operands of a comparison mirrors its result. *)
Lemma cmp_swap (a b : num) : cmp b a = option_map CompOpp (cmp a b).
Proof.
  destruct a, b; simpl; try reflexivity.
  f_equal. apply Qcompare_swap.
Qed.

(** [Math.max(0, x)] is never below zero. *)
Lemma max_zero_not_lt (x : num) : lt (max zero x) zero = false.
Proof.
  unfold lt, max.
  destruct (cmp zero x) as [[| |]|] eqn:E; try reflexivity.
  rewrite cmp_swap, E. reflexivity.
Qed.

(** Subtracting [x || 0] is subtracting [x], for a number [x]. *)
Lemma sub_or_zero (a x : num) :
  isNaN x = false -> sub a (or_zero x) = sub a x.
Proof.
  unfold or_zero. destruct x as [| | |q]; simpl; try discriminate; try reflexivity.
  intros _. destruct (Qeq_bool q 0) eqn:E; simpl; [|reflexivity].
  apply Qeq_bool_eq in E.
  destruct a; simpl; try reflexivity.
  unfold fin. f_equal. apply Qred_complete. rewrite E. reflexivity.
Qed.

Lemma or_zero_not_NaN (x : num) : isNaN (or_zero x) = false.
Proof.
  unfold or_zero. destruct x as [| | |q]; simpl; try reflexivity.
  destruct (Qeq_bool q 0); reflexivity.
Qed.

(** A number that is at least one is truthy. *)
Lemma ge_one_truthy (x : num) : ge x one = true -> truthy x = true.
Proof.
  unfold ge, le. destruct x as [| | |q]; simpl; try discriminate; try reflexivity.
  destruct (1 ?= q)%Q eqn:E; try discriminate; intros _.
  - apply Qeq_alt in E. apply Bool.negb_true_iff.
    apply Bool.not_true_is_false. intros H. apply Qeq_bool_eq in H.
    rewrite H in E. discriminate.
  - apply Qlt_alt in E. apply Bool.negb_true_iff.
    apply Bool.not_true_is_false. intros H. apply Qeq_bool_eq in H.
    rewrite H in E. discriminate.
Qed.

(** The guarded replacement of the handler is a clamp from above. *)
Lemma clamp_is_min (a cap : num) :
  isNaN cap = false ->
  (if gt a cap then cap else a) = min a cap.
Proof.
  unfold gt, lt, min. intros Hc.
  rewrite (cmp_swap a cap).
  destruct (cmp a cap) as [[| |]|] eqn:E; simpl; try reflexivity.
  destruct a, cap; simpl in *; try discriminate; reflexivity.
Qed.

Lemma gt_not_NaN (a b : num) : gt a b = true -> isNaN a = false.
Proof. unfold gt, lt. destruct a, b; simpl; congruence. Qed.

(** An integer stays an integer when one is added. *)
Lemma add_of_Z (a b : Z) : add (of_Z a) (of_Z b) = of_Z (a + b).
Proof.
  unfold add, of_Z, fin. f_equal.
  transitivity (Qred (inject_Z (a + b))).
  - apply Qred_complete. rewrite inject_Z_plus. reflexivity.
  - unfold inject_Z, Qred. simpl.
    pose proof (Z.ggcd_gcd (a + b) 1) as G.
    pose proof (Z.ggcd_correct_divisors (a + b) 1) as D.
    destruct (Z.ggcd (a + b) 1) as [g [x y]]. simpl in *.
    rewrite Z.gcd_1_r in G. subst g. destruct D as [D1 D2].
    rewrite Z.mul_1_l in D1, D2. subst. reflexivity.
Qed.

Lemma cmp_of_Z (a b : Z) : cmp (of_Z a) (of_Z b) = Some (a ?= b)%Z.
Proof.
  unfold cmp, of_Z, inject_Z, Qcompare. simpl. now rewrite !Z.mul_1_r.
Qed.

End NumFacts.

(* ================================================================== *)
(** ** The temporal state evaluator *)
(* ================================================================== *)

Module Evaluator.

Import JS Model Spec NumFacts.
Local Open Scope Z_scope.

Lemma preSave_paused (now : Date) (d : Discount) :
  status d = paused -> status (preSave now d) = paused.
Proof. intros H. unfold preSave, preSave_status. simpl. now rewrite H. Qed.

Lemma saves_paused steps :
  Forall (fun step => keeps_status (fst step)) steps ->
  forall d, status d = paused -> status (saves steps d) = paused.
Proof.
  induction 1 as [|[edit now] rest Hk _ IH]; intros d Hd; simpl.
  - exact Hd.
  - apply IH. apply preSave_paused. simpl in Hk. now rewrite (Hk d).
Qed.

Lemma preSave_frame (now : Date) (d : Discount) :
  preSave now d = set_derived d (remainingUses (preSave now d))
                    (status (preSave now d)).
Proof. reflexivity. Qed.

(** The hook is idempotent at a given time. *)
Lemma preSave_idempotent (now : Date) (d : Discount) :
  preSave now (preSave now d) = preSave now d.
Proof.
  unfold preSave, preSave_remaining, preSave_status. simpl.
  destruct (status d) eqn:S; simpl; try reflexivity;
    destruct (now <? startDate d); simpl; try reflexivity;
    destruct (now >? endDate d); reflexivity.
Qed.

(** C1.  On every save the pre-save hook leaves a paused status paused (also
    across any sequence of saves whose edits do not touch the status);
    otherwise the status becomes [upcoming] before the start date,
    [expired] after the end date and [active] in between; and
    [remainingUses] becomes [max(0, usageLimit - usedCount)] when a usage
    limit is set and [null] when it is not.  The other fields are left as
    they are. *)
Theorem preSave_establishes (now : Date) (d : Discount) :
  counts_cast d ->
  (status d = paused -> status (preSave now d) = paused)
  /\ (forall steps,
        Forall (fun step => keeps_status (fst step)) steps ->
        status d = paused -> status (saves steps d) = paused)
  /\ (status d <> paused ->
      status (preSave now d) =
        if now <? startDate d then upcoming
        else if now >? endDate d then expired
        else active)
  /\ remainingUses (preSave now d) =
       match usageLimit d with
       | Some limit => Some (max zero (sub limit (of_nullable (usedCount d))))
       | None => None
       end
  /\ (status (preSave now d), remainingUses (preSave now d)) =
       evaluate_spec now (startDate d) (endDate d) (usageLimit d)
         (of_nullable (usedCount d)) (status d)
  /\ preSave now d = set_derived d (remainingUses (preSave now d))
                       (status (preSave now d)).
Proof.
  intros [Hl Hu].
  assert (R : remainingUses (preSave now d) =
              match usageLimit d with
              | Some limit =>
                  Some (max zero (sub limit (of_nullable (usedCount d))))
              | None => None
              end).
  { unfold preSave, preSave_remaining. simpl.
    destruct (usageLimit d) as [limit|]; [|reflexivity].
    simpl in Hl. rewrite Hl, or_zero_not_NaN. simpl.
    now rewrite sub_or_zero. }
  assert (S : status d <> paused ->
              status (preSave now d) =
                if now <? startDate d then upcoming
                else if now >? endDate d then expired
                else active).
  { intros Hp. unfold preSave, preSave_status. simpl.
    destruct (status d); simpl; try reflexivity. now elim Hp. }
  repeat split.
  - apply preSave_paused.
  - intros steps Hs Hp. now apply saves_paused.
  - exact S.
  - exact R.
  - unfold evaluate_spec. rewrite R. f_equal.
    destruct (status d) eqn:E.
    1-3: rewrite S by congruence; reflexivity.
    rewrite preSave_paused by assumption. reflexivity.
Qed.

End Evaluator.

Module EvaluatorExamples.

Import JS Model Spec Evaluator Samples.
Local Open Scope Z_scope.

Lemma preSave_establishes_witness :
  counts_cast (save10 (Some 10) 3 paused)
  /\ status (preSave jun1 (save10 (Some 10) 3 paused)) = paused
  /\ remainingUses (preSave jun1 (save10 (Some 10) 3 paused)) = Some (of_Z 7).
Proof.
  assert (H : counts_cast (save10 (Some 10) 3 paused))
    by (split; reflexivity).
  split; [exact H|].
  destruct (preSave_establishes jun1 _ H) as (P & _ & _ & R & _).
  split; [apply P; reflexivity | rewrite R; reflexivity].
Defined.

Example preSave_upcoming :
  status (preSave (jan1 - 1) (save10 None 0 active)) = upcoming.
Proof. reflexivity. Qed.

Example preSave_expired :
  status (preSave (dec31 + 1) (save10 None 0 active)) = expired.
Proof. reflexivity. Qed.

Example preSave_exhausted_stays_active :
  let d := preSave jun1 (save10 (Some 1) 1 active) in
  status d = active /\ remainingUses d = Some zero.
Proof. split; reflexivity. Qed.

End EvaluatorExamples.

(* ================================================================== *)
(** ** The eligibility validator *)
(* ================================================================== *)

Module Validator.

Import JS Model Store Controller Spec NumFacts.
Local Open Scope string_scope.
Local Open Scope Z_scope.

Lemma findOne_In st c owner d : findOne st c owner = Some d -> In d st.
Proof. unfold findOne. intros H. now apply find_some in H. Qed.

Lemma findById_In st id d : findById st id = Some d -> In d st.
Proof. unfold findById. intros H. now apply find_some in H. Qed.

Lemma store_valid_In st d : store_valid st -> In d st -> schema_ok d = true.
Proof. unfold store_valid. rewrite Forall_forall. auto. Qed.

Lemma schema_ok_usageLimit d :
  schema_ok d = true -> min_ok one (usageLimit d) = true.
Proof.
  unfold schema_ok. intros H.
  repeat (apply andb_true_iff in H; destruct H as [H ?]); assumption.
Qed.

(** On a valid document the truthiness test of the handler is the test
    "a usage limit is set". *)
Lemma limit_test_agrees d :
  schema_ok d = true ->
  truthy_nullable (usageLimit d)
  && ge (of_nullable (usedCount d)) (of_nullable (usageLimit d))
  = limit_reached d.
Proof.
  intros H. apply schema_ok_usageLimit in H. unfold limit_reached.
  destruct (usageLimit d) as [l|]; simpl in *; [|reflexivity].
  apply andb_true_iff in H. destruct H as [_ H].
  now rewrite (ge_one_truthy _ H).
Qed.

(** An absent or empty order amount parses to [NaN]. *)
Lemma falsy_amount_NaN (x : option string) :
  Text.truthy_opt x = false -> Text.parseFloat_opt x = NaN.
Proof. destruct x as [[|c s]|]; simpl; try discriminate; reflexivity. Qed.

Lemma lt_NaN_l (x : num) : lt NaN x = false.
Proof. reflexivity. Qed.

Lemma gt_NaN_l (x : num) : gt NaN x = false.
Proof. now destruct x. Qed.

(** The minimum-order test of the handler is the test of step 6 on the
    parsed amount. *)
Lemma minimum_test_agrees (x : option string) (m : num) :
  (Text.truthy_opt x && gt m zero) && lt (Text.parseFloat_opt x) m
  = gt m zero && lt (Text.parseFloat_opt x) m.
Proof.
  destruct (Text.truthy_opt x) eqn:E; simpl; [reflexivity|].
  rewrite (falsy_amount_NaN _ E), lt_NaN_l. now rewrite andb_false_r.
Qed.

Lemma computeDiscountAmount_spec d x :
  computeDiscountAmount d x = discount_amount_spec d (Text.parseFloat_opt x).
Proof.
  unfold computeDiscountAmount, discount_amount_spec.
  destruct (type d); [|reflexivity].
  destruct (gt (maxDiscount d) zero) eqn:G; simpl; [|reflexivity].
  apply clamp_is_min. exact (gt_not_NaN _ _ G).
Qed.

(** The handler, refactored as: steps 1 to 6, then the amounts. *)
Lemma validateDiscountCode_unfold st now req :
  Text.truthy (v_code req) = true ->
  store_valid st ->
  validateDiscountCode st now req =
    (st,
     match eligibility_spec st now (v_code req) (v_user req)
             (Text.parseFloat_opt (v_orderAmount req)) with
     | inl NotFound => reject 404 "Discount code not found" NoData
     | inl (NotYetActive t) =>
         reject 400 "Discount is not active yet" (StartDateData t)
     | inl (Expired t) => reject 400 "Discount has expired" (EndDateData t)
     | inl Inactive => reject 400 "Discount is not active" NoData
     | inl LimitReached => reject 400 "Discount usage limit reached" NoData
     | inl (BelowMinimum m) =>
         mkResponse 400 false (MsgMinimumOrder m) (MinOrderData m)
     | inr d =>
         let amount :=
           discount_amount_spec d (Text.parseFloat_opt (v_orderAmount req)) in
         accept 200 (Msg "Discount code is valid")
           (ValidData d amount
              (final_amount_spec (Text.parseFloat_opt (v_orderAmount req))
                 amount))
     end).
Proof.
  intros Hc Hv. unfold validateDiscountCode, eligibility_spec.
  rewrite Hc. simpl negb. cbv iota.
  destruct (findOne st (Text.toUpperCase (v_code req)) (v_user req))
    as [d|] eqn:F; [|reflexivity].
  pose proof (store_valid_In _ _ Hv (findOne_In _ _ _ _ F)) as Hd.
  destruct (now <? startDate d); [reflexivity|].
  destruct (now >? endDate d); [reflexivity|].
  destruct (negb (status_eqb (status d) active)); [reflexivity|].
  rewrite (limit_test_agrees _ Hd).
  destruct (limit_reached d); [reflexivity|].
  rewrite minimum_test_agrees.
  destruct (gt (minOrder d) zero
            && lt (Text.parseFloat_opt (v_orderAmount req)) (minOrder d));
    [reflexivity|].
  now rewrite computeDiscountAmount_spec.
Qed.

(** C3.  When validation succeeds on a supplied order amount, the discount
    amount is [orderAmount * value / 100], brought down to [maxDiscount]
    when [maxDiscount > 0], for a percentage discount, and [value] as it is
    for a fixed one; the final amount is
    [max(0, orderAmount - discountAmount)], which is never negative. *)
Theorem discount_amounts st now req text :
  v_orderAmount req = Some text ->
  success (snd (validateDiscountCode st now req)) = true ->
  exists d discountAmount finalAmount,
    findOne st (Text.toUpperCase (v_code req)) (v_user req) = Some d
    /\ data (snd (validateDiscountCode st now req))
       = ValidData d discountAmount finalAmount
    /\ let orderAmount := Text.parseFloat text in
       (type d = percentage ->
          discountAmount =
            if gt (maxDiscount d) zero
            then min (div (mul orderAmount (value d)) hundred) (maxDiscount d)
            else div (mul orderAmount (value d)) hundred)
       /\ (type d = fixed -> discountAmount = value d)
       /\ finalAmount = max zero (sub orderAmount discountAmount)
       /\ lt finalAmount zero = false.
Proof.
  intros Ht. unfold validateDiscountCode.
  destruct (negb (Text.truthy (v_code req))); [simpl; discriminate|].
  destruct (findOne st (Text.toUpperCase (v_code req)) (v_user req))
    as [d|]; [|simpl; discriminate].
  repeat match goal with
         | |- success (snd (if ?c then _ else _)) = true -> _ =>
             destruct c; [simpl; discriminate|]
         end.
  intros _. simpl snd. simpl data.
  rewrite computeDiscountAmount_spec, Ht. simpl Text.parseFloat_opt.
  exists d, (discount_amount_spec d (Text.parseFloat text)),
    (final_amount_spec (Text.parseFloat text)
       (discount_amount_spec d (Text.parseFloat text))).
  split; [reflexivity|]. split; [reflexivity|].
  unfold discount_amount_spec, final_amount_spec. cbv zeta.
  repeat split.
  - intros T. now rewrite T.
  - intros T. now rewrite T.
  - apply max_zero_not_lt.
Qed.

(** C4.  With a non-empty code and a store of valid documents,
    [validateDiscountCode] answers as the ordered steps 1 to 6 decide, the
    first failing step giving the rejection with its boundary value:
    NotFound, NotYetActive with the start date, Expired with the end date,
    Inactive, LimitReached, BelowMinimum with the minimum order; it
    succeeds exactly when no step fails. *)
Theorem validation_order st now req :
  Text.truthy (v_code req) = true ->
  store_valid st ->
  let r := snd (validateDiscountCode st now req) in
  match eligibility_spec st now (v_code req) (v_user req)
          (Text.parseFloat_opt (v_orderAmount req)) with
  | inl rejection => success r = false /\ rejection_of r = Some rejection
  | inr d =>
      success r = true
      /\ exists discountAmount finalAmount,
           data r = ValidData d discountAmount finalAmount
  end.
Proof.
  intros Hc Hv. cbv zeta.
  rewrite (validateDiscountCode_unfold st now req Hc Hv). simpl snd.
  destruct (eligibility_spec st now (v_code req) (v_user req)
              (Text.parseFloat_opt (v_orderAmount req))) as [[| | | | |]|d].
  1-6: split; reflexivity.
  split; [reflexivity|]. eexists. eexists. reflexivity.
Qed.

(** The store after a validation is the store before it. *)
Lemma validateDiscountCode_store st now req :
  fst (validateDiscountCode st now req) = st.
Proof.
  unfold validateDiscountCode.
  destruct (negb (Text.truthy (v_code req))); [reflexivity|].
  destruct (findOne st _ _) as [d|]; [|reflexivity].
  repeat match goal with
         | |- fst (if ?c then _ else _) = _ => destruct c; [reflexivity|]
         end.
  reflexivity.
Qed.

(** C10.  Without an order amount (the parameter absent or empty), a
    discount that passes the window, status and limit checks is accepted
    whatever its minimum order, and for a percentage discount both amounts
    of the answer are [NaN]. *)
Theorem missing_amount_accepted st now req d :
  Text.truthy (v_code req) = true ->
  Text.truthy_opt (v_orderAmount req) = false ->
  findOne st (Text.toUpperCase (v_code req)) (v_user req) = Some d ->
  startDate d <= now <= endDate d ->
  status d = active ->
  truthy_nullable (usageLimit d)
  && ge (of_nullable (usedCount d)) (of_nullable (usageLimit d)) = false ->
  type d = percentage ->
  validateDiscountCode st now req
  = (st, accept 200 (Msg "Discount code is valid") (ValidData d NaN NaN)).
Proof.
  intros Hc Ha F [H1 H2] Hs Hl Ht.
  unfold validateDiscountCode. rewrite Hc, F, Hs, Hl, Ha. simpl.
  replace (now <? startDate d) with false by (symmetry; apply Z.ltb_ge; lia).
  replace (now >? endDate d) with false
    by (symmetry; rewrite Z.gtb_ltb; apply Z.ltb_ge; lia).
  unfold computeDiscountAmount. rewrite Ht, (falsy_amount_NaN _ Ha).
  simpl. rewrite gt_NaN_l, andb_false_r. reflexivity.
Qed.

End Validator.

(* ================================================================== *)
(** ** The usage ledger *)
(* ================================================================== *)

Module Ledger.

Import JS Model Store Controller Spec NumFacts Validator.
Local Open Scope string_scope.
Local Open Scope Z_scope.

Lemma id_eqb_eq (a b : ObjectId) : id_eqb a b = true <-> a = b.
Proof. apply String.eqb_eq. Qed.

Lemma id_eqb_neq (a b : ObjectId) : id_eqb a b = false <-> a <> b.
Proof. apply String.eqb_neq. Qed.

Lemma findById_id st id d : findById st id = Some d -> _id d = id.
Proof.
  unfold findById. intros H. apply find_some in H.
  now apply id_eqb_eq.
Qed.

Lemma findById_modify_same st id f d :
  (forall x, _id x = id -> _id (f x) = id) ->
  findById st id = Some d ->
  findById (modify id f st) id = Some (f d).
Proof.
  intros Hf. unfold findById.
  induction st as [|a st IH]; simpl; [discriminate|].
  destruct (id_eqb (_id a) id) eqn:E; simpl.
  - pose proof E as E'. apply id_eqb_eq in E'.
    rewrite (Hf _ E'), (proj2 (id_eqb_eq id id) eq_refl). congruence.
  - rewrite E. exact IH.
Qed.

Lemma findById_modify_other st id id' f :
  (forall x, _id x = id -> _id (f x) = id) ->
  id' <> id ->
  findById (modify id f st) id' = findById st id'.
Proof.
  intros Hf Hn. unfold findById.
  induction st as [|a st IH]; simpl; [reflexivity|].
  destruct (id_eqb (_id a) id) eqn:E; simpl.
  - apply id_eqb_eq in E. rewrite (Hf _ E), E.
    replace (id_eqb id id') with false; [reflexivity|].
    symmetry. apply id_eqb_neq. congruence.
  - now rewrite IH.
Qed.

Lemma findById_modify_none st id f :
  findById st id = None -> modify id f st = st.
Proof.
  unfold findById. induction st as [|a st IH]; simpl; [reflexivity|].
  destruct (id_eqb (_id a) id); [discriminate|].
  intros H. now rewrite IH.
Qed.

(** A finite number differs from its successor; an infinite one does not. *)
Lemma Qcompare_succ (q : Q) : (q ?= Qred (q + 1))%Q = Lt.
Proof. rewrite Qred_correct. change (q < q + 1)%Q. lra. Qed.

Lemma num_eqb_add_one (x : num) :
  num_eqb x (add x one) = true -> add x one = x.
Proof.
  destruct x as [| | |q]; simpl; try reflexivity.
  unfold num_eqb, one, fin. simpl. now rewrite Qcompare_succ.
Qed.

Lemma num_eqb_refl (x : num) : isNaN x = false -> num_eqb x x = true.
Proof.
  destruct x as [| | |q]; simpl; try discriminate; try reflexivity.
  intros _. unfold num_eqb. now rewrite cmp_refl_fin.
Qed.

(** An incremented count is what the save writes. *)
Lemma written_count (loaded : option num) :
  (if opt_num_eqb loaded (Some (add (of_nullable loaded) one))
   then loaded else Some (add (of_nullable loaded) one))
  = Some (add (of_nullable loaded) one).
Proof.
  destruct loaded as [x|]; simpl; [|reflexivity].
  destruct (num_eqb x (add x one)) eqn:E; [|reflexivity].
  now rewrite (num_eqb_add_one _ E).
Qed.

Lemma ge_zero_add_one (x : num) :
  isNaN x = false -> ge x zero = true ->
  isNaN (add x one) = false /\ ge (add x one) zero = true.
Proof.
  destruct x as [| | |q]; try discriminate; intros _ H.
  - split; reflexivity.
  - split; [reflexivity|].
    unfold ge, le, add, one, zero, fin, cmp in *.
    assert (P : (0 <= q)%Q).
    { destruct (0 ?= q)%Q eqn:E; try discriminate.
      - apply Qeq_alt in E. lra.
      - change (0 < q)%Q in E. lra. }
    replace (0 ?= Qred (q + 1))%Q with Lt; [reflexivity|].
    symmetry. rewrite Qred_correct. change (0 < q + 1)%Q. lra.
Qed.

Lemma min_ok_add_one (u : option num) :
  min_ok zero u = true ->
  min_ok zero (Some (add (of_nullable u) one)) = true.
Proof.
  destruct u as [x|]; simpl; [|reflexivity].
  intros H. apply andb_true_iff in H. destruct H as [H1 H2].
  apply negb_true_iff in H1.
  destruct (ge_zero_add_one _ H1 H2) as [A B]. now rewrite A, B.
Qed.

Lemma schema_ok_counts d :
  schema_ok d = true ->
  min_ok zero (usedCount d) = true /\ min_ok zero (ordersUsed d) = true.
Proof.
  unfold schema_ok. intros H.
  repeat (apply andb_true_iff in H; destruct H as [H ?]). now split.
Qed.

(** On a valid document the validation of the save is decided by the
    revenue alone. *)
Lemma modified_ok_revenue d x :
  schema_ok d = true ->
  modified_ok d (incremented d x) = revenue_ok d x.
Proof.
  intros H. destruct (schema_ok_counts _ H) as [U O].
  unfold modified_ok, incremented, revenue_ok, set_counters.
  cbn [usedCount ordersUsed revenueGenerated].
  rewrite (min_ok_add_one _ U), (min_ok_add_one _ O).
  now rewrite !orb_true_r, andb_true_r.
Qed.

(** What the write leaves when the stored document is the loaded one. *)
Lemma write_modified_recorded d now_save x :
  revenue_ok d x = true ->
  recorded d (write_modified d (preSave now_save (incremented d x)) d) x.
Proof.
  intros R. unfold recorded, write_modified, incremented. simpl.
  rewrite !written_count. repeat split.
  unfold same_number, revenue_ok in *.
  destruct (opt_num_eqb (revenueGenerated d)
              (Some (add (of_nullable (revenueGenerated d)) x))) eqn:E.
  - exact E.
  - simpl in R. simpl. apply andb_true_iff in R. destruct R as [R _].
    apply num_eqb_refl. now apply negb_true_iff.
Qed.

(** The commit on a document that is still the stored one. *)
Lemma usage_commit_stored st now now_save req d :
  findById st (_id d) = Some d ->
  usage_commit st now now_save req d =
    if (now <? startDate d) || (now >? endDate d)
       || negb (status_eqb (status d) active)
    then (st, reject 400 "Discount is not active" NoData)
    else if truthy_nullable (usageLimit d)
            && ge (of_nullable (usedCount d)) (of_nullable (usageLimit d))
    then (st, reject 400 "Discount usage limit reached" NoData)
    else
      let x := parseFloat_val (u_orderAmount req) in
      let saved := preSave now_save (incremented d x) in
      if modified_ok d (incremented d x)
      then (modify (_id d) (write_modified d saved) st,
            accept 200 (Msg "Discount usage updated")
              (UsageData (_id saved) (code saved) (usedCount saved)
                 (remainingUses saved) (revenueGenerated saved)))
      else (st, reject 500 "Error updating discount usage"
                  (ErrorData ValidationError)).
Proof.
  intros F. unfold usage_commit.
  destruct ((now <? startDate d) || (now >? endDate d)
            || negb (status_eqb (status d) active)); [reflexivity|].
  destruct (truthy_nullable (usageLimit d)
            && ge (of_nullable (usedCount d)) (of_nullable (usageLimit d)));
    [reflexivity|].
  fold (incremented d (parseFloat_val (u_orderAmount req))).
  unfold save. cbv zeta.
  destruct (modified_ok d (incremented d (parseFloat_val (u_orderAmount req))));
    [|reflexivity].
  change (_id (preSave now_save
                 (incremented d (parseFloat_val (u_orderAmount req)))))
    with (_id d).
  now rewrite F.
Qed.

(** A usage recording that does not succeed leaves the store as it was. *)
Lemma usage_failure_keeps_store st now now_save req :
  success (snd (updateDiscountUsage st now now_save req)) = false ->
  fst (updateDiscountUsage st now now_save req) = st.
Proof.
  unfold updateDiscountUsage.
  destruct (usage_load st req) as [req' d|r]; [|reflexivity].
  unfold usage_commit.
  destruct ((now <? startDate d) || (now >? endDate d)
            || negb (status_eqb (status d) active)); [reflexivity|].
  destruct (truthy_nullable (usageLimit d)
            && ge (of_nullable (usedCount d)) (of_nullable (usageLimit d)));
    [reflexivity|].
  unfold save.
  destruct (modified_ok _ _); [|reflexivity].
  destruct (findById st _); [simpl; discriminate|reflexivity].
Qed.

Lemma usage_load_found st req d :
  truthy_val (u_orderId req) = true ->
  truthy_val (u_orderAmount req) = true ->
  findById st (u_id req) = Some d ->
  usage_load st req = Loaded req d.
Proof.
  intros H1 H2 F. unfold usage_load. now rewrite H1, H2, F.
Qed.

(** The recheck of the ledger, against steps 2 to 5 of validation. *)
Lemma recheck_agrees now d :
  schema_ok d = true ->
  match recheck_spec now d with
  | Some LimitReached =>
      (now <? startDate d) || (now >? endDate d)
      || negb (status_eqb (status d) active) = false
      /\ truthy_nullable (usageLimit d)
         && ge (of_nullable (usedCount d)) (of_nullable (usageLimit d)) = true
  | Some _ =>
      (now <? startDate d) || (now >? endDate d)
      || negb (status_eqb (status d) active) = true
  | None =>
      (now <? startDate d) || (now >? endDate d)
      || negb (status_eqb (status d) active) = false
      /\ truthy_nullable (usageLimit d)
         && ge (of_nullable (usedCount d)) (of_nullable (usageLimit d)) = false
  end.
Proof.
  intros H. unfold recheck_spec. rewrite (limit_test_agrees _ H).
  destruct (now <? startDate d); [reflexivity|].
  destruct (now >? endDate d); [reflexivity|].
  destruct (negb (status_eqb (status d) active)); [reflexivity|].
  destruct (limit_reached d); split; reflexivity.
Qed.

(** C6, amended.  For a request with both body fields on a stored valid
    document, the ledger rejects exactly when steps 2 to 5 of validation
    reject.  A failure of step 2, 3 or 4 is answered with the one rejection
    "Discount is not active", without a boundary value; a failure of step 5
    with LimitReached.  Every answer that is not a success leaves the store
    unchanged.  When no step fails and the raised revenue passes the save's
    validation, the call succeeds, the stored document has [usedCount] and
    [ordersUsed] one higher and [revenueGenerated] higher by the order
    amount, and no other document changes; when the revenue does not pass,
    the answer is an internal failure. *)
Theorem usage_recording st now now_save req d :
  truthy_val (u_orderId req) = true ->
  truthy_val (u_orderAmount req) = true ->
  findById st (u_id req) = Some d ->
  schema_ok d = true ->
  let st' := fst (updateDiscountUsage st now now_save req) in
  let r := snd (updateDiscountUsage st now now_save req) in
  let x := parseFloat_val (u_orderAmount req) in
  (success r = false -> st' = st)
  /\ (startDate d <= now <= endDate d -> status d = active ->
      limit_reached d = true ->
      rejection_of r = Some LimitReached /\ st' = st)
  /\ match recheck_spec now d with
     | Some LimitReached => rejection_of r = Some LimitReached
     | Some _ => rejection_of r = Some Inactive
     | None =>
         if revenue_ok d x then
           success r = true
           /\ exists d',
                findById st' (u_id req) = Some d'
                /\ recorded d d' x
                /\ forall id', id' <> u_id req ->
                     findById st' id' = findById st id'
         else http r = 500%nat /\ success r = false
     end.
Proof.
  intros H1 H2 F Hd. cbv zeta.
  pose proof (findById_id _ _ _ F) as Hid.
  assert (M : match recheck_spec now d with
     | Some LimitReached =>
         rejection_of (snd (updateDiscountUsage st now now_save req))
         = Some LimitReached
     | Some _ =>
         rejection_of (snd (updateDiscountUsage st now now_save req))
         = Some Inactive
     | None =>
         if revenue_ok d (parseFloat_val (u_orderAmount req)) then
           success (snd (updateDiscountUsage st now now_save req)) = true
           /\ exists d',
                findById (fst (updateDiscountUsage st now now_save req))
                  (u_id req) = Some d'
                /\ recorded d d' (parseFloat_val (u_orderAmount req))
                /\ forall id', id' <> u_id req ->
                     findById (fst (updateDiscountUsage st now now_save req))
                       id' = findById st id'
         else http (snd (updateDiscountUsage st now now_save req)) = 500%nat
              /\ success (snd (updateDiscountUsage st now now_save req))
                 = false
     end).
  { unfold updateDiscountUsage. rewrite (usage_load_found _ _ _ H1 H2 F).
    rewrite usage_commit_stored by (now rewrite Hid).
    pose proof (recheck_agrees now d Hd) as R.
    destruct (recheck_spec now d) as [[| | | | |]|].
    1-4,6: rewrite R; reflexivity.
    - destruct R as [R1 R2]. rewrite R1, R2. reflexivity.
    - destruct R as [R1 R2]. rewrite R1, R2. cbv zeta.
      rewrite (modified_ok_revenue _ _ Hd).
      destruct (revenue_ok d (parseFloat_val (u_orderAmount req))) eqn:V;
        [|split; reflexivity].
      split; [reflexivity|]. simpl fst. rewrite Hid.
      eexists. split; [|split].
      + apply findById_modify_same; [intros y Hy; exact Hy|exact F].
      + now apply write_modified_recorded.
      + intros id' Hn. apply findById_modify_other; [intros y Hy; exact Hy|exact Hn]. }
  split; [apply usage_failure_keeps_store|]. split; [|exact M].
  intros [W1 W2] Hs Hl.
  assert (R : recheck_spec now d = Some LimitReached).
  { unfold recheck_spec. rewrite Hs, Hl. simpl.
    replace (now <? startDate d) with false by (symmetry; apply Z.ltb_ge; lia).
    replace (now >? endDate d) with false
      by (symmetry; rewrite Z.gtb_ltb; apply Z.ltb_ge; lia).
    reflexivity. }
  rewrite R in M. split; [exact M|].
  apply usage_failure_keeps_store.
  unfold rejection_of in M.
  destruct (success (snd (updateDiscountUsage st now now_save req)));
    [discriminate|reflexivity].
Qed.



End Ledger.

(* ================================================================== *)
(** ** The repository: create and owner update *)
(* ================================================================== *)

Module Repository.

Import JS Model Store Controller Spec NumFacts Validator Ledger.
Local Open Scope string_scope.
Local Open Scope Z_scope.

(** Destructs the casts of a [cast_update] or [cast_new] one by one. *)
Ltac split_casts H :=
  repeat match type of H with
         | bind ?m _ = inl _ =>
             let E := fresh "E" in
             destruct m eqn:E; simpl bind in H; [|discriminate H]
         end.


Lemma cast_update_id u d d' : cast_update u d = inl d' -> _id d' = _id d.
Proof.
  intros H. unfold cast_update in H. split_casts H.
  injection H as <-. reflexivity.
Qed.



(** A created document is stored as the evaluator leaves it. *)
Lemma create_evaluated parseDate st now now_save fresh draws user body st' r :
  createDiscount parseDate st now now_save fresh draws user body
  = Some (st', r) ->
  success r = true ->
  exists d, data r = DocumentData d /\ In d st' /\ evaluated now_save d.
Proof.
  unfold createDiscount.
  destruct (_ || _); [intros H; injection H as <- <-; discriminate|].
  destruct (validateDates _ _ _);
    [intros H; injection H as <- <-; discriminate|].
  destruct (negb (Text.truthy_opt (b_code body)));
    [destruct (generateDiscountCode st user draws); [|discriminate]
    |destruct (findOne st _ user);
       [intros H; injection H as <- <-; discriminate|]].
  all: unfold create.
  all: destruct (cast_new _ _) as [d|e];
    [|intros H; injection H as <- <-; discriminate].
  all: unfold insert; destruct (existsb _ st);
    intros H; injection H as <- <-; [discriminate|].
  all: intros _; eexists; (split; [reflexivity|]); split;
    [apply in_or_app; right; now left|apply Evaluator.preSave_idempotent].
Qed.

(** Creating with a code the same owner already uses is refused before
    anything is written. *)
Lemma create_duplicate_refused parseDate st now now_save fresh draws user body
  code existing :
  Text.truthy_opt (b_name body) = true ->
  Text.truthy_opt (b_type body) = true ->
  Text.truthy_opt (b_value body) = true ->
  Text.truthy_opt (b_startDate body) = true ->
  Text.truthy_opt (b_endDate body) = true ->
  validateDates (parseDate (or_text (b_startDate body) ""))
    (parseDate (or_text (b_endDate body) "")) now = None ->
  b_code body = Some code -> Text.truthy code = true ->
  findOne st (Text.toUpperCase code) user = Some existing ->
  createDiscount parseDate st now now_save fresh draws user body
  = Some (st, reject 400 "Discount code already exists for your shop" NoData).
Proof.
  intros H1 H2 H3 H4 H5 Hd Hc Ht F. unfold createDiscount.
  rewrite H1, H2, H3, H4, H5, Hd, Hc. simpl. rewrite Ht. simpl.
  now rewrite F.
Qed.

End Repository.

(* ================================================================== *)
(** ** Usage requests that overlap *)
(* ================================================================== *)

Module Concurrency.

Import JS Model Store Controller Interleaving Spec NumFacts Validator Ledger.
Local Open Scope string_scope.
Local Open Scope Z_scope.

Lemma Forall_modify (P : Discount -> Prop) id f st :
  Forall P st ->
  (forall d, findById st id = Some d -> P (f d)) ->
  Forall P (modify id f st).
Proof.
  unfold findById.
  induction st as [|a st IH]; simpl; intros H Hf; [constructor|].
  inversion H as [|? ? Pa Pst]; subst.
  destruct (id_eqb (_id a) id) eqn:E.
  - constructor; [now apply Hf|assumption].
  - constructor; [assumption|now apply IH].
Qed.

Lemma Forall_set_nth {A : Type} (P : A -> Prop) n x l :
  Forall P l -> P x -> Forall P (set_nth n x l).
Proof.
  intros H Hx. revert n.
  induction H as [|y l Py Pl IH]; intros [|n]; simpl;
    constructor; auto.
Qed.

Lemma findById_modify_inv st id f id' d' :
  (forall x, _id x = id -> _id (f x) = id) ->
  findById (modify id f st) id' = Some d' ->
  (id' = id /\ exists d0, findById st id = Some d0 /\ d' = f d0)
  \/ findById st id' = Some d'.
Proof.
  intros Hf H.
  destruct (String.eqb id' id) eqn:E.
  - apply String.eqb_eq in E. subst id'.
    destruct (findById st id) as [d0|] eqn:F.
    + rewrite (findById_modify_same _ _ _ _ Hf F) in H.
      injection H as <-. left. split; [reflexivity|]. now exists d0.
    + rewrite (findById_modify_none _ _ f F) in H. congruence.
  - apply String.eqb_neq in E. right.
    now rewrite (findById_modify_other _ _ _ _ Hf E) in H.
Qed.

(** What a commit does to the store. *)
Lemma usage_commit_store st now now_save req loaded st' r :
  usage_commit st now now_save req loaded = (st', r) ->
  st' = st
  \/ (truthy_nullable (usageLimit loaded)
      && ge (of_nullable (usedCount loaded))
            (of_nullable (usageLimit loaded)) = false
      /\ modified_ok loaded
           (incremented loaded (parseFloat_val (u_orderAmount req))) = true
      /\ st' = modify (_id loaded)
                 (write_modified loaded
                    (preSave now_save
                       (incremented loaded
                          (parseFloat_val (u_orderAmount req))))) st).
Proof.
  unfold usage_commit.
  destruct ((now <? startDate loaded) || (now >? endDate loaded)
            || negb (status_eqb (status loaded) active));
    [intros H; injection H as <- _; now left|].
  destruct (truthy_nullable (usageLimit loaded)
            && ge (of_nullable (usedCount loaded))
                  (of_nullable (usageLimit loaded))) eqn:L;
    [intros H; injection H as <- _; now left|].
  fold (incremented loaded (parseFloat_val (u_orderAmount req))).
  unfold save.
  destruct (modified_ok _ _) eqn:M; [|intros H; injection H as <- _; now left].
  destruct (findById st _); intros H; injection H as <- _;
    [right; repeat split; reflexivity|now left].
Qed.

Lemma truthy_of_Z (z : Z) : z <> 0 -> truthy (of_Z z) = true.
Proof.
  intros H. unfold truthy, of_Z. apply negb_true_iff.
  apply not_true_is_false. intros E. apply Qeq_bool_eq in E.
  unfold Qeq, inject_Z in E. simpl in E. lia.
Qed.

Lemma num_eqb_of_Z (a b : Z) : num_eqb (of_Z a) (of_Z b) = (a =? b).
Proof.
  unfold num_eqb. rewrite cmp_of_Z. rewrite Z.eqb_compare.
  now destruct (a ?= b).
Qed.

Lemma ge_of_Z (a b : Z) : ge (of_Z a) (of_Z b) = (b <=? a).
Proof.
  unfold ge, le. rewrite cmp_of_Z. unfold Z.leb.
  now destruct (b ?= a).
Qed.

Lemma le_of_Z (a b : Z) : le (of_Z a) (of_Z b) = (a <=? b).
Proof.
  unfold le. rewrite cmp_of_Z. unfold Z.leb. now destruct (a ?= b).
Qed.

(** A count read below the limit, plus one, is within the limit. *)
Lemma whole_counts_written loaded d now_save x :
  whole_counts loaded ->
  usageLimit d = usageLimit loaded ->
  truthy_nullable (usageLimit loaded)
  && ge (of_nullable (usedCount loaded)) (of_nullable (usageLimit loaded))
  = false ->
  whole_counts (write_modified loaded (preSave now_save (incremented loaded x)) d).
Proof.
  unfold whole_counts. intros W Hl C.
  change (usageLimit (write_modified loaded
                        (preSave now_save (incremented loaded x)) d))
    with (usageLimit d).
  rewrite Hl. destruct (usageLimit loaded) as [limit|]; [|exact I].
  destruct W as (L & u & -> & Hu & HL & Hu0 & HuL).
  cbn [truthy_nullable of_nullable] in C.
  rewrite (truthy_of_Z L) in C by lia. rewrite andb_true_l in C.
  rewrite Hu, ge_of_Z in C. apply Z.leb_gt in C.
  exists L, (u + 1). split; [reflexivity|]. split; [|lia].
  unfold write_modified, incremented. simpl.
  rewrite Hu. change one with (of_Z 1). rewrite add_of_Z.
  destruct (usedCount loaded) as [y|]; simpl in *.
  - subst y. rewrite num_eqb_of_Z.
    replace (u =? u + 1) with false by (symmetry; apply Z.eqb_neq; lia).
    reflexivity.
  - reflexivity.
Qed.

Lemma task_ok_modify st t loaded mem :
  task_ok st t ->
  task_ok (modify (_id loaded) (write_modified loaded mem) st) t.
Proof.
  destruct t as [req|[req ds|r]]; simpl; try exact id.
  intros [W H]. split; [exact W|]. intros d F.
  apply findById_modify_inv in F; [|intros y Hy; exact Hy].
  destruct F as [[Hid (d0 & F0 & ->)]|F].
  - rewrite Hid in H. exact (H d0 F0).
  - now apply H.
Qed.

Lemma nth_error_Forall {A : Type} (P : A -> Prop) l n x :
  Forall P l -> nth_error l n = Some x -> P x.
Proof.
  intros H N. apply nth_error_In in N.
  rewrite Forall_forall in H. now apply H.
Qed.

(** Loading reads a document that satisfies what the store satisfies. *)
Lemma task_ok_load st req :
  Forall whole_counts st -> task_ok st (Started (usage_load st req)).
Proof.
  intros H. unfold usage_load.
  destruct (negb (truthy_val (u_orderId req))
            || negb (truthy_val (u_orderAmount req))); [exact I|].
  destruct (findById st (u_id req)) as [d|] eqn:F; [|exact I].
  simpl. split.
  - rewrite Forall_forall in H. apply H. now apply findById_In in F.
  - intros d' F'. rewrite (findById_id _ _ _ F) in F'. congruence.
Qed.

(** Every step keeps the invariant. *)
Lemma step_invariant c e : invariant c -> invariant (step c e).
Proof.
  destruct c as [st tasks]. intros [Hs Ht]. unfold step. simpl fst. simpl snd.
  destruct (nth_error tasks (e_task e)) as [t|] eqn:N; [|now split].
  pose proof (nth_error_Forall _ _ _ _ Ht N) as Hk.
  destruct t as [req|[req loaded|r]]; simpl step_task.
  - split; simpl; [exact Hs|].
    apply Forall_set_nth; [exact Ht|now apply task_ok_load].
  - destruct (usage_commit st (e_now e) (e_now_save e) req loaded)
      as [st' r] eqn:C.
    destruct (usage_commit_store _ _ _ _ _ _ _ C) as [->|(L & _ & ->)].
    + split; simpl; [exact Hs|]. apply Forall_set_nth; [exact Ht|exact I].
    + destruct Hk as [W Hl]. split; simpl.
      * apply Forall_modify; [exact Hs|].
        intros d F. apply whole_counts_written; auto.
      * apply Forall_set_nth; [|exact I].
        eapply Forall_impl; [|exact Ht].
        intros t. apply task_ok_modify.
  - split; simpl; [exact Hs|]. apply Forall_set_nth; [exact Ht|exact I].
Qed.

Lemma run_invariant schedule c : invariant c -> invariant (run c schedule).
Proof.
  unfold run. revert c.
  induction schedule as [|e rest IH]; intros c H; simpl; [exact H|].
  apply IH. now apply step_invariant.
Qed.

Lemma start_invariant st reqs :
  Forall whole_counts st -> invariant (start st reqs).
Proof.
  intros H. split; simpl; [exact H|].
  apply Forall_forall. intros t Hin. apply in_map_iff in Hin.
  destruct Hin as (req & <- & _). exact I.
Qed.

Lemma whole_counts_within d : whole_counts d -> within_limit d.
Proof.
  unfold whole_counts, within_limit.
  destruct (usageLimit d) as [limit|]; [|trivial].
  intros (L & u & -> & -> & _ & _ & H). rewrite le_of_Z.
  apply Z.leb_le. exact H.
Qed.

(** The sum of two numbers that are not negative is not negative. *)
Lemma add_nonneg (a b : num) :
  isNaN a = false -> ge a zero = true ->
  isNaN b = false -> ge b zero = true ->
  isNaN (add a b) = false /\ ge (add a b) zero = true.
Proof.
  destruct a as [| | |p], b as [| | |q]; try discriminate;
    intros _ Ha _ Hb; try (split; reflexivity).
  split; [reflexivity|].
  unfold ge, le, add, zero, fin, cmp in *.
  assert (P : (0 <= p)%Q).
  { destruct (0 ?= p)%Q eqn:E; try discriminate.
    - apply Qeq_alt in E. lra.
    - change (0 < p)%Q in E. lra. }
  assert (Q : (0 <= q)%Q).
  { destruct (0 ?= q)%Q eqn:E; try discriminate.
    - apply Qeq_alt in E. lra.
    - change (0 < q)%Q in E. lra. }
  destruct (0 ?= Qred (p + q))%Q eqn:E; try reflexivity.
  rewrite Qred_correct in E. apply Qgt_alt in E. lra.
Qed.

Lemma schema_ok_revenue d :
  schema_ok d = true -> min_ok zero (revenueGenerated d) = true.
Proof.
  unfold schema_ok. intros H.
  repeat (apply andb_true_iff in H; destruct H as [H ?]). assumption.
Qed.

(** On a valid document an amount that is a number and not negative passes
    the validation of the save. *)
Lemma revenue_ok_nonneg d x :
  schema_ok d = true -> isNaN x = false -> ge x zero = true ->
  revenue_ok d x = true.
Proof.
  intros H Hx Hg. apply schema_ok_revenue in H.
  unfold revenue_ok. apply orb_true_iff. right.
  assert (A : isNaN (of_nullable (revenueGenerated d)) = false
              /\ ge (of_nullable (revenueGenerated d)) zero = true).
  { destruct (revenueGenerated d) as [r|]; simpl in *.
    - apply andb_true_iff in H. destruct H as [H1 H2].
      now apply negb_true_iff in H1.
    - split; reflexivity. }
  destruct A as [A1 A2].
  destruct (add_nonneg _ _ A1 A2 Hx Hg) as [B1 B2].
  unfold min_ok. now rewrite B1, B2.
Qed.

Lemma in_window now d :
  startDate d <= now <= endDate d ->
  (now <? startDate d) = false /\ (now >? endDate d) = false.
Proof.
  intros [H1 H2]. split.
  - apply Z.ltb_ge. lia.
  - rewrite Z.gtb_ltb. apply Z.ltb_ge. lia.
Qed.

(** The first use of a fresh discount with a limit of one succeeds and
    leaves it used up. *)
Lemma first_use st id d now now_save req :
  findById st id = Some d ->
  schema_ok d = true ->
  usageLimit d = Some one ->
  of_nullable (usedCount d) = zero ->
  status d = active ->
  call_ok id d (now, now_save, req) ->
  exists st1 r1 d1,
    updateDiscountUsage st now now_save req = (st1, r1)
    /\ success r1 = true
    /\ findById st1 id = Some d1
    /\ status d1 = active
    /\ usageLimit d1 = Some one
    /\ usedCount d1 = Some (add zero one)
    /\ startDate d1 = startDate d /\ endDate d1 = endDate d.
Proof.
  intros F Hd Hl Hu Hs (Hid & (W1 & W2 & W3 & W4) & Hn & Hv).
  pose proof (findById_id _ _ _ F) as Hdid.
  unfold updateDiscountUsage. subst id.
  rewrite (usage_load_found _ _ _ W1 W2 F).
  rewrite usage_commit_stored by (now rewrite Hdid).
  destruct (in_window _ _ Hn) as [N1 N2].
  destruct (in_window _ _ Hv) as [V1 V2].
  rewrite N1, N2, Hs, Hl, Hu. simpl. cbv zeta.
  rewrite (modified_ok_revenue _ _ Hd), (revenue_ok_nonneg _ _ Hd W3 W4).
  do 3 eexists. split; [reflexivity|]. split; [reflexivity|].
  rewrite Hdid. split.
  - apply findById_modify_same; [intros y Hy; exact Hy|exact F].
  - unfold write_modified, incremented, preSave, preSave_status. simpl.
    rewrite Hs, V1, V2. simpl.
    rewrite written_count, Hu, Hl. repeat split; reflexivity.
Qed.

(** Every later use, in turn, is rejected with LimitReached and writes
    nothing. *)
Lemma later_uses id d calls :
  forall st,
    findById st id = Some d ->
    status d = active ->
    usageLimit d = Some one ->
    usedCount d = Some (add zero one) ->
    Forall (call_ok id d) calls ->
    run_in_turn st calls = (st, repeat limit_reached_reply (length calls)).
Proof.
  intros st F Hs Hl Hu.
  induction 1 as [|[[now now_save] req] rest Hc _ IH]; simpl; [reflexivity|].
  destruct Hc as (Hid & (W1 & W2 & _) & Hn & _).
  unfold updateDiscountUsage. subst id.
  rewrite (usage_load_found _ _ _ W1 W2 F).
  unfold usage_commit.
  destruct (in_window _ _ Hn) as [N1 N2].
  rewrite N1, N2, Hs, Hl, Hu. simpl. now rewrite IH.
Qed.

(** C9, amended.  (1) Whatever the interleaving of usage requests, a
    stored usage count never exceeds its usage limit: every write stores a
    count that was read below the limit, plus one.  (2) The recheck and the
    write are two steps of a request, not one.  When the calls are served
    in turn, without overlap, on a fresh discount with a limit of one, the
    first succeeds and each of the others is rejected with LimitReached;
    for calls that overlap no such count of successes is stated. *)
Theorem usage_limit_interleaved st reqs schedule :
  Forall whole_counts st ->
  Forall within_limit (fst (run (start st reqs) schedule))
  /\ forall id d call calls,
       findById st id = Some d ->
       schema_ok d = true ->
       usageLimit d = Some one ->
       of_nullable (usedCount d) = zero ->
       status d = active ->
       Forall (call_ok id d) (call :: calls) ->
       exists first,
         snd (run_in_turn st (call :: calls))
         = first :: repeat limit_reached_reply (length calls)
         /\ success first = true
         /\ rejection_of limit_reached_reply = Some LimitReached.
Proof.
  intros H. split.
  - destruct (run_invariant schedule _ (start_invariant st reqs H)) as [W _].
    eapply Forall_impl; [|exact W]. apply whole_counts_within.
  - intros id d [[now now_save] req] calls F Hd Hl Hu Hs Hc.
    inversion Hc as [|? ? Hc1 Hcs]; subst.
    destruct (first_use _ _ _ _ _ _ F Hd Hl Hu Hs Hc1)
      as (st1 & r1 & d1 & E & S & F1 & S1 & L1 & U1 & D1 & D2).
    simpl. rewrite E.
    assert (Hcs' : Forall (call_ok id d1) calls).
    { eapply Forall_impl; [|exact Hcs].
      intros [[n ns] q]. unfold call_ok. now rewrite D1, D2. }
    rewrite (later_uses id d1 calls st1 F1 S1 L1 U1 Hcs').
    exists r1. repeat split; assumption || reflexivity.
Qed.

End Concurrency.

(* ================================================================== *)
(** ** The schema validators as a store invariant *)
(* ================================================================== *)

Module Invariants.

Import JS Model Store Controller Interleaving Spec NumFacts Validator Ledger
  Repository Concurrency.
Local Open Scope string_scope.
Local Open Scope Z_scope.

Lemma check_true b e : check b e = inl tt -> b = true.
Proof. now destruct b. Qed.

Ltac checked H :=
  let C := fresh "C" in
  match type of H with
  | bind (check ?b ?e) _ = inl _ =>
      destruct (check b e) as [[]|] eqn:C; simpl bind in H;
      [apply check_true in C|discriminate H]
  end.

Lemma cast_name_ok s s' : cast_name s = inl s' -> name_ok s' = true.
Proof. unfold cast_name. intros H. checked H. now injection H as <-. Qed.

Lemma cast_code_ok s s' : cast_code s = inl s' -> code_ok s' = true.
Proof. unfold cast_code. intros H. checked H. now injection H as <-. Qed.

Lemma cast_description_ok s s' :
  cast_description s = inl s' -> description_ok s' = true.
Proof.
  unfold cast_description. intros H. checked H. now injection H as <-.
Qed.

Lemma cast_number_ok lo n n' :
  cast_number lo n = inl n' -> min_ok lo (Some n') = true.
Proof.
  unfold cast_number. intros H. checked H. checked H.
  injection H as <-. simpl. now rewrite C, C0.
Qed.

Lemma cast_nullable_ok lo x x' :
  cast_nullable lo x = inl x' -> min_ok lo x' = true.
Proof.
  destruct x as [n|]; simpl; intros H.
  - destruct (cast_number lo n) as [n'|] eqn:E; simpl in H; [|discriminate].
    injection H as <-. now apply cast_number_ok in E.
  - now injection H as <-.
Qed.

Lemma cast_counter_text_ok s x :
  cast_counter_text s = inl x -> min_ok zero x = true.
Proof.
  unfold cast_counter_text. intros H.
  destruct (cast_number_text s) as [y|]; simpl in H; [|discriminate].
  checked H. now injection H as <-.
Qed.

(** A path of a [$set] holds a valid value when the stored one is valid and
    the cast lets only valid ones through. *)
Lemma set_path_ok {A B : Type} (P : B -> Prop) (x : option A) stored cast v :
  (forall a b, cast a = inl b -> P b) ->
  P stored ->
  set_path x stored cast = inl v -> P v.
Proof.
  intros Hc Hs. destruct x as [a|]; simpl; intros H.
  - now apply (Hc a).
  - now injection H as <-.
Qed.

Lemma schema_ok_fields d :
  schema_ok d = true <->
  name_ok (name d) = true /\ code_ok (code d) = true
  /\ description_ok (description d) = true
  /\ min_ok zero (Some (value d)) = true
  /\ min_ok zero (Some (minOrder d)) = true
  /\ min_ok zero (Some (maxDiscount d)) = true
  /\ min_ok one (usageLimit d) = true
  /\ min_ok zero (usedCount d) = true
  /\ min_ok zero (revenueGenerated d) = true
  /\ min_ok zero (ordersUsed d) = true.
Proof.
  unfold schema_ok. rewrite !andb_true_iff. tauto.
Qed.

Lemma cast_new_valid fresh x d : cast_new fresh x = inl d -> schema_ok d = true.
Proof.
  intros H. unfold cast_new in H. split_casts H. injection H as <-.
  apply schema_ok_fields. simpl.
  repeat split;
    eauto using cast_name_ok, cast_code_ok, cast_description_ok,
      cast_number_ok, cast_nullable_ok.
Qed.

Lemma cast_update_valid u d d' :
  schema_ok d = true -> cast_update u d = inl d' -> schema_ok d' = true.
Proof.
  intros Hd H. apply schema_ok_fields in Hd.
  destruct Hd as (V1 & V2 & V3 & V4 & V5 & V6 & V7 & V8 & V9 & V10).
  unfold cast_update in H. split_casts H. injection H as <-.
  apply schema_ok_fields. simpl.
  repeat split.
  - eapply (set_path_ok (fun v => name_ok v = true));
      [apply cast_name_ok|exact V1|eassumption].
  - eapply (set_path_ok (fun v => code_ok v = true));
      [apply cast_code_ok|exact V2|eassumption].
  - eapply (set_path_ok (fun v => description_ok v = true));
      [apply cast_description_ok|exact V3|eassumption].
  - eapply (set_path_ok (fun v => min_ok zero (Some v) = true));
      [apply cast_number_ok|exact V4|eassumption].
  - eapply (set_path_ok (fun v => min_ok zero (Some v) = true));
      [apply cast_number_ok|exact V5|eassumption].
  - eapply (set_path_ok (fun v => min_ok zero (Some v) = true));
      [apply cast_number_ok|exact V6|eassumption].
  - eapply (set_path_ok (fun v => min_ok one v = true));
      [apply cast_nullable_ok|exact V7|eassumption].
  - eapply (set_path_ok (fun v => min_ok zero v = true));
      [apply cast_counter_text_ok|exact V8|eassumption].
  - eapply (set_path_ok (fun v => min_ok zero v = true));
      [apply cast_counter_text_ok|exact V9|eassumption].
  - eapply (set_path_ok (fun v => min_ok zero v = true));
      [apply cast_counter_text_ok|exact V10|eassumption].
Qed.

Lemma preSave_valid now d : schema_ok (preSave now d) = schema_ok d.
Proof. reflexivity. Qed.

Lemma set_status_valid d s : schema_ok (set_status d s) = schema_ok d.
Proof. reflexivity. Qed.

Lemma picked_ok (loaded mem stored : option num) :
  min_ok zero stored = true ->
  opt_num_eqb loaded mem || min_ok zero mem = true ->
  min_ok zero (if opt_num_eqb loaded mem then stored else mem) = true.
Proof.
  intros Hs H. destruct (opt_num_eqb loaded mem); [exact Hs|exact H].
Qed.

(** The write of a validated save keeps the stored document valid. *)
Lemma write_modified_valid loaded mem stored now :
  schema_ok stored = true ->
  modified_ok loaded mem = true ->
  schema_ok (write_modified loaded (preSave now mem) stored) = true.
Proof.
  intros Hs Hm. apply schema_ok_fields in Hs.
  destruct Hs as (V1 & V2 & V3 & V4 & V5 & V6 & V7 & V8 & V9 & V10).
  unfold modified_ok in Hm. rewrite !andb_true_iff in Hm.
  destruct Hm as [[M1 M2] M3].
  apply schema_ok_fields. unfold write_modified. simpl.
  repeat split; try assumption; now apply picked_ok.
Qed.

Lemma store_valid_modify id f st :
  store_valid st ->
  (forall d, schema_ok d = true -> schema_ok (f d) = true) ->
  store_valid (modify id f st).
Proof.
  intros H Hf. apply Forall_modify; [exact H|].
  intros d F. apply Hf.
  exact (store_valid_In _ _ H (findById_In _ _ _ F)).
Qed.

Lemma updateMany_status_valid ids s st :
  store_valid st -> store_valid (fst (updateMany_status ids s st)).
Proof.
  induction 1 as [|d st Hd _ IH]; simpl; [constructor|].
  destruct (updateMany_status ids s st) as [rest n]. simpl in IH.
  destruct (existsb (id_eqb (_id d)) ids); simpl;
    constructor; assumption.
Qed.

(** Every handler keeps the store valid. *)
Lemma handlers_keep_store_valid parseDate st :
  store_valid st ->
  (forall now req, store_valid (fst (validateDiscountCode st now req)))
  /\ (forall now now_save req,
        store_valid (fst (updateDiscountUsage st now now_save req)))
  /\ (forall req, store_valid (fst (bulkUpdateStatus st req)))
  /\ (forall now req, store_valid (fst (updateDiscount parseDate st now req)))
  /\ (forall now now_save fresh draws user body st' r,
        createDiscount parseDate st now now_save fresh draws user body
        = Some (st', r) -> store_valid st').
Proof.
  intros H. repeat split.
  - intros now req. now rewrite validateDiscountCode_store.
  - intros now now_save req. unfold updateDiscountUsage.
    destruct (usage_load st req) as [req' loaded|r]; [|exact H].
    destruct (usage_commit st now now_save req' loaded) as [st' r] eqn:C.
    destruct (usage_commit_store _ _ _ _ _ _ _ C) as [->|(_ & M & ->)];
      [exact H|].
    apply store_valid_modify; [exact H|].
    intros d Hd. now apply write_modified_valid.
  - intros req. unfold bulkUpdateStatus.
    destruct (k_discountIds req) as [[|i ids]|]; try exact H.
    destruct (bulk_status (k_status req)) as [s|]; [|exact H].
    destruct (filter _ (filter _ st)); [|exact H].
    pose proof (updateMany_status_valid (i :: ids) s st H) as V.
    destruct (updateMany_status (i :: ids) s st). exact V.
  - intros now req. unfold updateDiscount.
    destruct (findById st (p_id req)) as [d|] eqn:F; [|exact H].
    destruct (negb (compareIds (createdBy d) (p_user req))); [exact H|].
    match goal with
    | |- context [match ?e with Some _ => _ | None => _ end] =>
        destruct e; [exact H|]
    end.
    unfold findByIdAndUpdate. rewrite F.
    destruct (cast_update _ d) as [d'|e] eqn:C; [|exact H].
    destruct (existsb _ st); [exact H|]. simpl.
    apply Forall_modify; [exact H|].
    intros d0 F0. rewrite F in F0. injection F0 as <-.
    apply (cast_update_valid _ _ _
             (store_valid_In _ _ H (findById_In _ _ _ F)) C).
  - intros now now_save fresh draws user body st' r.
    unfold createDiscount.
    destruct (_ || _); [intros E; injection E as <- _; exact H|].
    destruct (validateDates _ _ _); [intros E; injection E as <- _; exact H|].
    destruct (negb (Text.truthy_opt (b_code body)));
      [destruct (generateDiscountCode st user draws); [|discriminate]
      |destruct (findOne st _ user);
         [intros E; injection E as <- _; exact H|]].
    all: unfold create.
    all: destruct (cast_new _ _) as [d|e] eqn:C;
      [|intros E; injection E as <- _; exact H].
    all: unfold insert; destruct (existsb _ st);
      intros E; injection E as <- _; [exact H|].
    all: apply Forall_app; split; [exact H|].
    all: constructor; [|constructor].
    all: rewrite preSave_valid; exact (cast_new_valid _ _ _ C).
Qed.

(** A valid document holds no [NaN] in its limit and count. *)
Lemma schema_ok_counts_cast d : schema_ok d = true -> counts_cast d.
Proof.
  intros H. apply schema_ok_fields in H.
  destruct H as (_ & _ & _ & _ & _ & _ & L & U & _).
  unfold counts_cast. split.
  - destruct (usageLimit d) as [l|]; simpl in *; [|reflexivity].
    apply andb_true_iff in L. destruct L as [L _].
    now apply negb_true_iff.
  - destruct (usedCount d) as [u|]; simpl in *; [|reflexivity].
    apply andb_true_iff in U. destruct U as [U _].
    now apply negb_true_iff.
Qed.

(** One request alone takes its two steps to the answer of the handler. *)
Lemma single_request st req t1 t1' now now_save :
  run (start st [req]) [mkEvent 0 t1 t1'; mkEvent 0 now now_save]
  = (fst (updateDiscountUsage st now now_save req),
     [Started (Replied (snd (updateDiscountUsage st now now_save req)))]).
Proof.
  unfold run, start, updateDiscountUsage. simpl. unfold step. simpl.
  destruct (usage_load st req) as [req' d|r]; simpl; [|reflexivity].
  now destruct (usage_commit st now now_save req' d).
Qed.

End Invariants.

(* ================================================================== *)
(** ** The properties at concrete discounts *)
(* ================================================================== *)

Module Examples.

Import JS Model Store Controller Interleaving Spec Samples.
Local Open Scope string_scope.
Local Open Scope Z_scope.

Lemma store_valid_one d : schema_ok d = true -> store_valid [d].
Proof. intros H. constructor; [exact H|constructor]. Qed.

(** The two worked cases of the specification. *)
Example percentage_capped :
  data (snd (validateDiscountCode [save10 None 0 active] jun1
               (ask (Some "100"))))
  = ValidData (save10 None 0 active) (of_Z 5) (of_Z 95).
Proof. reflexivity. Qed.

Example fixed_floors_at_zero :
  data (snd (validateDiscountCode [flat20] jun1
               (mkValidateRequest alice "FLAT20" (Some "15"))))
  = ValidData flat20 (of_Z 20) zero.
Proof. reflexivity. Qed.

Lemma discount_amounts_witness :
  exists d discountAmount finalAmount,
    data (snd (validateDiscountCode [save10 None 0 active] jun1
                 (ask (Some "100"))))
    = ValidData d discountAmount finalAmount
    /\ finalAmount = max zero (sub (Text.parseFloat "100") discountAmount)
    /\ lt finalAmount zero = false.
Proof.
  destruct (Validator.discount_amounts [save10 None 0 active] jun1
              (ask (Some "100")) "100" eq_refl eq_refl)
    as (d & a & f & _ & D & _ & _ & F & L).
  exists d, a, f. repeat split; assumption.
Defined.

Lemma validation_order_witness :
  rejection_of
    (snd (validateDiscountCode [save10 (Some 1) 1 active] jun1
            (ask (Some "100"))))
  = Some LimitReached.
Proof.
  apply (Validator.validation_order [save10 (Some 1) 1 active] jun1
           (ask (Some "100")) eq_refl
           (store_valid_one (save10 (Some 1) 1 active) eq_refl)).
Defined.

Example order_of_steps :
  let reply st now amount :=
    rejection_of (snd (validateDiscountCode st now (ask amount))) in
  reply [] jun1 (Some "100") = Some NotFound
  /\ reply [save10 (Some 1) 1 paused] (jan1 - 1) (Some "1")
     = Some (NotYetActive jan1)
  /\ reply [save10 (Some 1) 1 paused] (dec31 + 1) (Some "1")
     = Some (Expired dec31)
  /\ reply [save10 (Some 1) 1 paused] jun1 (Some "1") = Some Inactive
  /\ reply [save10 (Some 1) 1 active] jun1 (Some "1") = Some LimitReached
  /\ reply [save10 (Some 2) 1 active] jun1 (Some "1")
     = Some (BelowMinimum (of_Z 50)).
Proof. repeat split; reflexivity. Qed.

Lemma missing_amount_accepted_witness :
  validateDiscountCode [save10 None 0 active] jun1 (ask None)
  = ([save10 None 0 active],
     accept 200 (Msg "Discount code is valid")
       (ValidData (save10 None 0 active) NaN NaN)).
Proof.
  apply (Validator.missing_amount_accepted [save10 None 0 active] jun1
           (ask None) (save10 None 0 active));
    try reflexivity.
  split; vm_compute; discriminate.
Defined.

Example empty_amount_accepted :
  gt (minOrder (save10 None 0 active)) zero = true
  /\ data (snd (validateDiscountCode [save10 None 0 active] jun1
                  (ask (Some ""))))
     = ValidData (save10 None 0 active) NaN NaN.
Proof. split; reflexivity. Qed.

(** The ledger answers a discount that has not started with "Discount is
    not active", validation with NotYetActive and the start date; and it
    answers an expired discount that is used up with the same "not active",
    not with LimitReached. *)
Lemma usage_rejection_differs :
  rejection_of
    (snd (validateDiscountCode [save10 (Some 5) 0 active] (jan1 - 1)
            (ask (Some "100"))))
  = Some (NotYetActive jan1)
  /\ rejection_of
       (snd (updateDiscountUsage [save10 (Some 5) 0 active] (jan1 - 1)
               (jan1 - 1) (use_of id1 100)))
     = Some Inactive
  /\ limit_reached (save10 (Some 5) 5 active) = true
  /\ rejection_of
       (snd (updateDiscountUsage [save10 (Some 5) 5 active] (dec31 + 1)
               (dec31 + 1) (use_of id1 100)))
     <> Some LimitReached.
Proof. repeat split; try reflexivity. vm_compute. discriminate. Qed.

Lemma usage_recording_witness :
  exists d',
    findById
      (fst (updateDiscountUsage [save10 (Some 5) 0 active] jun1 jun1
              (use_of id1 100))) id1 = Some d'
    /\ recorded (save10 (Some 5) 0 active) d' (of_Z 100).
Proof.
  destruct (Ledger.usage_recording [save10 (Some 5) 0 active] jun1 jun1
              (use_of id1 100) (save10 (Some 5) 0 active)
              eq_refl eq_refl eq_refl eq_refl)
    as (_ & _ & M).
  destruct M as (_ & d' & F & R & _).
  exists d'. split; assumption.
Defined.

Example usage_recorded :
  fst (updateDiscountUsage [save10 (Some 5) 0 active] jun1 jun1
         (use_of id1 100))
  = [set_derived
       (set_counters (save10 (Some 5) 0 active)
          (Some one) (Some (of_Z 100)) (Some one))
       (Some (of_Z 4)) active].
Proof. reflexivity. Qed.



(** C2 at a concrete update.  An owner update that lowers the usage limit
    from 10 to 5 on a discount used 3 times is written without the
    evaluator: the stored [remainingUses] stays 7, where the evaluator
    gives 2. *)
Theorem update_skips_evaluator :
  exists d',
    findById
      (fst (updateDiscount sample_dates [save10 (Some 10) 3 active] jun1
              (mkUpdateRequest alice id1
                 (mkBody None None None None None None None None None
                    (Some "5") None None None None None None None None None
                    None None)))) id1 = Some d'
    /\ usageLimit d' = Some (of_Z 5)
    /\ usedCount d' = Some (of_Z 3)
    /\ remainingUses d' = Some (of_Z 7)
    /\ remainingUses (preSave jun1 d') = Some (of_Z 2)
    /\ ~ evaluated jun1 d'.
Proof.
  eexists. split; [reflexivity|].
  repeat split; try reflexivity.
  unfold evaluated. vm_compute. discriminate.
Qed.

(** The same for the status: extending an expired discount leaves the
    stored status [expired] although the new window contains now. *)
Example update_leaves_status_stale :
  let expired10 :=
    mkDiscount id1 "Ten percent off" "SAVE10" "" percentage
      (of_Z 10) (of_Z 50) (of_Z 5) jan1 jun1 None (Some zero) None
      cust_all all_products false true false expired
      (Some zero) (Some zero) alice in
  option_map status
    (findById
       (fst (updateDiscount sample_dates [expired10] (jun1 + 1)
               (mkUpdateRequest alice id1
                  (mkBody None None None None None None None None
                     (Some "2030-12-31") None None None None None None None
                     None None None None None)))) id1)
  = Some expired.
Proof. reflexivity. Qed.

(** C7 at a concrete store.  Alice holds SAVE10.  Bob's request to create
    SAVE10 passes the controller's per-owner check and is then refused by
    the store, whose unique index on [code] spans all owners: the answer is
    an internal failure and nothing is created.  On a store without
    Alice's discount the same request succeeds. *)
Theorem second_owner_same_code_refused :
  findOne [save10 None 0 active] "SAVE10" bob = None
  /\ createDiscount sample_dates [save10 None 0 active] jun1 jun1 id2 []
       bob new_save10
     = Some ([save10 None 0 active],
             reject 500 "Error creating discount" (ErrorData DuplicateKey))
  /\ option_map (fun x => success (snd x))
       (createDiscount sample_dates [] jun1 jun1 id2 [] bob new_save10)
     = Some true.
Proof. repeat split; reflexivity. Qed.

Example same_owner_same_code_refused :
  createDiscount sample_dates [save10 None 0 active] jun1 jun1 id2 []
    alice new_save10
  = Some ([save10 None 0 active],
          reject 400 "Discount code already exists for your shop" NoData).
Proof. reflexivity. Qed.

(** Two requests on a fresh discount with a limit of one, each loading
    before the other commits: both succeed, and the stored count is one. *)
Lemma overlapping_uses_both_succeed :
  let final :=
    run (start [save10 (Some 1) 0 active] [use_of id1 100; use_of id1 100])
      overlap in
  map success (replies final) = [true; true]
  /\ map rejection_of (replies final) = [None; None]
  /\ map usedCount (fst final) = [Some one].
Proof. repeat split; reflexivity. Qed.

Lemma usage_limit_interleaved_witness :
  Forall within_limit
    (fst (run (start [save10 (Some 1) 0 active]
                 [use_of id1 100; use_of id1 100]) overlap)).
Proof.
  apply (Concurrency.usage_limit_interleaved [save10 (Some 1) 0 active]
           [use_of id1 100; use_of id1 100] overlap).
  constructor; [|constructor].
  exists 1, 0. repeat split; try reflexivity; lia.
Defined.

Example uses_in_turn :
  map success
    (snd (run_in_turn [save10 (Some 1) 0 active]
            [(jun1, jun1, use_of id1 100); (jun1, jun1, use_of id1 100);
             (jun1, jun1, use_of id1 100)]))
  = [true; false; false].
Proof. reflexivity. Qed.

End Examples.

(* ================================================================== *)
(** ** Further properties: virtuals, the static, statistics *)
(* ================================================================== *)

Module Reads.

Import JS Model Store Controller Spec Statics Maintenance Terms NumFacts
  Validator Ledger Concurrency.
Local Open Scope string_scope.
Local Open Scope Z_scope.

(** The rounded percentage of two whole numbers. *)
Lemma rounded_percentage (a t : Z) :
  1 <= t ->
  Math_round (mul (div (of_Z a) (of_Z t)) hundred)
  = of_Z ((200 * a + t) / (2 * t)).
Proof.
  intros Ht. destruct t as [|p|p]; try lia.
  unfold div, of_Z, sgn. 
  replace (inject_Z (Z.pos p) ?= 0)%Q with Gt by reflexivity.
  unfold mul, hundred, fin, Math_round, of_Z. do 2 f_equal.
  rewrite !Qred_correct.
  assert (E : (inject_Z a / inject_Z (Z.pos p) * 100 + (1 # 2)
               == (200 * a + Z.pos p) # (2 * p))%Q).
  { unfold Qeq, Qdiv, Qmult, Qinv, Qplus, inject_Z.
    cbn -[Z.mul Z.add Pos.mul]. rewrite ?Pos2Z.inj_mul. lia. }
  rewrite E. unfold Qfloor. now rewrite Pos2Z.inj_mul.
Qed.

Lemma percentage_range (a t : Z) :
  1 <= t -> 0 <= a <= t ->
  0 <= (200 * a + t) / (2 * t) <= 100
  /\ (a = 0 -> (200 * a + t) / (2 * t) = 0)
  /\ (a = t -> (200 * a + t) / (2 * t) = 100).
Proof.
  intros Ht Ha.
  assert (L : 0 <= (200 * a + t) / (2 * t)) by (apply Z.div_pos; lia).
  assert (U : (200 * a + t) / (2 * t) <= 100).
  { apply Z.lt_succ_r. apply Z.div_lt_upper_bound; lia. }
  repeat split; try assumption.
  - intros ->. apply Z.div_small. lia.
  - intros ->. symmetry. apply Z.div_unique with (r := t); lia.
Qed.

(** X1.  [isValidCode] and [validateDiscountCode] agree: the static
    returns a discount exactly when validation without an order amount
    succeeds, and then it is the validated discount; a validation that
    succeeds with an order amount implies the same. *)
Theorem isValidCode_agrees st now code owner :
  Text.truthy code = true ->
  isValidCode st now code owner
  = validated (snd (validateDiscountCode st now
                      (mkValidateRequest owner code None)))
  /\ forall amount d,
       validated (snd (validateDiscountCode st now
                         (mkValidateRequest owner code amount))) = Some d ->
       isValidCode st now code owner = Some d.
Proof.
  intros Hc. unfold isValidCode, validateDiscountCode. simpl.
  rewrite Hc. simpl.
  destruct (findOne st (Text.toUpperCase code) owner) as [d|];
    [|split; [reflexivity|intros ? ?; discriminate]].
  destruct (now <? startDate d); simpl;
    [split; [reflexivity|intros ? ?; discriminate]|].
  destruct (now >? endDate d); simpl;
    [split; [reflexivity|intros ? ?; discriminate]|].
  destruct (negb (status_eqb (status d) active)); simpl;
    [split; [reflexivity|intros ? ?; discriminate]|].
  destruct (truthy_nullable (usageLimit d)
            && ge (of_nullable (usedCount d)) (of_nullable (usageLimit d)));
    [split; [reflexivity|intros ? ?; discriminate]|].
  split; [reflexivity|].
  intros amount d'.
  destruct ((Text.truthy_opt amount && gt (minOrder d) zero)
            && lt (Text.parseFloat_opt amount) (minOrder d));
    unfold validated; simpl; congruence.
Qed.

(** X2.  [daysRemaining] is the number of whole days that covers the time
    left to the end date, rounded up: it is positive exactly while the end
    date lies ahead, and zero or negative from the end date on. *)
Theorem daysRemaining_ceiling now d :
  (daysRemaining now d - 1) * 86400000 < endDate d - now
    <= daysRemaining now d * 86400000
  /\ (0 < daysRemaining now d <-> now < endDate d).
Proof.
  unfold daysRemaining.
  pose proof (Z.div_mod (now - endDate d) 86400000 ltac:(lia)) as E.
  pose proof (Z.mod_pos_bound (now - endDate d) 86400000 ltac:(lia)) as B.
  split; [lia|]. split; intros H; lia.
Qed.

(** X3.  [usagePercentage] is [0] for a discount without a usage limit.
    For a whole limit [L] up to [MAX_SAFE_INTEGER] and a whole count [u]
    within it, it is a whole number between 0 and 100 that lies less than
    one away from [100 u / L]; it is 0 for an unused discount and 100 for
    a used-up one.  Which of the two neighbouring whole numbers it is when
    [100 u / L] falls close to a half is not stated: the quotient is taken
    exactly here, and rounded by the program. *)
Theorem usagePercentage_range d :
  (usageLimit d = None -> usagePercentage d = zero)
  /\ forall L u,
       usageLimit d = Some (of_Z L) ->
       of_nullable (usedCount d) = of_Z u ->
       1 <= L <= MAX_SAFE_INTEGER -> 0 <= u <= L ->
       exists p,
         usagePercentage d = of_Z p
         /\ 0 <= p <= 100
         /\ (p - 1) * L < 100 * u < (p + 1) * L
         /\ (u = 0 -> p = 0) /\ (u = L -> p = 100).
Proof.
  unfold usagePercentage. split.
  - intros ->. reflexivity.
  - intros L u -> Hu [HL _] Hr.
    exists ((200 * u + L) / (2 * L)).
    destruct (percentage_range u L HL Hr) as (R & Z0 & ZL).
    split.
    + cbn [truthy_nullable of_nullable].
      rewrite (truthy_of_Z L) by lia. simpl negb. cbv iota.
      rewrite Hu. now apply rounded_percentage.
    + split; [exact R|]. split; [|tauto].
      pose proof (Z.mul_div_le (200 * u + L) (2 * L)) as A.
      pose proof (Z.mul_succ_div_gt (200 * u + L) (2 * L)) as B.
      nia.
Qed.

(** X4.  Right after a save the virtual [isActive], read at the time of
    the save, and the stored status agree: [isActive] holds exactly when
    the status the hook has set is [active]. *)
Theorem isActive_after_save now d :
  isActive now (preSave now d) = status_eqb (status (preSave now d)) active.
Proof.
  unfold isActive, preSave, preSave_status. simpl.
  destruct (status d) eqn:S; simpl;
    try (destruct (now <? startDate d) eqn:A; simpl;
         [apply Z.ltb_lt in A;
          replace (startDate d <=? now) with false
            by (symmetry; apply Z.leb_gt; lia); reflexivity|];
         apply Z.ltb_ge in A;
         replace (startDate d <=? now) with true
           by (symmetry; apply Z.leb_le; lia);
         destruct (now >? endDate d) eqn:B; simpl;
         [rewrite Z.gtb_ltb in B; apply Z.ltb_lt in B;
          replace (now <=? endDate d) with false
            by (symmetry; apply Z.leb_gt; lia); reflexivity|];
         rewrite Z.gtb_ltb in B; apply Z.ltb_ge in B;
         replace (now <=? endDate d) with true
           by (symmetry; apply Z.leb_le; lia); reflexivity).
Qed.

Lemma count_if_le f l : (count_if f l <= List.length l)%nat.
Proof. unfold count_if. apply filter_length_le. Qed.

Lemma count_disjoint3 (f g h : Discount -> bool) l :
  (forall d, f d = true -> g d = false /\ h d = false) ->
  (forall d, g d = true -> h d = false) ->
  (count_if f l + count_if g l + count_if h l <= List.length l)%nat.
Proof.
  intros Hf Hg. unfold count_if.
  induction l as [|d l IH]; simpl; [lia|].
  destruct (f d) eqn:F.
  - destruct (Hf d F) as [-> ->]. simpl. lia.
  - destruct (g d) eqn:G.
    + rewrite (Hg d G). simpl. lia.
    + destruct (h d); simpl; lia.
Qed.

Lemma rate_range (a t : nat) :
  (a <= t)%nat ->
  exists p, rate a t = of_Z p /\ 0 <= p <= 100
            /\ (a = 0%nat -> p = 0) /\ (t = 0%nat -> p = 0).
Proof.
  intros H. unfold rate.
  destruct (Nat.ltb 0 t) eqn:T.
  - apply Nat.ltb_lt in T.
    rewrite rounded_percentage by lia.
    destruct (percentage_range (Z.of_nat a) (Z.of_nat t)) as (R & Z0 & _);
      try lia.
    eexists. split; [reflexivity|]. split; [exact R|].
    split; [intros ->; now apply Z0|lia].
  - exists 0. repeat split; try lia.
Qed.

(** X5.  In the statistics of an owner the three status counts are counts
    of different documents, so together they do not exceed the total; the
    active count requires the window to contain now as well as the status;
    and the rate is a whole number between 0 and 100, 0 when the owner has
    no discount or none is active. *)
Theorem aggregate_stats_sound st key now now' :
  let s := aggregate_stats st key now now' in
  totalDiscounts s = List.length (filter (matches key) st)
  /\ (activeDiscounts s + upcomingDiscounts s + expiredDiscounts s
      <= totalDiscounts s)%nat
  /\ (activeDiscounts s
      <= count_if (fun d => status_eqb (status d) active)
           (filter (matches key) st))%nat
  /\ exists p, avgUsageRate s = of_Z p /\ 0 <= p <= 100
               /\ (activeDiscounts s = 0%nat -> p = 0)
               /\ (totalDiscounts s = 0%nat -> p = 0).
Proof.
  cbv zeta. unfold aggregate_stats. simpl.
  split; [reflexivity|]. split; [|split].
  - apply count_disjoint3.
    + intros d H. apply andb_true_iff in H. destruct H as [_ H].
      apply status_eqb_eq in H. rewrite H. split; reflexivity.
    + intros d H. apply status_eqb_eq in H. now rewrite H.
  - unfold count_if. generalize (filter (matches key) st). intros l.
    induction l as [|d l IH]; simpl; [lia|].
    destruct (status_eqb (status d) active);
      [destruct ((startDate d <=? now) && (endDate d >=? now')); simpl; lia|].
    rewrite andb_false_r. exact IH.
  - apply rate_range. apply count_if_le.
Qed.

(** X6.  [getDiscountStats] answers every owner, whatever the store
    holds, with the statistics of no discount at all: it matches on
    [req.user._id], and the user object the authentication middleware
    attaches carries [id], not [_id]. *)
Theorem getDiscountStats_empty st user now now' :
  getDiscountStats st user now now' = mkStats 0 0 0 0 zero zero zero zero.
Proof.
  unfold getDiscountStats, aggregate_stats.
  replace (filter (matches None) st) with (@nil Discount);
    [reflexivity|].
  induction st as [|d st IH]; simpl; [reflexivity|exact IH].
Qed.

End Reads.

(* ================================================================== *)
(** ** Further properties: the routes *)
(* ================================================================== *)

Module Routing.

Import Model Maintenance Routes.
Local Open Scope string_scope.

Lemma only_shopOwner (r : string) :
  existsb (String.eqb r) ["shopOwner"] = true -> r = "shopOwner".
Proof.
  simpl. rewrite orb_false_r. apply String.eqb_eq.
Qed.

(** X7.  A request reaches a handler of the discount API only with a user
    that [protect] has found, and, for every handler other than
    [validateDiscountCode], only when the role of that user is
    ["shopOwner"]: a user of any other role, [admin] included, reaches
    none of them. *)
Theorem routes_guarded req e user :
  serve req = Reached e user ->
  exists u,
    token req = inl u /\ user = Some u
    /\ (role u = "shopOwner"
        \/ exists code, e = to_validateDiscountCode code
                        /\ method req = GET).
Proof.
  unfold serve, discountRoutes. cbn [dispatch].
  destruct (token req) as [u|c]; [|discriminate].
  destruct (method_eqb GET (method req)) eqn:G.
  - destruct (match_path [Lit "validate"; Param] (path req)) as [ps|].
    + intros H. injection H as <- <-. exists u.
      split; [reflexivity|]. split; [reflexivity|]. right.
      eexists. split; [reflexivity|]. now destruct (method req).
    + destruct (existsb (String.eqb (role u)) ["shopOwner"]) eqn:R;
        [|discriminate].
      apply only_shopOwner in R.
      repeat match goal with
             | |- context [match ?c with _ => _ end] => destruct c
             end;
        intros H; try discriminate H; injection H as <- <-;
        exists u; auto.
  - destruct (existsb (String.eqb (role u)) ["shopOwner"]) eqn:R;
      [|discriminate].
    apply only_shopOwner in R.
    repeat match goal with
           | |- context [match ?c with _ => _ end] => destruct c
           end;
      intros H; try discriminate H; injection H as <- <-;
      exists u; auto.
Qed.

Lemma lit_matches (s : string) :
  String.eqb (Text.toLowerCase s) (Text.toLowerCase s) = true.
Proof. apply String.eqb_refl. Qed.

(** X8.  No route of the discount API is hidden behind an earlier one.
    For a shop owner and any non-empty parameter, each declared method and
    path reaches its own handler; in particular [GET /stats/summary] is
    not taken for [GET /:id], and [PATCH /bulk/status] is not taken for
    [PATCH /:id/use].  [GET /validate/:code] is reached by every
    authenticated user. *)
Theorem routes_reach_their_handlers (u : User) (x : string) :
  Text.truthy x = true ->
  let ask m p := serve (mkRequest m p (inl u)) in
  ask GET ["validate"; x] = Reached (to_validateDiscountCode x) (Some u)
  /\ (role u = "shopOwner" ->
      ask POST [] = Reached to_createDiscount (Some u)
      /\ ask GET [] = Reached to_getDiscounts (Some u)
      /\ ask GET ["stats"; "summary"] = Reached to_getDiscountStats (Some u)
      /\ ask GET [x] = Reached (to_getDiscountById x) (Some u)
      /\ ask PUT [x] = Reached (to_updateDiscount x) (Some u)
      /\ ask DELETE [x] = Reached (to_deleteDiscount x) (Some u)
      /\ ask PATCH [x; "use"] = Reached (to_updateDiscountUsage x) (Some u)
      /\ ask PATCH ["bulk"; "status"] = Reached to_bulkUpdateStatus (Some u)).
Proof.
  intros Hx. cbv zeta. unfold serve, discountRoutes. split.
  - cbn. now rewrite Hx.
  - intros R.
    repeat split; cbn -[String.eqb Text.toLowerCase]; rewrite ?R, ?Hx;
      repeat match goal with
             | |- context [String.eqb ?a (Text.toLowerCase x)] =>
                 destruct (String.eqb a (Text.toLowerCase x))
             end;
      reflexivity.
Qed.

End Routing.

(* ================================================================== *)
(** ** Further properties: what each handler writes *)
(* ================================================================== *)

Module Writes.

Import JS Model Store Controller Spec Statics Maintenance Terms NumFacts
  Validator Ledger Repository Concurrency Invariants.
Local Open Scope string_scope.
Local Open Scope Z_scope.

Lemma compareIds_eq a b : compareIds a b = true -> a = b.
Proof.
  unfold compareIds.
  destruct (negb (Text.truthy a) || negb (Text.truthy b)); [discriminate|].
  apply String.eqb_eq.
Qed.

Lemma map_modify {A : Type} (g : Discount -> A) id f st :
  (forall d, g (f d) = g d) -> map g (modify id f st) = map g st.
Proof.
  intros H. induction st as [|a st IH]; simpl; [reflexivity|].
  destruct (id_eqb (_id a) id); simpl; [now rewrite H|now rewrite IH].
Qed.

Lemma map_updateMany {A : Type} (g : Discount -> A) ids s st :
  (forall d, g (set_status d s) = g d) ->
  map g (fst (updateMany_status ids s st)) = map g st.
Proof.
  intros H. induction st as [|a st IH]; simpl; [reflexivity|].
  destruct (updateMany_status ids s st) as [rest n]. simpl in IH.
  destruct (existsb (id_eqb (_id a)) ids); simpl; [rewrite H|];
    now rewrite IH.
Qed.

Lemma findById_updateMany ids s st id :
  findById (fst (updateMany_status ids s st)) id
  = option_map
      (fun d => if existsb (id_eqb (_id d)) ids then set_status d s else d)
      (findById st id).
Proof.
  unfold findById. induction st as [|a st IH]; simpl; [reflexivity|].
  destruct (updateMany_status ids s st) as [rest n]. simpl in IH.
  destruct (existsb (id_eqb (_id a)) ids) eqn:E; simpl;
    destruct (id_eqb (_id a) id); simpl; try rewrite E; auto.
Qed.

Lemma remove_id_incl id st d : In d (remove_id id st) -> In d st.
Proof.
  induction st as [|a st IH]; simpl; [auto|].
  destruct (id_eqb (_id a) id); simpl; intuition.
Qed.

Lemma findById_remove_other id id' st :
  id' <> id -> findById (remove_id id st) id' = findById st id'.
Proof.
  intros Hn. unfold findById.
  induction st as [|a st IH]; simpl; [reflexivity|].
  destruct (id_eqb (_id a) id) eqn:E; simpl.
  - apply id_eqb_eq in E.
    replace (id_eqb (_id a) id') with false; [reflexivity|].
    symmetry. apply id_eqb_neq. congruence.
  - destruct (id_eqb (_id a) id'); [reflexivity|exact IH].
Qed.

Lemma findById_none_notin st id :
  ~ In id (map _id st) -> findById st id = None.
Proof.
  unfold findById. induction st as [|a st IH]; simpl; [reflexivity|].
  intros H. destruct (id_eqb (_id a) id) eqn:E.
  - apply id_eqb_eq in E. tauto.
  - apply IH. tauto.
Qed.

Lemma findById_remove_same id st :
  NoDup (map _id st) -> findById (remove_id id st) id = None.
Proof.
  induction st as [|a st IH]; simpl; intros H; [reflexivity|].
  inversion H as [|? ? Hn Hd]; subst.
  destruct (id_eqb (_id a) id) eqn:E.
  - apply id_eqb_eq in E. subst id. now apply findById_none_notin.
  - unfold findById in *. simpl. rewrite E. now apply IH.
Qed.

Lemma remove_id_length id st d :
  findById st id = Some d ->
  List.length st = S (List.length (remove_id id st)).
Proof.
  unfold findById. induction st as [|a st IH]; simpl; [discriminate|].
  destruct (id_eqb (_id a) id); simpl; [reflexivity|].
  intros H. now rewrite (IH H).
Qed.

Lemma NoDup_map_remove {A : Type} (g : Discount -> A) id st :
  NoDup (map g st) -> NoDup (map g (remove_id id st)).
Proof.
  induction st as [|a st IH]; simpl; intros H; [constructor|].
  inversion H as [|? ? Hn Hd]; subst.
  destruct (id_eqb (_id a) id); [assumption|].
  simpl. constructor; [|now apply IH].
  intros Hin. apply Hn. apply in_map_iff in Hin.
  destruct Hin as (x & <- & Hx). apply in_map. now apply remove_id_incl in Hx.
Qed.

Lemma findOne_none_notin st c owner :
  ~ In c (map code st) -> findOne st c owner = None.
Proof.
  unfold findOne. induction st as [|a st IH]; simpl; [reflexivity|].
  intros H. destruct (String.eqb (code a) c) eqn:E.
  - apply String.eqb_eq in E. tauto.
  - simpl. apply IH. tauto.
Qed.

Lemma findOne_remove st id d owner :
  NoDup (map code st) -> findById st id = Some d ->
  findOne (remove_id id st) (code d) owner = None.
Proof.
  unfold findById. induction st as [|a st IH]; simpl; intros H F;
    [discriminate|].
  inversion H as [|? ? Hn Hd]; subst.
  destruct (id_eqb (_id a) id) eqn:E.
  - injection F as <-. now apply findOne_none_notin.
  - unfold findOne in *. simpl.
    replace (String.eqb (code a) (code d)) with false.
    + simpl. now apply IH.
    + symmetry. apply String.eqb_neq. intros C. apply Hn.
      rewrite C. apply in_map. now apply find_some in F.
Qed.

Lemma validateDates_ok s e now :
  validateDates (Some s) (Some e) now = None -> s <= e /\ now <= e.
Proof.
  unfold validateDates.
  destruct (s >? e) eqn:A; [discriminate|].
  destruct (e <? now) eqn:B; [discriminate|]. intros _.
  rewrite Z.gtb_ltb in A. apply Z.ltb_ge in A, B. lia.
Qed.

(** What a new document is, once cast. *)
Lemma cast_new_fields fresh x d :
  cast_new fresh x = inl d ->
  _id d = fresh /\ createdBy d = dd_createdBy x
  /\ counters d = (Some zero, Some zero, Some zero)
  /\ status d = active /\ remainingUses d = None
  /\ dd_startDate x = Some (startDate d) /\ dd_endDate x = Some (endDate d)
  /\ cast_code (dd_code x) = inl (code d).
Proof.
  intros H. unfold cast_new in H. split_casts H. injection H as <-.
  simpl. unfold counters. simpl.
  repeat match goal with
         | E : cast_date ?t = inl _ |- _ =>
             destruct t; simpl in E; [injection E as <-|discriminate E]
         end.
  repeat split; assumption || reflexivity.
Qed.

(** The two ways [createDiscount] ends: nothing written and no success, or
    one evaluated document appended. *)
Lemma createDiscount_shape parseDate st now now_save fresh draws user body
  st' r :
  createDiscount parseDate st now now_save fresh draws user body
  = Some (st', r) ->
  (success r = false /\ st' = st)
  \/ exists d0,
       r = accept 201 (Msg "Discount created successfully")
             (DocumentData (preSave now_save d0))
       /\ st' = (st ++ [preSave now_save d0])%list
       /\ existsb (fun x => id_eqb (_id x) fresh
                            || String.eqb (code x) (code d0)) st = false
       /\ schema_ok d0 = true
       /\ _id d0 = fresh /\ createdBy d0 = user
       /\ counters d0 = (Some zero, Some zero, Some zero)
       /\ status d0 = active
       /\ startDate d0 <= endDate d0 /\ now <= endDate d0.
Proof.
  unfold createDiscount.
  destruct (_ || _); [intros H; injection H as <- <-; now left|].
  destruct (validateDates _ _ now) eqn:V;
    [intros H; injection H as <- <-; now left|].
  destruct (negb (Text.truthy_opt (b_code body)));
    [destruct (generateDiscountCode st user draws); [|discriminate]
    |destruct (findOne st _ user);
       [intros H; injection H as <- <-; now left|]].
  all: unfold create.
  all: destruct (cast_new _ _) as [d0|e] eqn:C;
    [|intros H; injection H as <- <-; now left].
  all: unfold insert; destruct (existsb _ st) eqn:X;
    intros H; injection H as <- <-; [now left|].
  all: right; exists d0.
  all: pose proof (cast_new_valid _ _ _ C) as Hv.
  all: destruct (cast_new_fields _ _ _ C)
         as (F1 & F2 & F3 & F4 & _ & F6 & F7 & _).
  all: simpl in F2, F6, F7; rewrite F6, F7 in V.
  all: destruct (validateDates_ok _ _ _ V) as [D1 D2].
  all: simpl in X; rewrite F1 in X.
  all: repeat split; assumption.
Qed.

Lemma find_app_first {A : Type} (f : A -> bool) l x :
  existsb f l = false -> f x = true -> find f (l ++ [x]) = Some x.
Proof.
  induction l as [|a l IH]; simpl; intros H Hx; [now rewrite Hx|].
  apply orb_false_iff in H. destruct H as [Ha Hl].
  rewrite Ha. now apply IH.
Qed.


Lemma existsb_false_forall {A : Type} (f : A -> bool) l :
  existsb f l = false -> forall x, In x l -> f x = false.
Proof.
  intros H x Hx. destruct (f x) eqn:E; [|reflexivity].
  assert (existsb f l = true) by (apply existsb_exists; eauto).
  congruence.
Qed.

Lemma existsb_weaker {A : Type} (f g : A -> bool) l :
  (forall x, g x = true -> f x = true) ->
  existsb f l = false -> existsb g l = false.
Proof.
  intros H E. induction l as [|a l IH]; simpl in *; [reflexivity|].
  apply orb_false_iff in E. destruct E as [Ea El].
  rewrite (IH El), orb_false_r.
  destruct (g a) eqn:G; [|reflexivity]. rewrite (H a G) in Ea. discriminate.
Qed.

Lemma toUpperCase_empty text : Text.toUpperCase text = "" -> text = "".
Proof. destruct text; [reflexivity|discriminate]. Qed.

Lemma ge_one_not_le_zero (l : num) :
  ge l one = true -> ge zero l = false.
Proof.
  unfold ge, le. destruct l as [| | |q]; simpl; try discriminate;
    try reflexivity.
  destruct (1 ?= q)%Q eqn:E; try discriminate; intros _.
  - apply Qeq_alt in E.
    replace (q ?= 0)%Q with Gt; [reflexivity|].
    symmetry. apply Qgt_alt. lra.
  - change (1 < q)%Q in E.
    replace (q ?= 0)%Q with Gt; [reflexivity|].
    symmetry. apply Qgt_alt. lra.
Qed.

(** A fresh discount has not reached its limit. *)
Lemma fresh_under_limit d :
  schema_ok d = true -> usedCount d = Some zero ->
  truthy_nullable (usageLimit d)
  && ge (of_nullable (usedCount d)) (of_nullable (usageLimit d)) = false.
Proof.
  intros H U. apply schema_ok_usageLimit in H. rewrite U.
  destruct (usageLimit d) as [l|]; simpl in *; [|reflexivity].
  apply andb_true_iff in H. destruct H as [_ H].
  rewrite (ge_one_not_le_zero _ H). apply andb_false_r.
Qed.

Lemma schema_ok_code d : schema_ok d = true -> Text.truthy (code d) = true.
Proof.
  intros H. apply schema_ok_fields in H. destruct H as (_ & H & _).
  unfold code_ok in H. now apply andb_true_iff in H.
Qed.

(** X10.  [createDiscount] either fails and writes nothing, or appends
    exactly one document: it carries the fresh identifier and the caller
    as owner, zero usage counters whatever the body says (a body is read
    only through the fifteen fields of the form), a status derived from
    the dates at save time, and a window that is ordered and has not ended;
    it passes the schema, and a lookup by its identifier, or by its code
    and owner, returns it. *)
Theorem createDiscount_postcondition parseDate st now now_save fresh draws
  user body st' r :
  createDiscount parseDate st now now_save fresh draws user body
  = Some (st', r) ->
  (success r = false -> st' = st)
  /\ (success r = true ->
      exists d,
        answered r = Some d /\ st' = (st ++ [d])%list
        /\ _id d = fresh /\ createdBy d = user
        /\ counters d = (Some zero, Some zero, Some zero)
        /\ status d = (if now_save <? startDate d then upcoming
                       else if now_save >? endDate d then expired
                       else active)
        /\ startDate d <= endDate d /\ now <= endDate d
        /\ schema_ok d = true
        /\ findById st' fresh = Some d
        /\ findOne st' (code d) user = Some d)
  /\ createDiscount parseDate st now now_save fresh draws user
       (create_fields body) = Some (st', r).
Proof.
  intros H. split; [|split]; [| |exact H].
  - destruct (createDiscount_shape _ _ _ _ _ _ _ _ _ _ H)
      as [[_ E]|(d0 & -> & _)]; [auto|discriminate].
  - destruct (createDiscount_shape _ _ _ _ _ _ _ _ _ _ H)
      as [[E _]|(d0 & -> & -> & X & V & I & O & C & S & D1 & D2)];
      [congruence|].
    intros _. exists (preSave now_save d0).
    split; [reflexivity|]. split; [reflexivity|].
    split; [exact I|]. split; [exact O|]. split; [exact C|].
    split; [unfold preSave, preSave_status; simpl; now rewrite S|].
    split; [exact D1|]. split; [exact D2|]. split; [exact V|].
    split.
    + unfold findById. apply find_app_first.
      * apply (existsb_weaker _ _ _ (fun x G => orb_true_intro _ _ (or_introl G))
                 X).
      * simpl. rewrite I. apply String.eqb_refl.
    + unfold findOne. apply find_app_first.
      * refine (existsb_weaker _ _ _ _ X). intros x G.
        apply andb_true_iff in G. destruct G as [G _].
        simpl in G. rewrite G. apply orb_true_r.
      * simpl. rewrite O. unfold id_eqb. now rewrite !String.eqb_refl.
Qed.

(** X11.  What validation makes of a discount just created, while the
    store stays as creation left it.  Created before its start date it is
    stored as [upcoming], and no later validation succeeds: inside the
    window the answer is Inactive, since nothing refreshes the stored
    status.  Created inside its window it validates at once, for its owner
    and in any spelling of its code, when no order amount is given. *)
Theorem created_then_validated parseDate st now now_save fresh draws user
  body st' r d :
  createDiscount parseDate st now now_save fresh draws user body
  = Some (st', r) ->
  answered r = Some d ->
  forall now' text,
    Text.toUpperCase text = code d ->
    (now_save < startDate d ->
     forall amount,
       let v := snd (validateDiscountCode st' now'
                       (mkValidateRequest user text amount)) in
       success v = false
       /\ (startDate d <= now' <= endDate d ->
           rejection_of v = Some Inactive))
    /\ (startDate d <= now_save <= endDate d ->
        startDate d <= now' <= endDate d ->
        validated (snd (validateDiscountCode st' now'
                          (mkValidateRequest user text None))) = Some d).
Proof.
  intros H A now' text Ht.
  destruct (createDiscount_postcondition _ _ _ _ _ _ _ _ _ _ H)
    as (_ & P & _).
  assert (S : success r = true)
    by (unfold answered in A; destruct (success r); congruence).
  destruct (P S) as (d' & A' & _ & _ & _ & C & St & _ & _ & V & _ & F).
  rewrite A in A'. injection A' as <-.
  assert (T : Text.truthy text = true).
  { pose proof (schema_ok_code _ V) as Hc.
    destruct text; [|reflexivity].
    simpl in Ht. rewrite <- Ht in Hc. discriminate. }
  unfold validateDiscountCode. simpl. rewrite T, Ht, F. simpl.
  split.
  - intros Hb amount.
    replace (now_save <? startDate d) with true in St
      by (symmetry; apply Z.ltb_lt; lia).
    rewrite St. simpl.
    destruct (now' <? startDate d) eqn:N1; simpl.
    + split; [reflexivity|]. apply Z.ltb_lt in N1. lia.
    + destruct (now' >? endDate d) eqn:N2; simpl.
      * split; [reflexivity|]. rewrite Z.gtb_ltb in N2.
        apply Z.ltb_lt in N2. lia.
      * split; reflexivity.
  - intros Hs Hn.
    destruct (in_window _ _ Hs) as [S1 S2]. rewrite S1, S2 in St.
    destruct (in_window _ _ Hn) as [N1 N2]. rewrite N1, N2, St. simpl.
    assert (U : usedCount d = Some zero)
      by (unfold counters in C; congruence).
    rewrite (fresh_under_limit _ V U). reflexivity.
Qed.

Lemma cast_update_dates u d d' :
  cast_update u d = inl d' ->
  date_or (up_startDate u) (startDate d) = Some (startDate d')
  /\ date_or (up_endDate u) (endDate d) = Some (endDate d').
Proof.
  intros H. unfold cast_update in H. split_casts H. injection H as <-.
  simpl.
  repeat match goal with
         | E : set_path (up_startDate u) _ _ = inl _ |- _ =>
             destruct (up_startDate u) as [[[?|]|]|]; simpl in E;
             try discriminate E; injection E as <-
         | E : set_path (up_endDate u) _ _ = inl _ |- _ =>
             destruct (up_endDate u) as [[[?|]|]|]; simpl in E;
             try discriminate E; injection E as <-
         end.
  all: split; reflexivity.
Qed.

(** The two ways [updateDiscount] ends. *)
Lemma updateDiscount_shape parseDate st now req st' r :
  updateDiscount parseDate st now req = (st', r) ->
  (success r = false /\ st' = st)
  \/ exists d d',
       findById st (p_id req) = Some d
       /\ createdBy d = p_user req
       /\ cast_update (convert parseDate (p_body req)) d = inl d'
       /\ existsb (fun x => negb (id_eqb (_id x) (p_id req))
                            && String.eqb (code x) (code d')) st = false
       /\ st' = modify (p_id req) (fun _ => d') st
       /\ r = accept 200 (Msg "Discount updated successfully")
                (DocumentData d')
       /\ (startDate d <= endDate d -> startDate d' <= endDate d').
Proof.
  unfold updateDiscount.
  destruct (findById st (p_id req)) as [d|] eqn:F;
    [|intros H; injection H as <- <-; now left].
  destruct (compareIds (createdBy d) (p_user req)) eqn:C; simpl;
    [|intros H; injection H as <- <-; now left].
  apply compareIds_eq in C.
  match goal with
  | |- context [match ?e with Some _ => _ | None => _ end] =>
      destruct e eqn:V; [intros H; injection H as <- <-; now left|]
  end.
  unfold findByIdAndUpdate. rewrite F.
  destruct (cast_update _ d) as [d'|e] eqn:U;
    [|intros H; injection H as <- <-; now left].
  destruct (existsb _ st) eqn:X; intros H; injection H as <- <-;
    [now left|].
  right. exists d, d'. repeat split; try assumption.
  intros Ho. destruct (cast_update_dates _ _ _ U) as [Ds De].
  simpl in Ds, De.
  match type of V with
  | (if ?c then _ else _) = _ => destruct c eqn:G
  end.
  - rewrite Ds, De in V. now apply validateDates_ok in V.
  - apply orb_false_iff in G. destruct G as [G1 G2].
    assert (Ds' : startDate d' = startDate d).
    { destruct (convert_date parseDate (b_startDate (p_body req)))
        as [[?|]|]; simpl in *; congruence. }
    assert (De' : endDate d' = endDate d).
    { destruct (convert_date parseDate (b_endDate (p_body req)))
        as [[?|]|]; simpl in *; congruence. }
    lia.
Qed.

(** X12.  [updateDiscount] writes only for the owner and only as a whole:
    another owner's request is answered 403, and every answer that is not
    a success leaves the store untouched; on success the document the
    answer carries is the one now stored under the same identifier, the
    identifiers of the store are as before, and every other document is
    unchanged. *)
Theorem updateDiscount_effect parseDate st now req :
  let st' := fst (updateDiscount parseDate st now req) in
  let r := snd (updateDiscount parseDate st now req) in
  (forall d, findById st (p_id req) = Some d ->
     createdBy d <> p_user req -> http r = 403%nat /\ st' = st)
  /\ (success r = false -> st' = st)
  /\ (success r = true ->
      exists d d',
        findById st (p_id req) = Some d
        /\ createdBy d = p_user req
        /\ answered r = Some d'
        /\ findById st' (p_id req) = Some d'
        /\ _id d' = p_id req
        /\ map _id st' = map _id st
        /\ forall id', id' <> p_id req ->
             findById st' id' = findById st id').
Proof.
  cbv zeta.
  destruct (updateDiscount parseDate st now req) as [st' r] eqn:E.
  simpl. split; [|split].
  - intros d F Hn. unfold updateDiscount in E. rewrite F in E.
    destruct (compareIds (createdBy d) (p_user req)) eqn:C.
    + apply compareIds_eq in C. contradiction.
    + simpl in E. injection E as <- <-. now split.
  - destruct (updateDiscount_shape _ _ _ _ _ _ E)
      as [[_ ->]|(d & d' & _ & _ & _ & _ & _ & -> & _)];
      [auto|discriminate].
  - destruct (updateDiscount_shape _ _ _ _ _ _ E)
      as [[S _]|(d & d' & F & O & U & _ & -> & -> & _)]; [congruence|].
    intros _. exists d, d'.
    pose proof (cast_update_id _ _ _ U) as I.
    pose proof (findById_id _ _ _ F) as I'.
    assert (K : forall x : Discount, _id x = p_id req -> _id d' = p_id req)
      by (intros; congruence).
    split; [exact F|]. split; [exact O|]. split; [reflexivity|].
    split; [apply (findById_modify_same st (p_id req) (fun _ => d') d K F)|].
    split; [congruence|]. split.
    + clear -I I'. rewrite I' in I.
      induction st as [|a st IH]; simpl; [reflexivity|].
      destruct (id_eqb (_id a) (p_id req)) eqn:B; simpl.
      * apply id_eqb_eq in B. congruence.
      * now rewrite IH.
    + intros id' Hn.
      apply (findById_modify_other st (p_id req) id' (fun _ => d') K Hn).
Qed.

Lemma existsb_id_In (x : ObjectId) ids :
  existsb (id_eqb x) ids = true <-> In x ids.
Proof.
  rewrite existsb_exists. split.
  - intros (y & Hy & E). apply id_eqb_eq in E. now subst.
  - intros H. exists x. split; [exact H|]. now apply id_eqb_eq.
Qed.

(** X13.  [bulkUpdateStatus] is all or nothing.  One target that the
    caller does not own makes the whole request fail with 403 and nothing
    is written; only [active], [paused] and [expired] can be set; on
    success every target is owned by the caller and gets the new status,
    with no other field of any document changed; documents that are not
    targets are as before. *)
Theorem bulkUpdateStatus_effect st req :
  let st' := fst (bulkUpdateStatus st req) in
  let r := snd (bulkUpdateStatus st req) in
  (success r = false -> st' = st)
  /\ (forall ids s d,
        k_discountIds req = Some ids ->
        bulk_status (k_status req) = Some s ->
        In d st -> In (_id d) ids -> createdBy d <> k_user req ->
        http r = 403%nat /\ st' = st)
  /\ (success r = true ->
      exists ids s,
        k_discountIds req = Some ids
        /\ bulk_status (k_status req) = Some s /\ s <> upcoming
        /\ (forall d, In d st -> In (_id d) ids ->
              createdBy d = k_user req)
        /\ (forall id,
              findById st' id
              = option_map (bulk_applied ids s) (findById st id))
        /\ (forall d, set_derived (bulk_applied ids s d)
                        (remainingUses d) (status d) = d)).
Proof.
  cbv zeta. unfold bulkUpdateStatus.
  destruct (k_discountIds req) as [[|i ids]|] eqn:K.
  - simpl. split; [auto|]. split; [|discriminate].
    intros ids s d E. injection E as <-. contradiction.
  - cbv beta iota zeta. remember (i :: ids) as l eqn:Hl.
    destruct (bulk_status (k_status req)) as [s|] eqn:B.
    2:{ simpl. split; [auto|]. split; [intros; discriminate|discriminate]. }
    match goal with
    | |- context [match ?e with [] => _ | _ :: _ => _ end] =>
        destruct e as [|bad rest] eqn:N
    end.
    + pose proof (findById_updateMany l s st) as L.
      destruct (updateMany_status l s st) as [st1 n]. simpl in L |- *.
      assert (Own : forall d, In d st -> In (_id d) l ->
                      createdBy d = k_user req).
      { intros d Hd Hi.
        destruct (compareIds (createdBy d) (k_user req)) eqn:C;
          [now apply compareIds_eq|].
        assert (In d []) as [].
        rewrite <- N. apply filter_In. split; [|now rewrite C].
        apply filter_In. split; [exact Hd|].
        exact (proj2 (existsb_id_In (_id d) l) Hi). }
      split; [discriminate|]. split.
      * intros ids' s' d E1 E2 Hd Hi Hn.
        injection E1 as <-. exfalso. apply Hn. now apply Own.
      * intros _. exists l, s.
        split; [reflexivity|]. split; [reflexivity|]. split.
        { unfold bulk_status in B.
          repeat match type of B with
                 | (if ?c then _ else _) = _ => destruct c
                 end; congruence. }
        split; [exact Own|]. split; [exact L|].
        intros d. unfold bulk_applied.
        destruct (existsb (id_eqb (_id d)) l); now destruct d.
    + simpl. split; [auto|]. split; [now intros|discriminate].
  - simpl. split; [auto|]. split; [intros; discriminate|discriminate].
Qed.

(** X9.  [deleteDiscount] removes a discount only for its owner: a
    missing discount is answered 404 and another owner's 403, both leaving
    the store as it was; on success exactly the named document is gone,
    every other document is as before, and, in a store without duplicate
    identifiers and codes, a lookup by the identifier or by the code of the
    deleted discount finds nothing, so its code, in any spelling, no longer
    validates. *)
Theorem deleteDiscount_effect st req :
  let st' := fst (deleteDiscount st req) in
  let r := snd (deleteDiscount st req) in
  (findById st (x_id req) = None -> http r = 404%nat /\ st' = st)
  /\ (forall d, findById st (x_id req) = Some d ->
        createdBy d <> x_user req -> http r = 403%nat /\ st' = st)
  /\ (success r = false -> st' = st)
  /\ (success r = true ->
      exists d,
        findById st (x_id req) = Some d
        /\ createdBy d = x_user req
        /\ List.length st = S (List.length st')
        /\ (forall id', id' <> x_id req ->
              findById st' id' = findById st id')
        /\ (store_unique st ->
            findById st' (x_id req) = None
            /\ forall now text amount,
                 Text.toUpperCase text = code d ->
                 http (snd (validateDiscountCode st' now
                              (mkValidateRequest (x_user req) text
                                 amount))) <> 200%nat)).
Proof.
  cbv zeta. unfold deleteDiscount.
  destruct (findById st (x_id req)) as [d|] eqn:F.
  - pose proof (findById_id _ _ _ F) as Hid.
    destruct (compareIds (createdBy d) (x_user req)) eqn:C; simpl.
    + apply compareIds_eq in C.
      split; [discriminate|]. split; [intros d' E; injection E as <-; tauto|].
      split; [discriminate|]. intros _. exists d. rewrite Hid.
      split; [reflexivity|]. split; [exact C|].
      split; [now apply remove_id_length with (d := d)|].
      split; [intros id' Hn; now apply findById_remove_other|].
      intros [Ui Uc]. split; [now apply findById_remove_same|].
      intros now text amount Hc. unfold validateDiscountCode. simpl.
      destruct (negb (Text.truthy text)); [simpl; discriminate|].
      rewrite Hc, (findOne_remove st (x_id req) d (x_user req) Uc F).
      simpl. discriminate.
    + split; [discriminate|]. split; [auto|]. split; [auto|discriminate].
  - simpl. split; [auto|]. split; [discriminate|].
    split; [auto|discriminate].
Qed.

End Writes.

(* ================================================================== *)
(** ** Who writes the usage counters *)
(* ================================================================== *)

Module Counters.

Import JS Model Store Controller Interleaving Spec Samples Statics Maintenance
  Routes Terms Fixtures NumFacts Validator Ledger Repository Concurrency
  Invariants Writes.
Local Open Scope string_scope.
Local Open Scope Z_scope.










End Counters.

(* ================================================================== *)
(** ** Usage recorded call after call *)
(* ================================================================== *)

Module Turns.

Import JS Model Store Controller Interleaving Spec Statics Maintenance Terms
  NumFacts Validator Ledger Repository Concurrency Invariants Writes.
Local Open Scope string_scope.
Local Open Scope Z_scope.

Lemma expected_successes_S room n :
  expected_successes room (S n)
  = (0 <? room) :: expected_successes (room - 1) n.
Proof.
  unfold expected_successes. simpl. f_equal.
  rewrite <- seq_shift, map_map. apply map_ext. intros i.
  destruct (Z.of_nat (S i) <? room) eqn:A, (Z.of_nat i <? room - 1) eqn:B;
    try reflexivity;
    rewrite ?Z.ltb_lt, ?Z.ltb_ge in *; lia.
Qed.

Lemma expected_successes_none room n :
  room <= 0 -> expected_successes (room - 1) n = expected_successes room n.
Proof.
  intros H. unfold expected_successes. apply map_ext. intros i.
  destruct (Z.of_nat i <? room - 1) eqn:A, (Z.of_nat i <? room) eqn:B;
    try reflexivity;
    rewrite ?Z.ltb_lt, ?Z.ltb_ge in *; lia.
Qed.

Lemma use_under_limit st id d L u now now_save req :
  findById st id = Some d ->
  schema_ok d = true ->
  usageLimit d = Some (of_Z L) ->
  usedCount d = Some (of_Z u) ->
  u < L ->
  status d = active ->
  call_ok id d (now, now_save, req) ->
  exists st1 r1 d1,
    updateDiscountUsage st now now_save req = (st1, r1)
    /\ success r1 = true
    /\ findById st1 id = Some d1
    /\ schema_ok d1 = true
    /\ status d1 = active
    /\ usageLimit d1 = Some (of_Z L)
    /\ usedCount d1 = Some (of_Z (u + 1))
    /\ startDate d1 = startDate d /\ endDate d1 = endDate d.
Proof.
  intros F Hd Hl Hu Hlt Hs (Hid & (W1 & W2 & W3 & W4) & Hn & Hv).
  pose proof (findById_id _ _ _ F) as Hdid.
  unfold updateDiscountUsage. subst id.
  rewrite (usage_load_found _ _ _ W1 W2 F).
  rewrite usage_commit_stored by (now rewrite Hdid).
  destruct (in_window _ _ Hn) as [N1 N2].
  destruct (in_window _ _ Hv) as [V1 V2].
  rewrite N1, N2, Hs, Hl, Hu.
  cbn [orb negb status_eqb of_nullable truthy_nullable].
  rewrite ge_of_Z.
  replace (L <=? u) with false by (symmetry; apply Z.leb_gt; lia).
  rewrite andb_false_r. cbv zeta.
  rewrite (modified_ok_revenue _ _ Hd), (revenue_ok_nonneg _ _ Hd W3 W4).
  do 3 eexists. split; [reflexivity|]. split; [reflexivity|].
  rewrite Hdid. split.
  - apply findById_modify_same; [intros y Hy; exact Hy|exact F].
  - split.
    + apply write_modified_valid; [exact Hd|].
      rewrite (modified_ok_revenue _ _ Hd).
      apply (revenue_ok_nonneg _ _ Hd W3 W4).
    + unfold write_modified, incremented, preSave, preSave_status.
      cbn [status usageLimit usedCount startDate endDate set_counters
           set_derived].
      rewrite Hs, V1, V2.
      rewrite written_count, Hu, Hl.
      change one with (of_Z 1). cbn [of_nullable]. rewrite add_of_Z.
      repeat split; reflexivity.
Qed.

Lemma limit_at_least_one d L :
  schema_ok d = true -> usageLimit d = Some (of_Z L) -> 1 <= L.
Proof.
  intros H E. apply schema_ok_usageLimit in H. rewrite E in H.
  unfold min_ok in H. apply andb_true_iff in H. destruct H as [_ H].
  change one with (of_Z 1) in H. rewrite ge_of_Z in H.
  now apply Z.leb_le.
Qed.

Lemma use_at_limit st id d L u now now_save req :
  findById st id = Some d ->
  usageLimit d = Some (of_Z L) ->
  usedCount d = Some (of_Z u) ->
  1 <= L <= u ->
  status d = active ->
  call_ok id d (now, now_save, req) ->
  updateDiscountUsage st now now_save req = (st, limit_reached_reply).
Proof.
  intros F Hl Hu Hle Hs (Hid & (W1 & W2 & _) & Hn & _).
  unfold updateDiscountUsage. subst id.
  rewrite (usage_load_found _ _ _ W1 W2 F).
  unfold usage_commit.
  destruct (in_window _ _ Hn) as [N1 N2].
  rewrite N1, N2, Hs, Hl, Hu.
  cbn [orb negb status_eqb of_nullable truthy_nullable].
  rewrite ge_of_Z, truthy_of_Z by lia.
  replace (L <=? u) with true by (symmetry; apply Z.leb_le; lia).
  reflexivity.
Qed.

(** X14.  Calls to [updateDiscountUsage] served one after the other on
    an active discount with a limit [L] up to [MAX_SAFE_INTEGER] and [u]
    uses taken, all inside its window: the first [L - u] succeed and every
    later one is answered "usage limit reached"; afterwards the stored
    count is [u] plus the number of successes, never above [L] when it
    started within it, and the discount is still active with the same
    limit.  The bound keeps every count that is written a whole number
    whose successor is a different number; beyond it counting by one is
    not exact and nothing is stated. *)
Theorem limit_served_in_turn calls :
  forall st id d L u,
    findById st id = Some d ->
    schema_ok d = true ->
    usageLimit d = Some (of_Z L) ->
    L <= MAX_SAFE_INTEGER ->
    usedCount d = Some (of_Z u) ->
    status d = active ->
    Forall (call_ok id d) calls ->
    map success (snd (run_in_turn st calls))
    = expected_successes (L - u) (length calls)
    /\ (forall r, In r (snd (run_in_turn st calls)) ->
          success r = false -> r = limit_reached_reply)
    /\ exists d',
         findById (fst (run_in_turn st calls)) id = Some d'
         /\ usedCount d'
            = Some (of_Z (u + Z.max 0 (Z.min (L - u)
                                         (Z.of_nat (length calls)))))
         /\ usageLimit d' = Some (of_Z L)
         /\ status d' = active.
Proof.
  induction calls as [|[[now now_save] req] rest IH];
    intros st id d L u F Hd Hl Hb Hu Hs Hc.
  - simpl. split; [reflexivity|]. split; [intros r []|].
    exists d. repeat split; try assumption.
    rewrite Hu. do 2 f_equal. lia.
  - inversion Hc as [|? ? Hc1 Hcs]; subst.
    pose proof (limit_at_least_one _ _ Hd Hl) as HL.
    cbn [length]. rewrite expected_successes_S.
    destruct (Z_lt_le_dec u L) as [Lt|Ge].
    + destruct (use_under_limit _ _ _ _ _ _ _ _ F Hd Hl Hu Lt Hs Hc1)
        as (st1 & r1 & d1 & E & S & F1 & V1 & S1 & L1 & U1 & D1 & D2).
      assert (Hcs' : Forall (call_ok id d1) rest).
      { eapply Forall_impl; [|exact Hcs].
        intros [[n ns] q]. unfold call_ok. now rewrite D1, D2. }
      destruct (IH st1 id d1 L (u + 1) F1 V1 L1 Hb U1 S1 Hcs')
        as (A & B & d' & F' & U' & L' & S').
      cbn [run_in_turn]. rewrite E.
      destruct (run_in_turn st1 rest) as [st2 rs]. cbn [fst snd] in *.
      split.
      * cbn [map]. rewrite S, A.
        replace (0 <? L - u) with true by (symmetry; apply Z.ltb_lt; lia).
        do 2 f_equal. lia.
      * split.
        { intros r [<-|Hr] Hf; [congruence|now apply B]. }
        exists d'. repeat split; try assumption.
        rewrite U'. do 2 f_equal.
        rewrite Nat2Z.inj_succ. cbn [length]. lia.
    + cbn [run_in_turn].
      rewrite (use_at_limit _ _ _ _ _ _ _ _ F Hl Hu (conj HL Ge) Hs Hc1).
      destruct (IH st id d L u F Hd Hl Hb Hu Hs Hcs)
        as (A & B & d' & F' & U' & L' & S').
      destruct (run_in_turn st rest) as [st2 rs]. cbn [fst snd] in *.
      split.
      * cbn [map]. rewrite A.
        replace (0 <? L - u) with false by (symmetry; apply Z.ltb_ge; lia).
        f_equal. symmetry. apply expected_successes_none. lia.
      * split.
        { intros r [<-|Hr] Hf; [reflexivity|now apply B]. }
        exists d'. repeat split; try assumption.
        rewrite U'. do 2 f_equal. cbn [length]. lia.
Qed.

End Turns.

(* ================================================================== *)
(** ** The code generator *)
(* ================================================================== *)

Module Generator.

Import JS Model Store Controller Interleaving Spec Statics Maintenance Terms
  NumFacts Validator Ledger Repository Concurrency Invariants Writes.
Local Open Scope string_scope.
Local Open Scope Z_scope.

Lemma charAt_code_chars i :
  (i < 36)%nat ->
  exists c, charAt code_chars i = String c EmptyString
            /\ is_code_char c = true.
Proof.
  intros H.
  do 36 (destruct i as [|i]; [eexists; split; reflexivity|]).
  lia.
Qed.

Lemma length_append_char s c :
  String.length (s ++ String c EmptyString) = S (String.length s).
Proof. induction s as [|a s IH]; simpl; [reflexivity|now rewrite IH]. Qed.

Lemma chars_append_char s c :
  list_ascii_of_string (s ++ String c EmptyString)
  = (list_ascii_of_string s ++ [c])%list.
Proof. induction s as [|a s IH]; simpl; [reflexivity|now rewrite IH]. Qed.

Lemma draw_fold turn :
  Forall (fun i => (i < 36)%nat) turn ->
  forall acc,
    forallb is_code_char (list_ascii_of_string acc) = true ->
    let code :=
      fold_left (fun code i => code ++ charAt code_chars i) turn acc in
    String.length code = (String.length acc + List.length turn)%nat
    /\ forallb is_code_char (list_ascii_of_string code) = true.
Proof.
  induction 1 as [|i turn Hi _ IH]; intros acc Ha; cbn [fold_left].
  - split; [simpl; lia|exact Ha].
  - destruct (charAt_code_chars i Hi) as (c & -> & Hc).
    destruct (IH (acc ++ String c EmptyString)) as [L C].
    + rewrite chars_append_char, forallb_app, Ha. simpl. now rewrite Hc.
    + cbv zeta in *. split; [|exact C].
      rewrite L, length_append_char. simpl. lia.
Qed.

Lemma draw_code_ok turn :
  turn_ok turn ->
  String.length (draw_code turn) = 8%nat
  /\ forallb is_code_char (list_ascii_of_string (draw_code turn)) = true.
Proof.
  intros [L F]. unfold draw_code.
  rewrite firstn_all2 by lia.
  destruct (draw_fold turn F EmptyString eq_refl) as [A B].
  split; [|exact B]. rewrite A, L. reflexivity.
Qed.

Lemma upper_code_char c : is_code_char c = true -> Text.upper_char c = c.
Proof.
  unfold is_code_char, Text.upper_char. cbv zeta. intros H.
  destruct ((97 <=? nat_of_ascii c) && (nat_of_ascii c <=? 122))%nat eqn:E;
    [|reflexivity].
  apply andb_true_iff in E. destruct E as [E1 E2].
  apply Nat.leb_le in E1, E2.
  apply orb_true_iff in H.
  destruct H as [H|H]; apply andb_true_iff in H; destruct H as [H1 H2];
    apply Nat.leb_le in H1, H2; lia.
Qed.

Lemma upper_code_text l :
  forallb is_code_char l = true -> map Text.upper_char l = l.
Proof.
  induction l as [|c l IH]; simpl; [reflexivity|].
  intros H. apply andb_true_iff in H. destruct H as [H1 H2].
  now rewrite (upper_code_char _ H1), (IH H2).
Qed.

(** X15.  The code [generateDiscountCode] returns is free for the owner:
    it is the draw of the first turn whose code no discount of that owner
    carries.  When every turn draws eight indices into the alphabet, the
    code has eight characters, all capital letters or digits, so that
    upper-casing leaves it as it is. *)
Theorem generateDiscountCode_free st owner draws c :
  generateDiscountCode st owner draws = Some c ->
  findOne st c owner = None
  /\ (exists taken turn rest,
        draws = (taken ++ turn :: rest)%list
        /\ c = draw_code turn
        /\ Forall (fun t => findOne st (draw_code t) owner <> None) taken)
  /\ (Forall turn_ok draws ->
      String.length c = 8%nat
      /\ forallb is_code_char (list_ascii_of_string c) = true
      /\ Text.toUpperCase c = c).
Proof.
  induction draws as [|turn rest IH]; simpl; [discriminate|].
  destruct (findOne st (draw_code turn) owner) as [x|] eqn:F.
  - intros H. destruct (IH H) as (A & (tk & t & r & -> & -> & T) & B).
    split; [exact A|]. split.
    + exists (turn :: tk), t, r. split; [reflexivity|].
      split; [reflexivity|]. constructor; [congruence|exact T].
    + intros Ok. inversion Ok; subst. now apply B.
  - intros H. injection H as <-. split; [exact F|]. split.
    + exists [], turn, rest. repeat split. constructor.
    + intros Ok. inversion Ok as [|? ? Ht _]; subst.
      destruct (draw_code_ok _ Ht) as [L C].
      split; [exact L|]. split; [exact C|].
      unfold Text.toUpperCase, Text.chars.
      rewrite (upper_code_text _ C).
      apply string_of_list_ascii_of_string.
Qed.

End Generator.

(* ================================================================== *)
(** ** What every reachable store satisfies *)
(* ================================================================== *)

Module Soundness.

Import JS Model Store Controller Interleaving Spec Statics Maintenance Terms
  NumFacts Validator Ledger Repository Concurrency Invariants Writes.
Local Open Scope string_scope.
Local Open Scope Z_scope.

Lemma NoDup_snoc {A : Type} (l : list A) x :
  NoDup l -> ~ In x l -> NoDup (l ++ [x])%list.
Proof.
  induction 1 as [|a l Ha Hl IH]; simpl; intros Hx.
  - constructor; [auto|constructor].
  - constructor.
    + rewrite in_app_iff. simpl. intros [H|[H|[]]]; [auto|subst; tauto].
    + apply IH. tauto.
Qed.

Lemma modify_const_In id d' st x :
  In x (modify id (fun _ => d') st) -> In x st \/ x = d'.
Proof.
  induction st as [|a st IH]; simpl; [tauto|].
  destruct (id_eqb (_id a) id); simpl; intros [H|H]; auto.
  destruct (IH H); auto.
Qed.

Lemma map_id_modify_const id d' st :
  _id d' = id -> map _id (modify id (fun _ => d') st) = map _id st.
Proof.
  intros I. induction st as [|a st IH]; simpl; [reflexivity|].
  destruct (id_eqb (_id a) id) eqn:B; simpl.
  - apply id_eqb_eq in B. congruence.
  - now rewrite IH.
Qed.

Lemma NoDup_code_modify id d' st :
  NoDup (map _id st) -> NoDup (map code st) ->
  existsb (fun x => negb (id_eqb (_id x) id)
                    && String.eqb (code x) (code d')) st = false ->
  NoDup (map code (modify id (fun _ => d') st)).
Proof.
  induction st as [|a st IH]; simpl; intros Hi Hc X; [constructor|].
  inversion Hi as [|? ? Ni Di]; inversion Hc as [|? ? Nc Dc]; subst.
  apply orb_false_iff in X. destruct X as [Xa Xs].
  destruct (id_eqb (_id a) id) eqn:E; simpl.
  - apply id_eqb_eq in E. constructor; [|exact Dc].
    intros Hin. apply in_map_iff in Hin. destruct Hin as (x & Hx & Hin).
    pose proof (existsb_false_forall _ _ Xs x Hin) as Hf. simpl in Hf.
    rewrite Hx, String.eqb_refl, andb_true_r in Hf.
    apply negb_false_iff, id_eqb_eq in Hf.
    apply Ni. rewrite E, <- Hf. now apply in_map.
  - constructor; [|now apply IH].
    intros Hin. apply in_map_iff in Hin. destruct Hin as (x & Hx & Hin).
    destruct (modify_const_In _ _ _ _ Hin) as [H| ->].
    + apply Nc. rewrite <- Hx. now apply in_map.
    + simpl in Xa. rewrite Hx, String.eqb_refl in Xa. discriminate.
Qed.

Lemma dates_ordered_map st :
  dates_ordered st
  <-> Forall (fun p => fst p <= snd p)
        (map (fun d => (startDate d, endDate d)) st).
Proof. unfold dates_ordered. now rewrite Forall_map. Qed.

Lemma write_modified_frame loaded mem d :
  _id (write_modified loaded mem d) = _id d
  /\ code (write_modified loaded mem d) = code d
  /\ startDate (write_modified loaded mem d) = startDate d
  /\ endDate (write_modified loaded mem d) = endDate d.
Proof. repeat split. Qed.

Lemma usage_keeps_sound st now now_save req :
  store_sound st ->
  store_sound (fst (updateDiscountUsage st now now_save req)).
Proof.
  intros (V & D & U1 & U2).
  pose proof (handlers_keep_store_valid (fun _ => None) st V)
    as (_ & HV & _).
  split; [apply HV|]. clear HV.
  unfold updateDiscountUsage.
  destruct (usage_load st req) as [req' loaded|r];
    [|repeat split; assumption].
  destruct (usage_commit st now now_save req' loaded) as [st' r] eqn:C.
  destruct (usage_commit_store _ _ _ _ _ _ _ C) as [->|(_ & _ & ->)];
    [repeat split; assumption|].
  cbn [fst]. split; [|split].
  - apply dates_ordered_map. rewrite map_modify; [now apply dates_ordered_map|].
    intros d. now destruct (write_modified_frame loaded
      (preSave now_save (incremented loaded
         (parseFloat_val (u_orderAmount req')))) d) as (_ & _ & -> & ->).
  - rewrite map_modify; [exact U1|reflexivity].
  - rewrite map_modify; [exact U2|reflexivity].
Qed.

Lemma bulk_keeps_sound st req :
  store_sound st -> store_sound (fst (bulkUpdateStatus st req)).
Proof.
  intros (V & D & U1 & U2).
  pose proof (handlers_keep_store_valid (fun _ => None) st V)
    as (_ & _ & HV & _).
  split; [apply HV|]. clear HV.
  unfold bulkUpdateStatus.
  destruct (k_discountIds req) as [[|i ids]|];
    try (repeat split; assumption).
  destruct (bulk_status (k_status req)) as [s|];
    [|repeat split; assumption].
  destruct (filter _ (filter _ st)); [|repeat split; assumption].
  pose proof (map_updateMany (fun d => (startDate d, endDate d)) (i :: ids) s st
                (fun _ => eq_refl)) as M1.
  pose proof (map_updateMany _id (i :: ids) s st (fun _ => eq_refl)) as M2.
  pose proof (map_updateMany code (i :: ids) s st (fun _ => eq_refl)) as M3.
  destruct (updateMany_status (i :: ids) s st) as [st1 n]. cbn [fst] in *.
  split; [|split].
  - apply dates_ordered_map. rewrite M1. now apply dates_ordered_map.
  - now rewrite M2.
  - now rewrite M3.
Qed.

Lemma update_keeps_sound parseDate st now req :
  store_sound st -> store_sound (fst (updateDiscount parseDate st now req)).
Proof.
  intros (V & D & U1 & U2).
  pose proof (handlers_keep_store_valid parseDate st V)
    as (_ & _ & _ & HV & _).
  split; [apply HV|]. clear HV.
  destruct (updateDiscount parseDate st now req) as [st' r] eqn:E.
  destruct (updateDiscount_shape _ _ _ _ _ _ E)
    as [[_ ->]|(d & d' & F & _ & C & X & -> & _ & O)];
    [repeat split; assumption|].
  cbn [fst]. split; [|split].
  - apply Forall_modify; [exact D|].
    intros d0 F0. rewrite F in F0. injection F0 as <-.
    apply O. unfold dates_ordered in D. rewrite Forall_forall in D.
    apply D. exact (findById_In _ _ _ F).
  - rewrite map_id_modify_const; [exact U1|].
    rewrite (cast_update_id _ _ _ C). exact (findById_id _ _ _ F).
  - now apply NoDup_code_modify.
Qed.

Lemma create_keeps_sound parseDate st now now_save fresh draws user body
  st' r :
  store_sound st ->
  createDiscount parseDate st now now_save fresh draws user body
  = Some (st', r) ->
  store_sound st'.
Proof.
  intros (V & D & U1 & U2) E.
  pose proof (handlers_keep_store_valid parseDate st V)
    as (_ & _ & _ & _ & HV).
  split; [exact (HV _ _ _ _ _ _ _ _ E)|]. clear HV.
  destruct (createDiscount_shape _ _ _ _ _ _ _ _ _ _ E)
    as [[_ ->]|(d0 & _ & -> & X & _ & I & _ & _ & _ & O & _)];
    [repeat split; assumption|].
  split; [|split].
  - apply Forall_app. split; [exact D|]. constructor; [exact O|constructor].
  - rewrite map_app. apply NoDup_snoc; [exact U1|].
    intros Hin. apply in_map_iff in Hin. destruct Hin as (x & Hx & Hin).
    pose proof (existsb_false_forall _ _ X x Hin) as Hf. simpl in Hf.
    apply orb_false_iff in Hf. destruct Hf as [Hf _].
    simpl in Hx. rewrite Hx, I in Hf.
    unfold id_eqb in Hf. now rewrite String.eqb_refl in Hf.
  - rewrite map_app. apply NoDup_snoc; [exact U2|].
    intros Hin. apply in_map_iff in Hin. destruct Hin as (x & Hx & Hin).
    pose proof (existsb_false_forall _ _ X x Hin) as Hf. simpl in Hf.
    apply orb_false_iff in Hf. destruct Hf as [_ Hf].
    simpl in Hx. rewrite Hx in Hf.
    now rewrite String.eqb_refl in Hf.
Qed.

Lemma delete_keeps_sound st req :
  store_sound st -> store_sound (fst (deleteDiscount st req)).
Proof.
  intros (V & D & U1 & U2). unfold deleteDiscount.
  destruct (findById st (x_id req)) as [d|]; [|repeat split; assumption].
  destruct (negb (compareIds (createdBy d) (x_user req)));
    [repeat split; assumption|].
  cbn [fst]. split; [|split; [|split]].
  - unfold store_valid in *. rewrite Forall_forall in *.
    intros x Hx. apply V. now apply remove_id_incl in Hx.
  - unfold dates_ordered in *. rewrite Forall_forall in *.
    intros x Hx. apply D. now apply remove_id_incl in Hx.
  - now apply NoDup_map_remove.
  - now apply NoDup_map_remove.
Qed.

Lemma handlers_keep_store_sound parseDate st :
  store_sound st ->
  (forall now req, fst (validateDiscountCode st now req) = st)
  /\ (forall now now_save req,
        store_sound (fst (updateDiscountUsage st now now_save req)))
  /\ (forall req, store_sound (fst (bulkUpdateStatus st req)))
  /\ (forall now req,
        store_sound (fst (updateDiscount parseDate st now req)))
  /\ (forall req, store_sound (fst (deleteDiscount st req)))
  /\ (forall now now_save fresh draws user body st' r,
        createDiscount parseDate st now now_save fresh draws user body
        = Some (st', r) -> store_sound st').
Proof.
  intros H. split; [intros; apply validateDiscountCode_store|].
  split; [intros; now apply usage_keeps_sound|].
  split; [intros; now apply bulk_keeps_sound|].
  split; [intros; now apply update_keeps_sound|].
  split; [intros; now apply delete_keeps_sound|].
  intros. eapply create_keeps_sound; eassumption.
Qed.

Lemma run_calls_sound parseDate calls :
  forall st, store_sound st -> store_sound (run_calls parseDate st calls).
Proof.
  unfold run_calls. induction calls as [|c calls IH]; intros st H;
    [exact H|].
  cbn [fold_left]. apply IH.
  destruct (handlers_keep_store_sound parseDate st H)
    as (H1 & H2 & H3 & H4 & H5 & H6).
  destruct c; cbn [serve_call]; auto.
  - destruct (createDiscount _ _ _ _ _ _ _ _) as [[st' r]|] eqn:E;
      [exact (H6 _ _ _ _ _ _ _ _ E)|exact H].
  - now rewrite H1.
Qed.

(** X16.  Whatever calls the handlers that touch the collection (create,
    update, delete, usage recording, bulk status, validation) have served
    one after the other, starting from an empty collection, every stored
    document passes the validators of the schema and has its start date no
    later than its end date, and no identifier and no code is stored
    twice.  The calls are those of [Call]: the body of a create or an
    update is a flat form of text values.  An update whose body holds a
    number for a date, or an update operator for a key, is outside this
    statement. *)
Theorem reachable_store_sound parseDate calls :
  store_valid (run_calls parseDate [] calls)
  /\ dates_ordered (run_calls parseDate [] calls)
  /\ store_unique (run_calls parseDate [] calls).
Proof.
  apply (run_calls_sound parseDate calls []).
  repeat split; constructor.
Qed.

End Soundness.

(* ================================================================== *)
(** ** Worked cases of the further properties *)
(* ================================================================== *)

Module Cases.

Import JS Model Store Controller Interleaving Spec Samples Statics Maintenance
  Routes Terms Fixtures.
Local Open Scope string_scope.
Local Open Scope Z_scope.

Lemma isValidCode_agrees_witness :
  isValidCode [save10 (Some 10) 3 active] jun1 "save10" alice
  = validated (snd (validateDiscountCode [save10 (Some 10) 3 active] jun1
                      (ask None))).
Proof.
  apply (Reads.isValidCode_agrees [save10 (Some 10) 3 active] jun1
           "save10" alice eq_refl).
Defined.

Lemma usagePercentage_range_witness :
  exists p,
    usagePercentage (save10 (Some 40) 23 active) = of_Z p
    /\ 0 <= p <= 100
    /\ (p - 1) * 40 < 100 * 23 < (p + 1) * 40
    /\ (23 = 0 -> p = 0) /\ (23 = 40 -> p = 100).
Proof.
  apply (proj2 (Reads.usagePercentage_range (save10 (Some 40) 23 active))
           40 23 eq_refl eq_refl);
    unfold MAX_SAFE_INTEGER; lia.
Defined.

Lemma routes_guarded_witness :
  exists u,
    token (mkRequest GET ["validate"; "SAVE10"] (inl shopper)) = inl u
    /\ Some shopper = Some u
    /\ (role u = "shopOwner"
        \/ exists code, to_validateDiscountCode "SAVE10"
                        = to_validateDiscountCode code
                        /\ method (mkRequest GET ["validate"; "SAVE10"]
                                      (inl shopper)) = GET).
Proof.
  apply (Routing.routes_guarded
           (mkRequest GET ["validate"; "SAVE10"] (inl shopper))
           (to_validateDiscountCode "SAVE10") (Some shopper) eq_refl).
Defined.

Lemma routes_reach_their_handlers_witness :
  serve (mkRequest PATCH [id1; "use"] (inl keeper))
  = Reached (to_updateDiscountUsage id1) (Some keeper).
Proof.
  destruct (Routing.routes_reach_their_handlers keeper id1 eq_refl)
    as (_ & H).
  destruct (H eq_refl) as (_ & _ & _ & _ & _ & _ & H7 & _).
  exact H7.
Defined.

Lemma createDiscount_postcondition_witness :
  success created_reply = true
  /\ exists d,
       answered created_reply = Some d
       /\ created_store = [d]
       /\ createdBy d = alice
       /\ findOne created_store (code d) alice = Some d.
Proof.
  destruct (Writes.createDiscount_postcondition sample_dates [] jun1 jun1
              id1 [] alice new_save10 created_store created_reply eq_refl)
    as (_ & P & _).
  split; [reflexivity|].
  destruct (P eq_refl) as (d & A & S & _ & O & _ & _ & _ & _ & _ & _ & F).
  exists d. repeat split; assumption.
Defined.

Lemma created_then_validated_witness :
  validated (snd (validateDiscountCode created_store jun1
                    (mkValidateRequest alice "save10" None)))
  = Some created_doc.
Proof.
  apply (Writes.created_then_validated sample_dates [] jun1 jun1 id1 []
           alice new_save10 created_store created_reply created_doc
           eq_refl eq_refl jun1 "save10" eq_refl);
    vm_compute; split; discriminate.
Defined.

Lemma limit_served_in_turn_witness :
  map success (snd (run_in_turn [save10 (Some 2) 0 active] three_calls))
  = [true; true; false].
Proof.
  apply (Turns.limit_served_in_turn three_calls [save10 (Some 2) 0 active] id1
           (save10 (Some 2) 0 active) 2 0 eq_refl eq_refl eq_refl
           ltac:(unfold MAX_SAFE_INTEGER; lia) eq_refl eq_refl).
  repeat constructor; vm_compute; discriminate.
Defined.

Lemma generateDiscountCode_free_witness :
  findOne [first_draw_taken] "BBBBBBBB" alice = None
  /\ String.length "BBBBBBBB" = 8%nat.
Proof.
  destruct (Generator.generateDiscountCode_free [first_draw_taken] alice
              two_turns "BBBBBBBB" eq_refl) as (A & _ & B).
  split; [exact A|]. apply B.
  repeat constructor.
Defined.

End Cases.
